(** * Consent reconciliation of the Fides inline-consent example

    A shallow embedding of the React component [App] and of the browser
    and language primitives it relies on ([document.cookie],
    [String.prototype.split], [encodeURIComponent], [JSON.parse], ...),
    followed by the properties of the consent flow.

    The repository carries the component in two shapes that the claims
    refer to:
    - the one with cookie encoding, the documentation header and the
      gated submit button (functions [encodeCookie], [decodeCookie],
      [updateConsentCookie], [recordConsentOnServer], [processNotices]);
      it is embedded in [Module Inline];
    - [src/App.tsx], where [handleSubmit] does everything itself and the
      cookie text is written and read raw; it is embedded in
      [Module Basic].

    JavaScript strings are represented by their UTF-8 bytes ([string]);
    exceptions are values of [error] carried by [result]. *)

From Stdlib Require Import Bool Arith NArith ZArith Lia List.
From Stdlib Require Import Strings.Ascii Strings.String.
Import ListNotations.

Local Open Scope list_scope.
Local Open Scope string_scope.

Set Implicit Arguments.
Set Warnings "-register-all".

(* ================================================================== *)
(** ** Exceptions *)

Inductive error : Type :=
| SyntaxError      (* JSON.parse on malformed text *)
| URIError         (* decodeURIComponent on a malformed escape *)
| TypeError        (* property access on undefined / null *)
| FetchFailed      (* fetch() rejected: the network call did not complete *)
| OutsideModel.    (* well-defined in JavaScript, not represented here *)

Inductive result (A : Type) : Type :=
| Ok (a : A)
| Throw (e : error).

Arguments Ok {A} a.
Arguments Throw {A} e.

Definition bind {A B} (r : result A) (k : A -> result B) : result B :=
  match r with
  | Ok a => k a
  | Throw e => Throw e
  end.

Notation "'let*' x ':=' r 'in' k" := (bind r (fun x => k))
  (at level 10, x pattern, r at level 100, k at level 200).

(* ================================================================== *)
(** ** String primitives *)

Module Str.

Definition is_upper (c : ascii) : bool :=
  let n := nat_of_ascii c in Nat.leb 65 n && Nat.leb n 90.

(** [String.prototype.toLowerCase] on ASCII text: the letters [A-Z]
    are lowered.  The bytes of other characters are left as they are,
    which is not what JavaScript does to a cased letter outside ASCII;
    the statements that depend on the lowered text are made for ASCII
    text. *)
Definition lower_char (c : ascii) : ascii :=
  if is_upper c then ascii_of_nat (nat_of_ascii c + 32) else c.

Fixpoint toLowerCase (s : string) : string :=
  match s with
  | EmptyString => EmptyString
  | String c s' => String (lower_char c) (toLowerCase s')
  end.

(** [strip_prefix p s] is [Some r] when [s = p ++ r]. *)
Fixpoint strip_prefix (p s : string) : option string :=
  match p with
  | EmptyString => Some s
  | String a p' =>
      match s with
      | EmptyString => None
      | String b s' => if Ascii.eqb a b then strip_prefix p' s' else None
      end
  end.

(** [String.prototype.replace] with a string pattern: only the first
    occurrence of [pat] is replaced. *)
Fixpoint replace (pat rep s : string) {struct s} : string :=
  match strip_prefix pat s with
  | Some rest => rep ++ rest
  | None =>
      match s with
      | EmptyString => EmptyString
      | String c s' => String c (replace pat rep s')
      end
  end.

(** What a global replacement would produce (character pattern). *)
Fixpoint replace_all_char (a b : ascii) (s : string) : string :=
  match s with
  | EmptyString => EmptyString
  | String c s' =>
      String (if Ascii.eqb c a then b else c) (replace_all_char a b s')
  end.

(** [String.prototype.endsWith]. *)
Fixpoint endsWith (s suffix : string) : bool :=
  if String.eqb s suffix then true
  else match s with
       | EmptyString => false
       | String _ s' => endsWith s' suffix
       end.

Fixpoint contains_char (a : ascii) (s : string) : bool :=
  match s with
  | EmptyString => false
  | String c s' => Ascii.eqb c a || contains_char a s'
  end.

Fixpoint count_char (a : ascii) (s : string) : nat :=
  match s with
  | EmptyString => 0
  | String c s' => (if Ascii.eqb c a then 1 else 0) + count_char a s'
  end.

Fixpoint forallb_char (p : ascii -> bool) (s : string) : bool :=
  match s with
  | EmptyString => true
  | String c s' => p c && forallb_char p s'
  end.

Definition cons_head (c : ascii) (l : list string) : list string :=
  match l with
  | [] => [String c EmptyString]
  | h :: t => String c h :: t
  end.

(** [String.prototype.split] with a non-empty separator: the pieces of
    [s] between the occurrences of [sep], read from the left.  [fuel]
    bounds the number of steps; [length s + 1] is always enough (lemma
    [split_go_fuel]). *)
Fixpoint split_go (fuel : nat) (sep s : string) : list string :=
  match fuel with
  | O => [s]
  | S fuel' =>
      match s with
      | EmptyString => [EmptyString]
      | String c s' =>
          match strip_prefix sep s with
          | Some rest => EmptyString :: split_go fuel' sep rest
          | None => cons_head c (split_go fuel' sep s')
          end
      end
  end.

Definition split (s sep : string) : list string :=
  split_go (S (length s)) sep s.

(** [a.join(sep)]. *)
Fixpoint join (sep : string) (l : list string) : string :=
  match l with
  | [] => EmptyString
  | [x] => x
  | x :: l' => x ++ sep ++ join sep l'
  end.

(** The double quote character. *)
Definition dquote : ascii := "034".

Definition is_blank (c : ascii) : bool :=
  Ascii.eqb c " " || Ascii.eqb c "009".

Fixpoint trim_left (s : string) : string :=
  match s with
  | String c s' => if is_blank c then trim_left s' else s
  | EmptyString => EmptyString
  end.

(** Removes the blanks at the end: a character is kept when a non-blank
    character follows it or it is not blank itself. *)
Fixpoint trim_right (s : string) : string :=
  match s with
  | EmptyString => EmptyString
  | String c s' =>
      match trim_right s' with
      | EmptyString => if is_blank c then EmptyString else String c EmptyString
      | r => String c r
      end
  end.

Definition trim (s : string) : string := trim_right (trim_left s).

End Str.

(* ================================================================== *)
(** ** [encodeURIComponent] and [decodeURIComponent] *)

Module URI.

Definition is_digit (c : ascii) : bool :=
  let n := nat_of_ascii c in Nat.leb 48 n && Nat.leb n 57.

Definition is_alpha (c : ascii) : bool :=
  let n := nat_of_ascii c in
  (Nat.leb 65 n && Nat.leb n 90) || (Nat.leb 97 n && Nat.leb n 122).

(** The characters [encodeURIComponent] leaves alone:
    [A-Z a-z 0-9 - _ . ! ~ * ' ( )]. *)
Definition unreserved (c : ascii) : bool :=
  is_alpha c || is_digit c ||
  existsb (Ascii.eqb c) ["-"; "_"; "."; "!"; "~"; "*"; "'"; "("; ")"]%char.

Definition hex_digit (n : nat) : ascii :=
  if Nat.ltb n 10 then ascii_of_nat (48 + n) else ascii_of_nat (55 + n).

Definition hex_val (c : ascii) : option nat :=
  let n := nat_of_ascii c in
  if Nat.leb 48 n && Nat.leb n 57 then Some (n - 48)
  else if Nat.leb 65 n && Nat.leb n 70 then Some (n - 55)
  else if Nat.leb 97 n && Nat.leb n 102 then Some (n - 87)
  else None.

Definition encode_char (c : ascii) : string :=
  if unreserved c then String c EmptyString
  else
    let n := nat_of_ascii c in
    String "%" (String (hex_digit (n / 16)) (String (hex_digit (n mod 16)) EmptyString)).

(** Every byte of the UTF-8 form of the text that is not an unreserved
    character becomes [%XX]. *)
Fixpoint encodeURIComponent (s : string) : string :=
  match s with
  | EmptyString => EmptyString
  | String c s' => encode_char c ++ encodeURIComponent s'
  end.

(** Length of the UTF-8 sequence that the lead octet [b >= 128]
    announces; [None] for a continuation octet or more than four. *)
Definition sequence_length (b : nat) : option nat :=
  if Nat.ltb b 192 then None
  else if Nat.ltb b 224 then Some 2
  else if Nat.ltb b 240 then Some 3
  else if Nat.ltb b 248 then Some 4
  else None.

Definition is_continuation (b : nat) : bool := Nat.leb 128 b && Nat.ltb b 192.

(** Whether continuation-checked octets encode a Unicode code point:
    no overlong form, no surrogate, nothing above U+10FFFF. *)
Definition valid_octets (l : list nat) : bool :=
  match l with
  | [b0; _] => Nat.leb 194 b0
  | [b0; b1; _] =>
      if Nat.eqb b0 224 then Nat.leb 160 b1
      else if Nat.eqb b0 237 then Nat.ltb b1 160
      else true
  | [b0; b1; _; _] =>
      if Nat.eqb b0 240 then Nat.leb 144 b1
      else if Nat.eqb b0 244 then Nat.ltb b1 144
      else Nat.ltb b0 244
  | _ => false
  end.

Fixpoint string_of_octets (l : list nat) : string :=
  match l with
  | [] => EmptyString
  | b :: l' => String (ascii_of_nat b) (string_of_octets l')
  end.

(** [decode_go pending need s]: [pending] are the octets of the
    multi-byte sequence being read and [need] the number of [%XX]
    groups still owed to it. *)
Fixpoint decode_go (pending : list nat) (need : nat) (s : string) : result string :=
  match s with
  | EmptyString =>
      match need with
      | O => Ok EmptyString
      | S _ => Throw URIError
      end
  | String c rest0 =>
      if Ascii.eqb c "%" then
        match rest0 with
        | String h1 (String h2 rest) =>
            match hex_val h1, hex_val h2 with
            | Some a, Some b =>
                let B := 16 * a + b in
                match need with
                | O =>
                    if Nat.ltb B 128 then
                      let* r := decode_go [] 0 rest in Ok (String (ascii_of_nat B) r)
                    else
                      match sequence_length B with
                      | Some n => decode_go [B] (n - 1) rest
                      | None => Throw URIError
                      end
                | S k =>
                    if is_continuation B then
                      match k with
                      | O =>
                          let octets := (pending ++ [B])%list in
                          if valid_octets octets then
                            let* r := decode_go [] 0 rest in
                            Ok (string_of_octets octets ++ r)
                          else Throw URIError
                      | S _ => decode_go (pending ++ [B])%list k rest
                      end
                    else Throw URIError
                end
            | _, _ => Throw URIError
            end
        | _ => Throw URIError
        end
      else
        match need with
        | O => let* r := decode_go [] 0 rest0 in Ok (String c r)
        | S _ => Throw URIError
        end
  end.

Definition decodeURIComponent (s : string) : result string :=
  decode_go [] 0 s.

End URI.

(* ================================================================== *)
(** ** JSON values, [JSON.stringify] and [JSON.parse] *)

Module JSON.

(** A JavaScript value built from JSON text.  Objects keep their
    properties in insertion order (JavaScript lists the properties
    named like array indices first; that reordering is not
    represented, and nothing below depends on the order).  Numbers are
    the integers that a double represents exactly, up to 2^53 in
    absolute value; other number literals are [OutsideModel]. *)
Inductive json : Type :=
| JNull
| JBool (b : bool)
| JNum (z : Z)
| JStr (s : string)
| JArr (items : list json)
| JObj (fields : list (string * json)).

(** *** Objects *)

Fixpoint obj_get (k : string) (fs : list (string * json)) : option json :=
  match fs with
  | [] => None
  | (k', v) :: fs' => if String.eqb k k' then Some v else obj_get k fs'
  end.

(** Property definition: an existing property keeps its place and takes
    the new value, a new one goes last. *)
Fixpoint obj_set (k : string) (v : json) (fs : list (string * json))
  : list (string * json) :=
  match fs with
  | [] => [(k, v)]
  | (k', v') :: fs' =>
      if String.eqb k k' then (k', v) :: fs' else (k', v') :: obj_set k v fs'
  end.

Definition obj_of_members (ms : list (string * json)) : list (string * json) :=
  fold_left (fun acc kv => obj_set (fst kv) (snd kv) acc) ms [].

(** *** Numbers *)

Definition digit_char (n : N) : ascii := ascii_of_N (48 + n).

Fixpoint print_digits (fuel : nat) (n : N) (acc : string) : string :=
  match fuel with
  | O => acc
  | S f =>
      let acc' := String (digit_char (n mod 10)) acc in
      if N.ltb n 10 then acc' else print_digits f (n / 10) acc'
  end.

Definition print_N (n : N) : string :=
  print_digits (S (N.to_nat (N.log2 n))) n EmptyString.

Definition print_Z (z : Z) : string :=
  if Z.ltb z 0 then String "-" (print_N (Z.abs_N z)) else print_N (Z.abs_N z).

Definition max_safe : N := 9007199254740992.

(** *** Strings *)

Definition hex_lower (n : nat) : ascii :=
  if Nat.ltb n 10 then ascii_of_nat (48 + n) else ascii_of_nat (87 + n).

Definition escape_char (c : ascii) : string :=
  let n := nat_of_ascii c in
  if Nat.eqb n 34 then String "\" (String Str.dquote EmptyString) else
  if Nat.eqb n 92 then "\\" else
  if Nat.eqb n 8 then "\b" else
  if Nat.eqb n 9 then "\t" else
  if Nat.eqb n 10 then "\n" else
  if Nat.eqb n 12 then "\f" else
  if Nat.eqb n 13 then "\r" else
  if Nat.ltb n 32 then
    String "\" (String "u" (String "0" (String "0"
      (String (hex_lower (n / 16)) (String (hex_lower (n mod 16)) EmptyString)))))
  else String c EmptyString.

Fixpoint escape (s : string) : string :=
  match s with
  | EmptyString => EmptyString
  | String c s' => escape_char c ++ escape s'
  end.

Definition quote (s : string) : string :=
  String Str.dquote (escape s ++ String Str.dquote EmptyString).

(** *** [JSON.stringify] *)

Fixpoint stringify (v : json) : string :=
  match v with
  | JNull => "null"
  | JBool true => "true"
  | JBool false => "false"
  | JNum z => print_Z z
  | JStr s => quote s
  | JArr l => "[" ++ Str.join "," (map stringify l) ++ "]"
  | JObj fs =>
      "{" ++ Str.join ","
               (map (fun kv => let '(k, x) := kv in quote k ++ ":" ++ stringify x) fs)
          ++ "}"
  end.

(** *** [JSON.parse] *)

Definition is_ws (c : ascii) : bool :=
  let n := nat_of_ascii c in
  Nat.eqb n 32 || Nat.eqb n 9 || Nat.eqb n 10 || Nat.eqb n 13.

Fixpoint skip_ws (s : string) : string :=
  match s with
  | String c s' => if is_ws c then skip_ws s' else s
  | EmptyString => EmptyString
  end.

Definition digit_val (c : ascii) : N := N_of_ascii c - 48.

(** Reads the longest run of decimal digits. *)
Fixpoint read_digits (acc : N) (s : string) : N * string :=
  match s with
  | String c s' =>
      if URI.is_digit c then read_digits (10 * acc + digit_val c) s' else (acc, s)
  | EmptyString => (acc, EmptyString)
  end.

Definition starts_fraction (s : string) : bool :=
  match s with
  | String c _ => Ascii.eqb c "." || Ascii.eqb c "e" || Ascii.eqb c "E"
  | EmptyString => false
  end.

(** The integer part of a number, from its first digit [c] on.  A
    leading [0] stands alone.  A fraction or an exponent, or more than
    2^53, is a number this embedding does not represent. *)
Definition parse_int (neg : bool) (c : ascii) (r : string) : result (json * string) :=
  let '(n, rest) :=
    if Ascii.eqb c "0" then (0%N, r) else read_digits (digit_val c) r in
  if starts_fraction rest then Throw OutsideModel
  else if N.ltb max_safe n then Throw OutsideModel
  else Ok (JNum (if neg then Z.opp (Z.of_N n) else Z.of_N n), rest).

Definition simple_escape (e : ascii) : option ascii :=
  if Ascii.eqb e Str.dquote then Some Str.dquote else
  if Ascii.eqb e "\" then Some "\"%char else
  if Ascii.eqb e "/" then Some "/"%char else
  if Ascii.eqb e "b" then Some "008"%char else
  if Ascii.eqb e "f" then Some "012"%char else
  if Ascii.eqb e "n" then Some "010"%char else
  if Ascii.eqb e "r" then Some "013"%char else
  if Ascii.eqb e "t" then Some "009"%char else None.

Definition hex4 (h1 h2 h3 h4 : ascii) : option N :=
  match URI.hex_val h1, URI.hex_val h2, URI.hex_val h3, URI.hex_val h4 with
  | Some a, Some b, Some c, Some d =>
      Some (4096 * N.of_nat a + 256 * N.of_nat b + 16 * N.of_nat c + N.of_nat d)%N
  | _, _, _, _ => None
  end.

(** UTF-8 form of the code unit of a [\uXXXX] escape; a surrogate has
    none on its own. *)
Definition utf8_of_unit (cp : N) : result string :=
  if N.ltb cp 128 then Ok (String (ascii_of_N cp) EmptyString)
  else if N.ltb cp 2048 then
    Ok (String (ascii_of_N (192 + cp / 64))
          (String (ascii_of_N (128 + cp mod 64)) EmptyString))
  else if N.leb 55296 cp && N.ltb cp 57344 then Throw OutsideModel
  else
    Ok (String (ascii_of_N (224 + cp / 4096))
          (String (ascii_of_N (128 + (cp / 64) mod 64))
             (String (ascii_of_N (128 + cp mod 64)) EmptyString))).

(** The characters of a string literal after its opening quote, and the
    text that follows the closing quote. *)
Fixpoint parse_string_body (s : string) : result (string * string) :=
  match s with
  | EmptyString => Throw SyntaxError
  | String c r =>
      if Ascii.eqb c Str.dquote then Ok (EmptyString, r)
      else if Ascii.eqb c "\" then
        match r with
        | EmptyString => Throw SyntaxError
        | String e r1 =>
            if Ascii.eqb e "u" then
              match r1 with
              | String h1 (String h2 (String h3 (String h4 r2))) =>
                  match hex4 h1 h2 h3 h4 with
                  | Some cp =>
                      let* bytes := utf8_of_unit cp in
                      let* (t, rest) := parse_string_body r2 in
                      Ok (bytes ++ t, rest)
                  | None => Throw SyntaxError
                  end
              | _ => Throw SyntaxError
              end
            else
              match simple_escape e with
              | Some ch =>
                  let* (t, rest) := parse_string_body r1 in Ok (String ch t, rest)
              | None => Throw SyntaxError
              end
        end
      else if Nat.ltb (nat_of_ascii c) 32 then Throw SyntaxError
      else let* (t, rest) := parse_string_body r in Ok (String c t, rest)
  end.

Definition parse_literal (word : string) (v : json) (s : string) : result (json * string) :=
  match Str.strip_prefix word s with
  | Some rest => Ok (v, rest)
  | None => Throw SyntaxError
  end.

(** Recursive descent over the JSON grammar.  Each function returns the
    value read and the text left; [fuel] bounds the depth of the calls
    ([2 * length s + 2] is enough for a text [s]). *)
Fixpoint parse_value (fuel : nat) (s : string) {struct fuel} : result (json * string) :=
  match fuel with
  | O => Throw OutsideModel
  | S f =>
      match skip_ws s with
      | EmptyString => Throw SyntaxError
      | String c r =>
          if Ascii.eqb c "{" then
            match skip_ws r with
            | EmptyString => Throw SyntaxError
            | String c2 r2 =>
                if Ascii.eqb c2 "}" then Ok (JObj [], r2)
                else
                  let* (ms, r3) := parse_members f r in
                  Ok (JObj (obj_of_members ms), r3)
            end
          else if Ascii.eqb c "[" then
            match skip_ws r with
            | EmptyString => Throw SyntaxError
            | String c2 r2 =>
                if Ascii.eqb c2 "]" then Ok (JArr [], r2)
                else
                  let* (vs, r3) := parse_elements f r in Ok (JArr vs, r3)
            end
          else if Ascii.eqb c Str.dquote then
            let* (t, r1) := parse_string_body r in Ok (JStr t, r1)
          else if Ascii.eqb c "-" then
            match r with
            | String d r1 =>
                if URI.is_digit d then parse_int true d r1 else Throw SyntaxError
            | EmptyString => Throw SyntaxError
            end
          else if URI.is_digit c then parse_int false c r
          else if Ascii.eqb c "t" then parse_literal "rue" (JBool true) r
          else if Ascii.eqb c "f" then parse_literal "alse" (JBool false) r
          else if Ascii.eqb c "n" then parse_literal "ull" JNull r
          else Throw SyntaxError
      end
  end

with parse_elements (fuel : nat) (s : string) {struct fuel} : result (list json * string) :=
  match fuel with
  | O => Throw OutsideModel
  | S f =>
      let* (v, r) := parse_value f s in
      match skip_ws r with
      | EmptyString => Throw SyntaxError
      | String c r1 =>
          if Ascii.eqb c "," then
            let* (vs, r2) := parse_elements f r1 in Ok (v :: vs, r2)
          else if Ascii.eqb c "]" then Ok ([v], r1)
          else Throw SyntaxError
      end
  end

with parse_members (fuel : nat) (s : string) {struct fuel}
  : result (list (string * json) * string) :=
  match fuel with
  | O => Throw OutsideModel
  | S f =>
      match skip_ws s with
      | EmptyString => Throw SyntaxError
      | String c r =>
          if Ascii.eqb c Str.dquote then
            let* (k, r1) := parse_string_body r in
            match skip_ws r1 with
            | EmptyString => Throw SyntaxError
            | String c1 r2 =>
                if Ascii.eqb c1 ":" then
                  let* (v, r3) := parse_value f r2 in
                  match skip_ws r3 with
                  | EmptyString => Throw SyntaxError
                  | String c3 r4 =>
                      if Ascii.eqb c3 "," then
                        let* (ms, r5) := parse_members f r4 in Ok ((k, v) :: ms, r5)
                      else if Ascii.eqb c3 "}" then Ok ([(k, v)], r4)
                      else Throw SyntaxError
                  end
                else Throw SyntaxError
            end
          else Throw SyntaxError
      end
  end.

Definition parse (s : string) : result json :=
  let* (v, rest) := parse_value (2 * length s + 2) s in
  match skip_ws rest with
  | EmptyString => Ok v
  | String _ _ => Throw SyntaxError
  end.

End JSON.

(* ================================================================== *)
(** ** [document.cookie] *)

Module Cookie.

(** The cookies visible to the page, oldest first.  Every write of the
    component carries the same attributes ([path=/; max-age=31536000]),
    so a cookie is identified by its name and nothing expires within a
    session. *)
Definition jar : Type := list (string * string).

Definition pair_text (c : string * string) : string :=
  let '(n, v) := c in
  if String.eqb n EmptyString then v else n ++ "=" ++ v.

(** The getter: [name=value] pairs joined by ["; "]. *)
Definition document_cookie (j : jar) : string :=
  Str.join "; " (map pair_text j).

(** A cookie that is set again keeps its place in the jar. *)
Fixpoint put (n v : string) (j : jar) : jar :=
  match j with
  | [] => [(n, v)]
  | (n', v') :: j' =>
      if String.eqb n n' then (n', v) :: j' else (n', v') :: put n v j'
  end.

Fixpoint lookup (n : string) (j : jar) : option string :=
  match j with
  | [] => None
  | (n', v) :: j' => if String.eqb n n' then Some v else lookup n j'
  end.

(** Splits [name=value] at the first [=]; without [=] the whole text is
    the value of a nameless cookie. *)
Fixpoint name_value (s : string) : option (string * string) :=
  match s with
  | EmptyString => None
  | String c s' =>
      if Ascii.eqb c "=" then Some (EmptyString, s')
      else
        match name_value s' with
        | Some (n, v) => Some (String c n, v)
        | None => None
        end
  end.

(** The setter, [document.cookie = text]: the text up to the first [;]
    is the name-value pair, whose two sides are trimmed; the attributes
    that follow are the fixed ones. *)
Definition set_document_cookie (text : string) (j : jar) : jar :=
  let pair := hd EmptyString (Str.split text ";") in
  let '(n, v) :=
    match name_value pair with
    | Some (n, v) => (Str.trim n, Str.trim v)
    | None => (EmptyString, Str.trim pair)
    end in
  if String.eqb n EmptyString && String.eqb v EmptyString then j
  else put n v j.

End Cookie.

(* ================================================================== *)
(** ** Data exchanged with the services ([interfaces.ts]) *)

(** A JavaScript value that may be [undefined]. *)
Definition jsval : Type := option JSON.json.

(** A React state cell initialised with [{} as T]: it holds the empty
    object, or whatever a setter stored, which may be [undefined]. *)
Inductive cell (A : Type) : Type :=
| Blank               (* {} : every field reads as undefined *)
| Undef               (* undefined : every field access throws *)
| Val (a : A).

Arguments Blank {A}.
Arguments Undef {A}.
Arguments Val {A} a.

(** [c.field]. *)
Definition field {A B} (f : A -> B) (c : cell A) : result (option B) :=
  match c with
  | Blank => Ok None
  | Undef => Throw TypeError
  | Val a => Ok (Some (f a))
  end.

(** Truthiness of a string that may be undefined: [if (s)] takes the
    branch with the string when it is defined and not empty. *)
Definition if_truthy (s : option string) : option string :=
  match s with
  | Some (String c r) => Some (String c r)
  | _ => None
  end.

Definition truthy (s : option string) : bool :=
  match if_truthy s with
  | Some _ => true
  | None => false
  end.

(** The fields of a notice that the component reads. *)
Record PrivacyNotice : Type := {
  notice_name : string;
  notice_key : option string;
  description : string;
  notice_id : string;
  privacy_notice_history_id : string
}.

Record PrivacyExperience : Type := {
  experience_id : string;
  region : string;
  privacy_notices : option (list PrivacyNotice)
}.

Record NoticesServedResponse : Type := {
  served_id : string;
  updated_at : string;
  served_notice_history_id : string
}.

Record FormData : Type := {
  name : string;
  email : string;
  consent : bool
}.

(** Body of the location service's answer; [None] is a missing field. *)
Record LocationData : Type := {
  location : option string;
  country : option string
}.

(** A page of the experience catalogue. *)
Record Page : Type := {
  items : option (list PrivacyExperience)
}.

(** Body of [PATCH /api/v1/notices-served]. *)
Record NoticesServedBody : Type := {
  acknowledge_mode : bool;
  served_device_id : jsval;
  served_experience_id : string;
  privacy_notice_history_ids : list string;
  serving_component : string;
  served_geography : option string
}.

(** Body of [PATCH /api/v1/privacy-preferences]; [None] is a property
    whose value is [undefined], which [JSON.stringify] leaves out. *)
Record PreferencesBody : Type := {
  pref_device_id : jsval;
  pref_notice_history_id : option string;
  preference : string;
  pref_served_notice_history_id : option string;
  pref_experience_id : option string;
  pref_geography : option string;
  method : string
}.

Inductive request : Type :=
| GetLocation
| GetExperience (region_param : string)
| PatchNoticesServed (b : NoticesServedBody)
| PatchPreferences (b : PreferencesBody).

(** The remote services.  A call either rejects ([Throw]) or resolves to
    the decoded body; the preference write resolves to the HTTP status,
    which is all the response the component could look at. *)
Record server : Type := {
  location_service : result (option LocationData);
  experience_service : string -> result (option Page);
  served_service : NoticesServedBody -> result (list NoticesServedResponse);
  preference_service : PreferencesBody -> result nat
}.

(** What [uuidv4()] and the two [new Date().toISOString()] return when a
    record is created. *)
Record clock : Type := {
  fresh_uuid : string;
  created_now : string;
  updated_now : string
}.

(** The state cells of the component. *)
Record state : Type := {
  formData : FormData;
  deviceId : jsval;
  userGeo : option string;
  privacyNotice : cell PrivacyNotice;
  noticeServed : cell NoticesServedResponse;
  privacyExperience : cell PrivacyExperience
}.

Definition initial_state : state := {|
  formData := {| name := ""; email := ""; consent := false |};
  deviceId := Some (JSON.JStr "");
  userGeo := Some "";
  privacyNotice := Blank;
  noticeServed := Blank;
  privacyExperience := Blank
|}.

(** The page: cookies, component state, the requests issued so far and
    the promise rejections nobody handled. *)
Record world : Type := {
  cookies : Cookie.jar;
  st : state;
  sent : list request;
  unhandled : list error
}.

Definition fresh_world (j : Cookie.jar) : world :=
  {| cookies := j; st := initial_state; sent := []; unhandled := [] |}.

(* ================================================================== *)
(** ** Code shared by the two shapes of the component *)

Import JSON.

Definition cookieName : string := "fides_consent".
Definition cookie_attributes : string := "; path=/; max-age=31536000".

(** [v.k] for the property names the component uses (none of them is
    an index, [length] or inherited from a prototype). *)
Definition get_prop (v : jsval) (k : string) : result jsval :=
  match v with
  | None => Throw TypeError
  | Some JNull => Throw TypeError
  | Some (JObj fs) => Ok (obj_get k fs)
  | Some _ => Ok None
  end.

(** [parsedData.consent.advertising_and_email_signup = value], in strict
    mode.  A property set on an array is not part of its JSON form. *)
Definition assign_consent (value : bool) (parsedData : json) : result json :=
  match parsedData with
  | JNull => Throw TypeError
  | JObj fs =>
      match obj_get "consent" fs with
      | Some (JObj cs) =>
          Ok (JObj (obj_set "consent"
                      (JObj (obj_set "advertising_and_email_signup" (JBool value) cs)) fs))
      | Some (JArr _) => Ok parsedData
      | _ => Throw TypeError
      end
  | _ => Throw TypeError
  end.

(** The object literal [consentObject]. *)
Definition consentObject (c : clock) : json :=
  JObj [ ("consent", JObj [("advertising_and_email_signup", JBool false)]);
         ("identity", JObj [("fides_user_device_id", JStr (fresh_uuid c))]);
         ("fides_meta", JObj [ ("version", JStr "0.9.0");
                               ("createdAt", JStr (created_now c));
                               ("updatedAt", JStr (updated_now c)) ]) ].

(** [consentData.identity.fides_user_device_id]. *)
Definition device_id_of (consentData : json) : result jsval :=
  let* i := get_prop (Some consentData) "identity" in
  get_prop i "fides_user_device_id".

(** [notice.notice_key?.endsWith("signup")]. *)
Definition is_signup (n : PrivacyNotice) : bool :=
  match notice_key n with
  | Some k => Str.endsWith k "signup"
  | None => false
  end.

(** [locationData?.location.toLowerCase().replace("-", "_")]. *)
Definition geography (locationData : option LocationData) : result (option string) :=
  match locationData with
  | None => Ok None
  | Some d =>
      match location d with
      | None => Throw TypeError
      | Some l => Ok (Some (Str.replace "-" "_" (Str.toLowerCase l)))
      end
  end.

(** [locationData?.country]. *)
Definition region_of (locationData : option LocationData) : option string :=
  match locationData with
  | None => None
  | Some d => country d
  end.

(** [bodyData] of the preference request, its properties evaluated in
    the order of the object literal. *)
Definition preferences_body (s : state) : result PreferencesBody :=
  let* nh := field privacy_notice_history_id (privacyNotice s) in
  let p := if consent (formData s) then "opt_in" else "opt_out" in
  let* sh := field served_notice_history_id (noticeServed s) in
  let* xi := field experience_id (privacyExperience s) in
  Ok {| pref_device_id := deviceId s;
        pref_notice_history_id := nh;
        preference := p;
        pref_served_notice_history_id := sh;
        pref_experience_id := xi;
        pref_geography := userGeo s;
        method := "button" |}.

(** [noticesServedBody], for a defined experience and notice. *)
Definition notices_served_body (noticeData : PrivacyExperience)
    (signUpNotice : PrivacyNotice) (fidesDeviceId : jsval)
    (geo : option string) : NoticesServedBody :=
  {| acknowledge_mode := false;
     served_device_id := fidesDeviceId;
     served_experience_id := experience_id noticeData;
     privacy_notice_history_ids := [privacy_notice_history_id signUpNotice];
     serving_component := "overlay";
     served_geography := geo |}.

(** *** Updates of the page *)

Definition set_cookies (j : Cookie.jar) (w : world) : world :=
  {| cookies := j; st := st w; sent := sent w; unhandled := unhandled w |}.

Definition set_state (s : state) (w : world) : world :=
  {| cookies := cookies w; st := s; sent := sent w; unhandled := unhandled w |}.

Definition send (r : request) (w : world) : world :=
  {| cookies := cookies w; st := st w; sent := (sent w ++ [r])%list;
     unhandled := unhandled w |}.

(** A promise that nobody awaits: its rejection is only reported. *)
Definition detach (r : result unit) (w : world) : world :=
  match r with
  | Ok _ => w
  | Throw e =>
      {| cookies := cookies w; st := st w; sent := sent w;
         unhandled := (unhandled w ++ [e])%list |}
  end.

(** [handleCheckboxChange]. *)
Definition handleCheckboxChange (checked : bool) (s : state) : state :=
  {| formData := {| name := name (formData s); email := email (formData s);
                    consent := checked |};
     deviceId := deviceId s; userGeo := userGeo s;
     privacyNotice := privacyNotice s; noticeServed := noticeServed s;
     privacyExperience := privacyExperience s |}.

Inductive input_field : Type := NameField | EmailField.

(** [handleInputChange], for the two text fields of the form. *)
Definition handleInputChange (f : input_field) (value : string) (s : state) : state :=
  {| formData :=
       match f with
       | NameField => {| name := value; email := email (formData s);
                         consent := consent (formData s) |}
       | EmailField => {| name := name (formData s); email := value;
                          consent := consent (formData s) |}
       end;
     deviceId := deviceId s; userGeo := userGeo s;
     privacyNotice := privacyNotice s; noticeServed := noticeServed s;
     privacyExperience := privacyExperience s |}.

(** Both text fields are [required]: the browser does not submit the
    form while one of them is empty. *)
Definition fields_filled (s : state) : bool :=
  negb (String.eqb (name (formData s)) "") && negb (String.eqb (email (formData s)) "").

(** What the user can do with the form. *)
Inductive action : Type :=
| Input (f : input_field) (value : string)
| Toggle (checked : bool)      (* tick or untick the consent checkbox *)
| Submit (srv : server).       (* press the button; [srv] answers the request *)

(** The five setters called at the end of the start-up chain. *)
Definition store_notice (signUpNotice : PrivacyNotice) (fidesDeviceId : jsval)
    (first_served : option NoticesServedResponse) (geo : option string)
    (noticeData : PrivacyExperience) (s : state) : state :=
  {| formData := formData s;
     deviceId := fidesDeviceId;
     userGeo := geo;
     privacyNotice := Val signUpNotice;
     noticeServed := match first_served with Some r => Val r | None => Undef end;
     privacyExperience := Val noticeData |}.

(** [privacyNotice?.description], the condition under which the consent
    checkbox is rendered. *)
Definition notice_description (s : state) : option string :=
  match privacyNotice s with
  | Val n => Some (description n)
  | _ => None
  end.

(* ================================================================== *)
(** ** The component with cookie encoding and the gated button *)

Module Inline.

Definition encodeCookie (value : string) : string := URI.encodeURIComponent value.

Definition decodeCookie (value : string) : result string := URI.decodeURIComponent value.

(** [getCookie]: [None] is [undefined]. *)
Definition getCookie (name : string) (j : Cookie.jar) : result (option string) :=
  let value := "; " ++ Cookie.document_cookie j in
  let parts := Str.split value ("; " ++ name ++ "=") in
  if Nat.eqb (List.length parts) 2 then
    let* d := decodeCookie (hd EmptyString (Str.split (last parts EmptyString) ";")) in
    Ok (Some d)
  else Ok None.

Definition updateConsentCookie (consent_flag : bool) (j : Cookie.jar) : result Cookie.jar :=
  let* consentCookieData := getCookie "fides_consent" j in
  match if_truthy consentCookieData with
  | Some text =>
      let* parsedData := JSON.parse text in
      let* parsedData' := assign_consent consent_flag parsedData in
      Ok (Cookie.set_document_cookie
            ("fides_consent=" ++ encodeCookie (JSON.stringify parsedData') ++ cookie_attributes) j)
  | None => Ok j
  end.

(** [recordConsentOnServer]: the outcome of its promise and the page
    after it. *)
Definition recordConsentOnServer (srv : server) (w : world) : result unit * world :=
  match preferences_body (st w) with
  | Throw e => (Throw e, w)
  | Ok bodyData =>
      let w' := send (PatchPreferences bodyData) w in
      match preference_service srv bodyData with
      | Throw e => (Throw e, w')
      | Ok _ => (Ok tt, w')
      end
  end.

(** [handleSubmit]: the cookie is updated, then the request is started
    and not awaited. *)
Definition handleSubmit (srv : server) (w : world) : result unit * world :=
  match updateConsentCookie (consent (formData (st w))) (cookies w) with
  | Throw e => (Throw e, w)
  | Ok j =>
      let '(r, w') := recordConsentOnServer srv (set_cookies j w) in
      (Ok tt, detach r w')
  end.

Definition setOrCheckFidesConsentCookie (c : clock) (j : Cookie.jar)
  : result json * Cookie.jar :=
  match getCookie cookieName j with
  | Throw e => (Throw e, j)
  | Ok existingCookieValue =>
      match if_truthy existingCookieValue with
      | Some text => (JSON.parse text, j)
      | None =>
          let obj := consentObject c in
          (Ok obj,
           Cookie.set_document_cookie
             (cookieName ++ "=" ++ JSON.stringify obj ++ cookie_attributes) j)
      end
  end.

(** [noticeData?.privacy_notices?.find(...)]. *)
Definition signUpNotice (noticeData : option PrivacyExperience) : option PrivacyNotice :=
  match noticeData with
  | None => None
  | Some nd =>
      match privacy_notices nd with
      | None => None
      | Some ns => find is_signup ns
      end
  end.

Definition processNotices (srv : server) (noticesData : Page) (fidesDeviceId : jsval)
    (geo : option string) (w : world) : result unit * world :=
  match items noticesData with
  | None => (Throw TypeError, w)
  | Some its =>
      let noticeData := nth_error its 0 in
      match noticeData, signUpNotice noticeData with
      | Some nd, Some notice =>
          let noticesServedBody := notices_served_body nd notice fidesDeviceId geo in
          let w' := send (PatchNoticesServed noticesServedBody) w in
          match served_service srv noticesServedBody with
          | Throw e => (Throw e, w')
          | Ok noticesServedResponse =>
              (Ok tt,
               set_state (store_notice notice fidesDeviceId
                            (nth_error noticesServedResponse 0) geo nd (st w')) w')
          end
      | _, _ => (Throw TypeError, w)     (* noticeData.id, signUpNotice[...] *)
      end
  end.

(** [fetchPrivacyExperiences]: the decoded body of the catalogue's
    answer for the region. *)
Definition fetchPrivacyExperiences (srv : server) (region : string) : result (option Page) :=
  experience_service srv region.

(** [fetchRegionAndNotices] from the moment the location service has
    answered; [w1] is the page at that moment.  Whatever is thrown
    inside is caught and logged to the console; [processNotices] is
    started, not awaited. *)
Definition after_location (srv : server) (fidesDeviceId : jsval) (w1 : world) : world :=
  match location_service srv with
  | Throw _ => w1
  | Ok locationData =>
      match geography locationData with
      | Throw _ => w1
      | Ok geo =>
          match if_truthy (region_of locationData) with
          | Some region =>
              let r := Str.toLowerCase region in
              let w2 := send (GetExperience r) w1 in
              match fetchPrivacyExperiences srv r with
              | Throw _ => w2
              | Ok None => w2
              | Ok (Some noticesData) =>
                  let '(p, w3) := processNotices srv noticesData fidesDeviceId geo w2 in
                  detach p w3
              end
          | None => w1
          end
      end
  end.

(** [fetchRegionAndNotices], run without anything happening in between:
    the location request is issued by the call itself, the rest
    follows its answer. *)
Definition fetchRegionAndNotices (srv : server) (fidesDeviceId : jsval) (w : world) : world :=
  after_location srv fidesDeviceId (send GetLocation w).

(** The synchronous part of the effect run when the component mounts:
    the cookie is read or created and the device id taken from it. *)
Definition useEffect_begin (c : clock) (w : world) : result jsval * world :=
  let '(r, j) := setOrCheckFidesConsentCookie c (cookies w) in
  let w0 := set_cookies j w in
  match r with
  | Throw e => (Throw e, w0)
  | Ok consentData => (device_id_of consentData, w0)
  end.

(** [disabled={!privacyNotice?.description}]. *)
Definition submit_disabled (s : state) : bool := negb (truthy (notice_description s)).

(** The checkbox exists only when the notice has a description; a
    disabled button does not submit the form.  Nobody handles the
    promise [handleSubmit] returns: its rejection is only reported. *)
Definition act (a : action) (w : world) : world :=
  match a with
  | Input f v => set_state (handleInputChange f v (st w)) w
  | Toggle b =>
      if truthy (notice_description (st w))
      then set_state (handleCheckboxChange b (st w)) w else w
  | Submit srv =>
      if submit_disabled (st w) || negb (fields_filled (st w)) then w
      else let p := handleSubmit srv w in detach (fst p) (snd p)
  end.

Definition acts (l : list action) (w : world) : world := fold_left (fun w a => act a w) l w.

(** A page view.  The effect runs when the component mounts; an
    exception there takes the form down.  Otherwise the effect calls
    [fetchRegionAndNotices], which issues the location request at once;
    the user may act while the start-up chain is waiting for the
    services ([early]) and after its setters have run ([late]). *)
Definition session (c : clock) (srv : server) (early late : list action) (j : Cookie.jar) : world :=
  match useEffect_begin c (fresh_world j) with
  | (Throw _, w) => w
  | (Ok fidesDeviceId, w) =>
      acts late (after_location srv fidesDeviceId (acts early (send GetLocation w)))
  end.

End Inline.

(* ================================================================== *)
(** ** The component of [src/App.tsx] *)

Module Basic.

(** [getCookie]: the cookie text is returned as stored. *)
Definition getCookie (name : string) (j : Cookie.jar) : option string :=
  let value := "; " ++ Cookie.document_cookie j in
  let parts := Str.split value ("; " ++ name ++ "=") in
  if Nat.eqb (List.length parts) 2 then
    match if_truthy (Some (last parts EmptyString)) with
    | Some cookieValue => Some (hd EmptyString (Str.split cookieValue ";"))
    | None => None
    end
  else None.

Definition setOrCheckFidesConsentCookie (c : clock) (j : Cookie.jar)
  : result json * Cookie.jar :=
  match if_truthy (getCookie cookieName j) with
  | Some text => (JSON.parse text, j)
  | None =>
      let obj := consentObject c in
      (Ok obj,
       Cookie.set_document_cookie
         (cookieName ++ "=" ++ JSON.stringify obj ++ cookie_attributes) j)
  end.

(** The cookie update inside [handleSubmit], reached with the consent
    flag set. *)
Definition update_cookie (j : Cookie.jar) : result Cookie.jar :=
  match if_truthy (getCookie "fides_consent" j) with
  | Some text =>
      let* parsedData := JSON.parse text in
      let* parsedData' := assign_consent true parsedData in
      Ok (Cookie.set_document_cookie
            ("fides_consent=" ++ JSON.stringify parsedData' ++ cookie_attributes) j)
  | None => Ok j
  end.

(** [handleSubmit]: everything happens under [if (formData.consent)],
    and the request is awaited. *)
Definition handleSubmit (srv : server) (w : world) : result unit * world :=
  if consent (formData (st w)) then
    match update_cookie (cookies w) with
    | Throw e => (Throw e, w)
    | Ok j =>
        let w1 := set_cookies j w in
        match preferences_body (st w1) with
        | Throw e => (Throw e, w1)
        | Ok bodyData =>
            let w2 := send (PatchPreferences bodyData) w1 in
            match preference_service srv bodyData with
            | Throw e => (Throw e, w2)
            | Ok _ => (Ok tt, w2)
            end
        end
    end
  else (Ok tt, w).

(** [(noticeData?.privacy_notices?.filter(...))[0]]: indexing throws
    when the optional chain gave [undefined]. *)
Definition signUpNotice (noticeData : option PrivacyExperience)
  : result (option PrivacyNotice) :=
  match noticeData with
  | None => Throw TypeError
  | Some nd =>
      match privacy_notices nd with
      | None => Throw TypeError
      | Some ns => Ok (nth_error (filter is_signup ns) 0)
      end
  end.

(** The body of [try] in [fetchRegionAndNotices] from the moment the
    location service has answered; [w1] is the page at that moment.
    Every step is awaited. *)
Definition chain_after_location (srv : server) (fidesDeviceId : jsval) (w1 : world)
  : result unit * world :=
  match location_service srv with
  | Throw e => (Throw e, w1)
  | Ok locationData =>
      match geography locationData with
      | Throw e => (Throw e, w1)
      | Ok geo =>
          match locationData with
          | None => (Throw TypeError, w1)              (* locationData.country *)
          | Some _ =>
              match if_truthy (region_of locationData) with
              | None => (Ok tt, w1)
              | Some region =>
                  let regionLowercase := Str.toLowerCase region in
                  let w2 := send (GetExperience regionLowercase) w1 in
                  match experience_service srv regionLowercase with
                  | Throw e => (Throw e, w2)
                  | Ok None => (Ok tt, w2)
                  | Ok (Some noticesData) =>
                      match items noticesData with
                      | None => (Throw TypeError, w2)
                      | Some its =>
                          let noticeData := nth_error its 0 in
                          match signUpNotice noticeData, noticeData with
                          | Ok (Some notice), Some nd =>
                              let body := notices_served_body nd notice fidesDeviceId geo in
                              let w3 := send (PatchNoticesServed body) w2 in
                              match served_service srv body with
                              | Throw e => (Throw e, w3)
                              | Ok noticesServedResponse =>
                                  (Ok tt,
                                   set_state
                                     (store_notice notice fidesDeviceId
                                        (nth_error noticesServedResponse 0) geo nd (st w3))
                                     w3)
                              end
                          | Throw e, _ => (Throw e, w2)
                          | _, _ => (Throw TypeError, w2)
                          end
                      end
                  end
              end
          end
      end
  end.

(** The body of [try], run without anything happening in between: the
    location request is issued first. *)
Definition fetch_chain (srv : server) (fidesDeviceId : jsval) (w : world)
  : result unit * world :=
  chain_after_location srv fidesDeviceId (send GetLocation w).

(** [fetchRegionAndNotices]: the [catch] logs the error and goes on. *)
Definition fetchRegionAndNotices (srv : server) (fidesDeviceId : jsval) (w : world) : world :=
  snd (fetch_chain srv fidesDeviceId w).

Definition useEffect_begin (c : clock) (w : world) : result jsval * world :=
  let '(r, j) := setOrCheckFidesConsentCookie c (cookies w) in
  let w0 := set_cookies j w in
  match r with
  | Throw e => (Throw e, w0)
  | Ok consentData => (device_id_of consentData, w0)
  end.

(** The button is always enabled here; the promise of [handleSubmit]
    is handled by nobody. *)
Definition act (a : action) (w : world) : world :=
  match a with
  | Input f v => set_state (handleInputChange f v (st w)) w
  | Toggle b =>
      if truthy (notice_description (st w))
      then set_state (handleCheckboxChange b (st w)) w else w
  | Submit srv =>
      if fields_filled (st w)
      then let p := handleSubmit srv w in detach (fst p) (snd p) else w
  end.

Definition acts (l : list action) (w : world) : world := fold_left (fun w a => act a w) l w.

(** A page view: as in the other shape, the location request is issued
    when the component mounts. *)
Definition session (c : clock) (srv : server) (early late : list action) (j : Cookie.jar) : world :=
  match useEffect_begin c (fresh_world j) with
  | (Throw _, w) => w
  | (Ok fidesDeviceId, w) =>
      acts late
        (snd (chain_after_location srv fidesDeviceId (acts early (send GetLocation w))))
  end.

End Basic.

(* ================================================================== *)
(** ** Vocabulary of the statements *)

(** The key of the notice ends with the suffix reserved for this flow. *)
Definition key_ends_with_signup (n : PrivacyNotice) : Prop :=
  exists p, notice_key n = Some (p ++ "signup").

(** The region code with every separator normalised. *)
Definition separator_normalized (l : string) : string :=
  Str.replace_all_char "-" "_" (Str.toLowerCase l).

Definition is_notices_served (r : request) : bool :=
  match r with
  | PatchNoticesServed _ => true
  | _ => false
  end.

Definition is_preferences (r : request) : bool :=
  match r with
  | PatchPreferences _ => true
  | _ => false
  end.

(** *** Sample data *)

Definition sample_clock : clock :=
  {| fresh_uuid := "3f2b8c1e-9d4a-4f6b-8a57-0c1d2e3f4a5b";
     created_now := "2023-09-01T10:00:00.000Z";
     updated_now := "2023-09-01T10:00:00.001Z" |}.

Definition later_clock : clock :=
  {| fresh_uuid := "7a1c0e55-2b3d-4c8e-9f10-aabbccddeeff";
     created_now := "2023-09-02T08:30:00.000Z";
     updated_now := "2023-09-02T08:30:00.000Z" |}.

Definition marketing_notice : PrivacyNotice :=
  {| notice_name := "Marketing"; notice_key := Some "marketing";
     description := "Receive offers"; notice_id := "pri_1";
     privacy_notice_history_id := "pri_hist_1" |}.

Definition email_signup_notice : PrivacyNotice :=
  {| notice_name := "Email signup"; notice_key := Some "email_signup";
     description := "Send me the newsletter; I agree = yes"; notice_id := "pri_2";
     privacy_notice_history_id := "pri_hist_2" |}.

Definition other_signup_notice : PrivacyNotice :=
  {| notice_name := "Other signup"; notice_key := Some "other_signup";
     description := "Other"; notice_id := "pri_3";
     privacy_notice_history_id := "pri_hist_3" |}.

Definition sample_experience : PrivacyExperience :=
  {| experience_id := "pri_exp_1"; region := "us";
     privacy_notices := Some [marketing_notice; email_signup_notice; other_signup_notice] |}.

Definition sample_served : NoticesServedResponse :=
  {| served_id := "ser_1"; updated_at := "2023-09-01T10:00:01Z";
     served_notice_history_id := "ser_hist_1" |}.

Definition sample_location : LocationData :=
  {| location := Some "en-US"; country := Some "US" |}.

(** Every service answers; the preference write is accepted. *)
Definition sample_server : server :=
  {| location_service := Ok (Some sample_location);
     experience_service := fun _ => Ok (Some {| items := Some [sample_experience] |});
     served_service := fun _ => Ok [sample_served];
     preference_service := fun _ => Ok 200 |}.

(** The same services with a preference write that does not complete. *)
Definition offline_server : server :=
  {| location_service := location_service sample_server;
     experience_service := experience_service sample_server;
     served_service := served_service sample_server;
     preference_service := fun _ => Throw FetchFailed |}.

(** The same services with a preference write refused by the server. *)
Definition refusing_server : server :=
  {| location_service := location_service sample_server;
     experience_service := experience_service sample_server;
     served_service := served_service sample_server;
     preference_service := fun _ => Ok 500 |}.


Definition other_cookies : Cookie.jar := [("theme", "dark")].

Definition fill_form : list action :=
  [Input NameField "Ada"; Input EmailField "ada@example.org"].

(** A jar whose consent cookie does not hold JSON text. *)
Definition malformed_cookies : Cookie.jar := [("theme", "dark"); ("fides_consent", "{oops")].

(** A cookie as a browser stores it: a name without [;] and [=], a
    value without [;]. *)
Definition cookie_ok (c : string * string) : Prop :=
  fst c <> "" /\ Str.contains_char ";" (fst c) = false
  /\ Str.contains_char "=" (fst c) = false
  /\ Str.contains_char ";" (snd c) = false.

(** A jar holds one cookie per name. *)
Definition jar_ok (j : Cookie.jar) : Prop :=
  Forall cookie_ok j /\ NoDup (map fst j).

(** Text that the cookie setter stores as it is: no [;], which would
    end the value, and no blank, which could be trimmed. *)
Definition cookie_safe_char (c : ascii) : bool :=
  negb (Ascii.eqb c ";") && negb (Str.is_blank c).

Definition cookie_safe (s : string) : bool := Str.forallb_char cookie_safe_char s.

(** Whether the bytes are the UTF-8 form of a JavaScript string (one
    without lone surrogates). *)
Fixpoint valid_utf8 (s : string) : bool :=
  match s with
  | EmptyString => true
  | String c0 r0 =>
      let b0 := nat_of_ascii c0 in
      if Nat.ltb b0 128 then valid_utf8 r0
      else
        match URI.sequence_length b0, r0 with
        | Some 2, String c1 r1 =>
            URI.is_continuation (nat_of_ascii c1)
            && URI.valid_octets [b0; nat_of_ascii c1]
            && valid_utf8 r1
        | Some 3, String c1 (String c2 r2) =>
            URI.is_continuation (nat_of_ascii c1)
            && URI.is_continuation (nat_of_ascii c2)
            && URI.valid_octets [b0; nat_of_ascii c1; nat_of_ascii c2]
            && valid_utf8 r2
        | Some 4, String c1 (String c2 (String c3 r3)) =>
            URI.is_continuation (nat_of_ascii c1)
            && URI.is_continuation (nat_of_ascii c2)
            && URI.is_continuation (nat_of_ascii c3)
            && URI.valid_octets [b0; nat_of_ascii c1; nat_of_ascii c2; nat_of_ascii c3]
            && valid_utf8 r3
        | _, _ => false
        end
  end.

Fixpoint distinct (l : list string) : bool :=
  match l with
  | [] => true
  | x :: l' => negb (existsb (String.eqb x) l') && distinct l'
  end.

(** The values [JSON.parse] can return: numbers within the exactly
    represented integers, objects with one property per name. *)
Fixpoint json_wf (v : json) : bool :=
  match v with
  | JNum z => N.leb (Z.abs_N z) max_safe
  | JArr l => forallb json_wf l
  | JObj fs =>
      distinct (map fst fs) && forallb (fun kv => let '(_, x) := kv in json_wf x) fs
  | _ => true
  end.

(** Every string of the value, property names included, is well-formed
    text. *)
Fixpoint json_text (v : json) : bool :=
  match v with
  | JStr s => valid_utf8 s
  | JArr l => forallb json_text l
  | JObj fs => forallb (fun kv => let '(k, x) := kv in valid_utf8 k && json_text x) fs
  | _ => true
  end.

(** Depth of the calls [parse_value] needs for the text of a value. *)
Fixpoint cost (v : json) : nat :=
  match v with
  | JArr l => S (list_sum (map (fun x => S (cost x)) l))
  | JObj fs => S (list_sum (map (fun kv => let '(_, x) := kv in S (cost x)) fs))
  | _ => 1
  end.

(** What may follow a value inside JSON text. *)
Definition stops (rest : string) : bool :=
  match rest with
  | EmptyString => true
  | String c _ => Ascii.eqb c "," || Ascii.eqb c "]" || Ascii.eqb c "}"
  end.

(** The consent record as [setOrCheckFidesConsentCookie] loads it. *)
Definition load (j : Cookie.jar) : result (option json) :=
  let* text := Inline.getCookie cookieName j in
  match if_truthy text with
  | Some t => let* v := JSON.parse t in Ok (Some v)
  | None => Ok None
  end.

(** Characters of the identifiers and time stamps that go into a new
    record: letters, digits, [-], [:] and [.]. *)
Definition token_char (c : ascii) : bool :=
  URI.is_alpha c || URI.is_digit c
  || Ascii.eqb c "-" || Ascii.eqb c ":" || Ascii.eqb c ".".

Definition clock_ok (c : clock) : Prop :=
  Str.forallb_char token_char (fresh_uuid c) = true
  /\ Str.forallb_char token_char (created_now c) = true
  /\ Str.forallb_char token_char (updated_now c) = true.

Definition is_ascii (c : ascii) : bool := Nat.ltb (nat_of_ascii c) 128.

Definition ascii_text (s : string) : bool := Str.forallb_char is_ascii s.

(** Successive loads of the page: each one calls
    [setOrCheckFidesConsentCookie] on the jar the previous one left. *)
Fixpoint ensure_calls (cs : list clock) (j : Cookie.jar) : list (result json) * Cookie.jar :=
  match cs with
  | [] => ([], j)
  | c :: cs' =>
      let '(r, j1) := Inline.setOrCheckFidesConsentCookie c j in
      let '(rs, j2) := ensure_calls cs' j1 in
      (r :: rs, j2)
  end.

(** Text that is stored in a cookie and read back through
    [decodeURIComponent] as it is. *)
Definition plain_char (c : ascii) : bool :=
  cookie_safe_char c && negb (Ascii.eqb c "%") && negb (Ascii.eqb c "=").

Definition plain (s : string) : bool := Str.forallb_char plain_char s.

(** A jar that holds a record created by [sample_clock]. *)
Definition visited_cookies : Cookie.jar :=
  snd (Inline.setOrCheckFidesConsentCookie sample_clock other_cookies).

(** Characters that are plain and that [JSON.stringify] writes as they
    are. *)
Definition word_char (c : ascii) : bool :=
  plain_char c && String.eqb (escape_char c) (String c EmptyString).

Definition word (s : string) : bool := Str.forallb_char word_char s.

(** Values whose strings, property names included, are words. *)
Fixpoint json_plain (v : json) : bool :=
  match v with
  | JStr s => word s
  | JArr l => forallb json_plain l
  | JObj fs => forallb (fun kv => let '(k, x) := kv in word k && json_plain x) fs
  | _ => true
  end.

(** [prepend t l] puts [t] in front of the first piece. *)
Definition prepend (t : string) (l : list string) : list string :=
  match l with
  | [] => [t]
  | h :: tl => (t ++ h) :: tl
  end.

(** The text of the jar with ["; "] in front of every cookie. *)
Fixpoint segs (j : Cookie.jar) : string :=
  match j with
  | [] => ""
  | c :: j' => "; " ++ Cookie.pair_text c ++ segs j'
  end.

(** Induction over values, through the lists of an array or object. *)

Unset Implicit Arguments.

Section JsonInd.

Variable P : json -> Prop.
Hypothesis HNull : P JNull.
Hypothesis HBool : forall b, P (JBool b).
Hypothesis HNum : forall z, P (JNum z).
Hypothesis HStr : forall s, P (JStr s).
Hypothesis HArr : forall l, Forall P l -> P (JArr l).
Hypothesis HObj : forall fs, Forall (fun kv => P (snd kv)) fs -> P (JObj fs).

Fixpoint json_induction (v : json) : P v :=
  match v with
  | JNull => HNull
  | JBool b => HBool b
  | JNum z => HNum z
  | JStr s => HStr s
  | JArr l =>
      HArr l ((fix go (l : list json) : Forall P l :=
               match l with
               | [] => Forall_nil P
               | x :: l' => Forall_cons x (json_induction x) (go l')
               end) l)
  | JObj fs =>
      HObj fs ((fix go (fs : list (string * json)) : Forall (fun kv => P (snd kv)) fs :=
               match fs with
               | [] => Forall_nil _
               | (k, x) :: fs' =>
                   Forall_cons (k, x) (json_induction x : P (snd (k, x))) (go fs')
               end) fs)
  end.

End JsonInd.

Set Implicit Arguments.

(** The text of the value, followed by a delimiter, is parsed back to the
    value. *)
Definition reads_back (v : json) : Prop :=
  json_wf v = true ->
  forall f rest, cost v <= f -> stops rest = true ->
                 parse_value f (stringify v ++ rest) = Ok (v, rest).

(** The text of one property of an object. *)
Definition member_text (kv : string * json) : string :=
  let '(k, x) := kv in quote k ++ ":" ++ stringify x.

(* ================================================================== *)
(** ** The component without cookie encoding and without the gate

    A third shape of the component: [recordConsentOnServer],
    [processNotices] and [fetchRegionAndNotices] have the text they
    have in [Module Inline] (the catalogue is fetched by
    [fetchNotices], which is [fetchPrivacyExperiences] under another
    name), the cookie text is written and read as it is, and the
    submit button is never disabled. *)

Module Plain.

(** [getCookie]: [parts.pop()?.split(";")[0]], without decoding. *)
Definition getCookie (name : string) (j : Cookie.jar) : option string :=
  let value := "; " ++ Cookie.document_cookie j in
  let parts := Str.split value ("; " ++ name ++ "=") in
  if Nat.eqb (List.length parts) 2 then
    Some (hd EmptyString (Str.split (last parts EmptyString) ";"))
  else None.

Definition updateConsentCookie (consent_flag : bool) (j : Cookie.jar) : result Cookie.jar :=
  match if_truthy (getCookie "fides_consent" j) with
  | Some text =>
      let* parsedData := JSON.parse text in
      let* parsedData' := assign_consent consent_flag parsedData in
      Ok (Cookie.set_document_cookie
            ("fides_consent=" ++ JSON.stringify parsedData' ++ cookie_attributes) j)
  | None => Ok j
  end.

(** [handleSubmit]: the cookie is updated, then the request is started
    and not awaited. *)
Definition handleSubmit (srv : server) (w : world) : result unit * world :=
  match updateConsentCookie (consent (formData (st w))) (cookies w) with
  | Throw e => (Throw e, w)
  | Ok j =>
      let '(r, w') := Inline.recordConsentOnServer srv (set_cookies j w) in
      (Ok tt, detach r w')
  end.

Definition setOrCheckFidesConsentCookie (c : clock) (j : Cookie.jar)
  : result json * Cookie.jar :=
  match if_truthy (getCookie cookieName j) with
  | Some text => (JSON.parse text, j)
  | None =>
      let obj := consentObject c in
      (Ok obj,
       Cookie.set_document_cookie
         (cookieName ++ "=" ++ JSON.stringify obj ++ cookie_attributes) j)
  end.

Definition useEffect_begin (c : clock) (w : world) : result jsval * world :=
  let '(r, j) := setOrCheckFidesConsentCookie c (cookies w) in
  let w0 := set_cookies j w in
  match r with
  | Throw e => (Throw e, w0)
  | Ok consentData => (device_id_of consentData, w0)
  end.

(** The checkbox exists only when the notice has a description; the
    button is always enabled. *)
Definition act (a : action) (w : world) : world :=
  match a with
  | Input f v => set_state (handleInputChange f v (st w)) w
  | Toggle b =>
      if truthy (notice_description (st w))
      then set_state (handleCheckboxChange b (st w)) w else w
  | Submit srv =>
      if fields_filled (st w)
      then let p := handleSubmit srv w in detach (fst p) (snd p) else w
  end.

Definition acts (l : list action) (w : world) : world := fold_left (fun w a => act a w) l w.

(** A page view: the location request is issued when the component
    mounts; [early] is what the user does while the page waits for the
    location service, [late] what the user does after the chain. *)
Definition session (c : clock) (srv : server) (early late : list action) (j : Cookie.jar) : world :=
  match useEffect_begin c (fresh_world j) with
  | (Throw _, w) => w
  | (Ok fidesDeviceId, w) =>
      acts late (Inline.after_location srv fidesDeviceId (acts early (send GetLocation w)))
  end.

End Plain.

(* ================================================================== *)
(** ** Vocabulary of the further properties *)

(** The cookies of the jar that are not the consent cookie, in order. *)
Definition other_than_consent (j : Cookie.jar) : Cookie.jar :=
  filter (fun c => negb (String.eqb (fst c) cookieName)) j.

(** A jar whose other cookies have names around the consent cookie's. *)
Definition neighbour_cookies : Cookie.jar :=
  [("xfides_consent", "1"); ("fides_consent", "a%20b"); ("fides_consent2", "2")].

(** The requests of the start-up chain for the device id [id], in the
    order they are issued; the chain may stop after any of them. *)
Definition startup_requests (id : jsval) (l : list request) : Prop :=
  l = []
  \/ l = [GetLocation]
  \/ (exists r, Str.toLowerCase r = r /\ l = [GetLocation; GetExperience r])
  \/ (exists r nb, Str.toLowerCase r = r /\ served_device_id nb = id
                   /\ l = [GetLocation; GetExperience r; PatchNoticesServed nb]).

(** A preference request that repeats what the served-event request
    [nb] said and cites [x], the first element of the answer to it. *)
Definition preference_matches (nb : NoticesServedBody) (x : NoticesServedResponse)
    (b : PreferencesBody) : Prop :=
  pref_device_id b = served_device_id nb
  /\ pref_experience_id b = Some (served_experience_id nb)
  /\ pref_geography b = served_geography nb
  /\ (exists h, privacy_notice_history_ids nb = [h] /\ pref_notice_history_id b = Some h)
  /\ pref_served_notice_history_id b = Some (served_notice_history_id x)
  /\ (preference b = "opt_in" \/ preference b = "opt_out")
  /\ method b = "button".

(** What the requests sent so far and the state cells have to do with
    each other in a session that obtained the device id [id]. *)
Definition protocol (srv : server) (id : jsval) (w : world) : Prop :=
  exists startup prefs,
    sent w = (startup ++ map PatchPreferences prefs)%list
    /\ startup_requests id startup
    /\ match privacyNotice (st w) with
       | Blank => prefs = []
       | Undef => False
       | Val n =>
           exists r nd geo resp,
             startup = [GetLocation; GetExperience r;
                        PatchNoticesServed (notices_served_body nd n id geo)]
             /\ served_service srv (notices_served_body nd n id geo) = Ok resp
             /\ privacyExperience (st w) = Val nd
             /\ noticeServed (st w)
                = match nth_error resp 0 with Some x => Val x | None => Undef end
             /\ deviceId (st w) = id
             /\ userGeo (st w) = geo
             /\ Forall (fun b => exists x rest,
                                   resp = x :: rest
                                   /\ preference_matches
                                        (notices_served_body nd n id geo) x b) prefs
       end.

(** The state cells that only the start-up chain sets. *)
Definition same_cells (s s' : state) : Prop :=
  privacyNotice s' = privacyNotice s
  /\ noticeServed s' = noticeServed s
  /\ privacyExperience s' = privacyExperience s
  /\ deviceId s' = deviceId s
  /\ userGeo s' = userGeo s.

(** The consent flag of the form is set only while a notice is shown. *)
Definition consent_needs_notice (w : world) : Prop :=
  consent (formData (st w)) = true -> truthy (notice_description (st w)) = true.

(** The jar holds a record that loads, with well-formed text and the
    identity of [r0]. *)
Definition record_kept (r0 : json) (j : Cookie.jar) : Prop :=
  exists r, jar_ok j /\ load j = Ok (Some r) /\ json_text r = true
            /\ device_id_of r = device_id_of r0.

(** Every preference request among [l] says [opt_in]. *)
Definition only_opt_in (l : list request) : Prop :=
  forall b, In (PatchPreferences b) l -> preference b = "opt_in".

(** The value last typed into the field [f] by the actions [l]; [d] when
    none of them is an input to that field. *)
Fixpoint typed (f : input_field) (l : list action) (d : string) : string :=
  match l with
  | [] => d
  | Input g v :: l' =>
      typed f l' match f, g with
                 | NameField, NameField | EmailField, EmailField => v
                 | _, _ => d
                 end
  | _ :: l' => typed f l' d
  end.

(** The text of a record with a property the component does not know,
    whose value holds a semicolon written as an escape. *)
Definition semicolon_record_text : string :=
  "{" ++ quote "consent" ++ ":{}," ++ quote "note" ++ ":"
      ++ String Str.dquote ("a\u003bb" ++ String Str.dquote "") ++ "}".

Definition semicolon_cookies : Cookie.jar := [("fides_consent", semicolon_record_text)].

(** A jar whose consent cookie holds the empty object. *)
Definition empty_record_cookies : Cookie.jar := [("theme", "dark"); ("fides_consent", "{}")].

(** The number of cookies of the jar with the name [n]. *)
Definition named (n : string) (j : Cookie.jar) : nat :=
  List.length (filter (fun c => String.eqb n (fst c)) j).

(** Two cookies with the name of the consent cookie are visible to the
    page (they were set for different paths), each with a record. *)
Definition doubled_cookies : Cookie.jar :=
  [("fides_consent", "%7B%7D"); ("theme", "dark"); ("fides_consent", "%7B%7D")].

(** The consent flag stored in the cookie is the choice of the last
    request sent, when that request is a preference request. *)
Definition synced (w : world) : Prop :=
  exists fs cs,
    jar_ok (cookies w)
    /\ load (cookies w) = Ok (Some (JObj fs))
    /\ json_text (JObj fs) = true
    /\ obj_get "consent" fs = Some (JObj cs)
    /\ forall l b,
         sent w = (l ++ [PatchPreferences b])%list ->
         obj_get "advertising_and_email_signup" cs
         = Some (JBool (String.eqb (preference b) "opt_in")).

(** The preference request built from the initial state of the page:
    no device id, notice, served reference, experience or geography. *)
Definition unserved_preference : PreferencesBody :=
  {| pref_device_id := Some (JStr "");
     pref_notice_history_id := None;
     preference := "opt_out";
     pref_served_notice_history_id := None;
     pref_experience_id := None;
     pref_geography := Some "";
     method := "button" |}.

(** Text made of the characters [encodeURIComponent] produces: the
    unreserved ones and [%]. *)
Definition uri_safe_char (c : ascii) : bool := URI.unreserved c || Ascii.eqb c "%".

Definition uri_safe (s : string) : bool := Str.forallb_char uri_safe_char s.



(** Successive loads of the page of [src/App.tsx]. *)
Fixpoint Basic_ensure_calls (cs : list clock) (j : Cookie.jar)
  : list (result json) * Cookie.jar :=
  match cs with
  | [] => ([], j)
  | c :: cs' =>
      let '(r, j1) := Basic.setOrCheckFidesConsentCookie c j in
      let '(rs, j2) := Basic_ensure_calls cs' j1 in
      (r :: rs, j2)
  end.

(** The location service answers with ASCII text. *)
Definition ascii_location (srv : server) : Prop :=
  forall d, location_service srv = Ok (Some d) ->
            (forall l, location d = Some l -> ascii_text l = true)
            /\ (forall c, country d = Some c -> ascii_text c = true).




(* ================================================================== *)
(** * Properties *)

(** ** Strings *)

Ltac each_char c := destruct c as [[] [] [] [] [] [] [] []].

Lemma string_app_nil (s : string) : s ++ "" = s.
Proof. induction s; simpl; congruence. Qed.

Lemma string_app_assoc (a b c : string) : (a ++ b) ++ c = a ++ (b ++ c).
Proof. induction a; simpl; congruence. Qed.

Lemma endsWith_spec (s suffix : string) :
  Str.endsWith s suffix = true <-> exists p, s = p ++ suffix.
Proof.
  induction s as [|c s IH]; cbn [Str.endsWith].
  - destruct (String.eqb "" suffix) eqn:E.
    + apply String.eqb_eq in E. subst. split; [exists ""; reflexivity | reflexivity].
    + apply String.eqb_neq in E. split; [discriminate|].
      intros [[|e p] H]; simpl in H; [congruence | discriminate].
  - destruct (String.eqb (String c s) suffix) eqn:E.
    + apply String.eqb_eq in E. split; [|reflexivity].
      intros _. exists "". simpl. exact E.
    + apply String.eqb_neq in E. rewrite IH. split.
      * intros [p ->]. exists (String c p). reflexivity.
      * intros [[|e p] H]; simpl in H.
        -- congruence.
        -- injection H as _ ->. exists p. reflexivity.
Qed.

Lemma lower_char_dash (c : ascii) :
  Ascii.eqb (Str.lower_char c) "-" = Ascii.eqb c "-".
Proof. each_char c; reflexivity. Qed.

Lemma count_char_toLowerCase (s : string) :
  Str.count_char "-" (Str.toLowerCase s) = Str.count_char "-" s.
Proof.
  induction s as [|c s IH]; simpl; [reflexivity|].
  rewrite lower_char_dash, IH. reflexivity.
Qed.

Lemma replace_all_char_absent (a b : ascii) (s : string) :
  Str.count_char a s = 0 -> Str.replace_all_char a b s = s.
Proof.
  induction s as [|c s IH]; simpl; [reflexivity|].
  destruct (Ascii.eqb c a); simpl; [discriminate|].
  intros H. rewrite IH by exact H. reflexivity.
Qed.

(** With at most one separator, replacing the first one is replacing
    them all. *)
Lemma replace_single_dash (s : string) :
  Str.count_char "-" s <= 1 ->
  Str.replace "-" "_" s = Str.replace_all_char "-" "_" s.
Proof.
  induction s as [|c s IH]; [reflexivity|].
  intros H. cbn [Str.replace Str.strip_prefix Str.replace_all_char].
  cbn [Str.count_char] in H.
  rewrite (Ascii.eqb_sym "-" c).
  destruct (Ascii.eqb c "-") eqn:E.
  - simpl. rewrite replace_all_char_absent by (simpl in H; lia). reflexivity.
  - rewrite IH by (simpl in H; lia). reflexivity.
Qed.

(* ================================================================== *)
(** ** Selection of the notice *)

Lemma is_signup_spec (n : PrivacyNotice) :
  is_signup n = true <-> key_ends_with_signup n.
Proof.
  unfold is_signup, key_ends_with_signup.
  destruct (notice_key n) as [k|].
  - rewrite endsWith_spec. split; intros [p H]; exists p; congruence.
  - split; [discriminate | intros [p H]; discriminate].
Qed.

Lemma is_signup_false (n : PrivacyNotice) :
  is_signup n = false <-> ~ key_ends_with_signup n.
Proof.
  rewrite <- is_signup_spec. destruct (is_signup n); split; congruence.
Qed.

Lemma find_first {A} (p : A -> bool) (l : list A) (x : A) :
  find p l = Some x <->
  exists before after,
    l = (before ++ x :: after)%list /\ p x = true /\ Forall (fun y => p y = false) before.
Proof.
  induction l as [|a l IH]; simpl.
  - split; [discriminate|]. intros ([|b before] & after & H & _); discriminate.
  - destruct (p a) eqn:E.
    + split.
      * intros [= ->]. exists [], l. auto.
      * intros ([|b before] & after & H & Hx & Hb); simpl in H.
        -- congruence.
        -- injection H as -> _. inversion Hb; congruence.
    + rewrite IH. split.
      * intros (before & after & -> & Hx & Hb). exists (a :: before), after. auto.
      * intros ([|b before] & after & H & Hx & Hb); simpl in H.
        -- congruence.
        -- injection H as -> ->. inversion Hb; subst. eauto.
Qed.

Lemma find_none {A} (p : A -> bool) (l : list A) :
  find p l = None <-> Forall (fun y => p y = false) l.
Proof.
  induction l as [|a l IH]; simpl.
  - split; auto.
  - destruct (p a) eqn:E.
    + split; [discriminate | intros H; inversion H; congruence].
    + rewrite IH. split; [auto | intros H; inversion H; auto].
Qed.

Lemma Forall_not_signup (l : list PrivacyNotice) :
  Forall (fun y => is_signup y = false) l <-> Forall (fun y => ~ key_ends_with_signup y) l.
Proof.
  split; intros H; induction H; constructor; auto; now apply is_signup_false.
Qed.

(** Indexing the filtered list and searching the list agree. *)
Lemma filter_head_find {A} (p : A -> bool) (l : list A) :
  nth_error (filter p l) 0 = find p l.
Proof.
  induction l as [|a l IH]; simpl; [reflexivity|].
  destruct (p a); simpl; auto.
Qed.

Lemma Basic_signUpNotice_agrees (nd : PrivacyExperience) (ns : list PrivacyNotice) :
  privacy_notices nd = Some ns ->
  Basic.signUpNotice (Some nd) = Ok (Inline.signUpNotice (Some nd)).
Proof.
  intros H. unfold Basic.signUpNotice, Inline.signUpNotice. rewrite H.
  now rewrite filter_head_find.
Qed.

(** C9.  For every experience, in both shapes of the component, the
    notice selected is the first one, in list order, whose key ends
    with "signup"; nothing is selected exactly when no key ends with
    "signup", and then the selection evaluates to [undefined] without
    raising anything: [find] returns it in the component with
    [processNotices], and in [src/App.tsx] indexing the filtered list
    completes normally with it.  For the keys "marketing",
    "email_signup", "other_signup" the second notice is selected. *)
Theorem signUpNotice_first_match (nd : PrivacyExperience) (ns : list PrivacyNotice)
    (Hns : privacy_notices nd = Some ns) :
  (forall n,
      Inline.signUpNotice (Some nd) = Some n <->
      exists before after,
        ns = (before ++ n :: after)%list /\ key_ends_with_signup n /\
        Forall (fun m => ~ key_ends_with_signup m) before)
  /\ (Inline.signUpNotice (Some nd) = None <->
      Forall (fun m => ~ key_ends_with_signup m) ns)
  /\ (forall n,
      Basic.signUpNotice (Some nd) = Ok (Some n) <->
      exists before after,
        ns = (before ++ n :: after)%list /\ key_ends_with_signup n /\
        Forall (fun m => ~ key_ends_with_signup m) before)
  /\ (Basic.signUpNotice (Some nd) = Ok None <->
      Forall (fun m => ~ key_ends_with_signup m) ns)
  /\ (forall e, Basic.signUpNotice (Some nd) <> Throw e)
  /\ (forall a b c,
         ns = [a; b; c] ->
         notice_key a = Some "marketing" ->
         notice_key b = Some "email_signup" ->
         notice_key c = Some "other_signup" ->
         Inline.signUpNotice (Some nd) = Some b
         /\ Basic.signUpNotice (Some nd) = Ok (Some b)).
Proof.
  assert (Hfirst : forall n,
             find is_signup ns = Some n <->
             exists before after,
               ns = (before ++ n :: after)%list /\ key_ends_with_signup n /\
               Forall (fun m => ~ key_ends_with_signup m) before).
  { intros n. rewrite find_first. split.
    - intros (before & after & H1 & H2 & H3). exists before, after.
      rewrite <- is_signup_spec, <- Forall_not_signup. auto.
    - intros (before & after & H1 & H2 & H3). exists before, after.
      rewrite is_signup_spec, Forall_not_signup. auto. }
  assert (Hnone : find is_signup ns = None <-> Forall (fun m => ~ key_ends_with_signup m) ns).
  { rewrite find_none. apply Forall_not_signup. }
  assert (HB : Basic.signUpNotice (Some nd) = Ok (find is_signup ns)).
  { unfold Basic.signUpNotice. rewrite Hns. now rewrite filter_head_find. }
  assert (HI : Inline.signUpNotice (Some nd) = find is_signup ns).
  { unfold Inline.signUpNotice. now rewrite Hns. }
  rewrite HB, HI.
  split; [exact Hfirst|]. split; [exact Hnone|]. split; [|split; [|split]].
  - intros n. rewrite <- Hfirst. split; congruence.
  - rewrite <- Hnone. split; congruence.
  - intros e. discriminate.
  - intros a b c -> Ha Hb Hc. simpl. unfold is_signup. rewrite Ha, Hb. split; reflexivity.
Qed.

Lemma signUpNotice_first_match_witness :
  Inline.signUpNotice (Some sample_experience) = Some email_signup_notice
  /\ Basic.signUpNotice (Some sample_experience) = Ok (Some email_signup_notice).
Proof.
  apply (proj2 (proj2 (proj2 (proj2 (proj2
           (signUpNotice_first_match sample_experience eq_refl)))))
           marketing_notice email_signup_notice other_signup_notice);
  reflexivity.
Defined.

(* ================================================================== *)
(** ** Region code *)

Lemma sent_detach (r : result unit) (w : world) : sent (detach r w) = sent w.
Proof. destruct r; reflexivity. Qed.

Lemma st_detach (r : result unit) (w : world) : st (detach r w) = st w.
Proof. destruct r; reflexivity. Qed.

Lemma cookies_detach (r : result unit) (w : world) : cookies (detach r w) = cookies w.
Proof. destruct r; reflexivity. Qed.

(** [processNotices] adds at most the served event to the requests. *)
Lemma processNotices_sent srv page id geo w :
  sent (snd (Inline.processNotices srv page id geo w)) = sent w \/
  exists b, sent (snd (Inline.processNotices srv page id geo w))
            = (sent w ++ [PatchNoticesServed b])%list.
Proof.
  unfold Inline.processNotices.
  destruct (items page) as [its|]; [|now left].
  destruct (nth_error its 0) as [nd|]; [|now left].
  destruct (Inline.signUpNotice (Some nd)) as [n|]; [|now left].
  right. eexists. destruct (served_service srv _); reflexivity.
Qed.

(** C8, the claim at a location with two separators: only the first
    one is replaced. *)
Lemma geography_second_separator_kept :
  geography (Some {| location := Some "US-CA-SF"; country := Some "US" |})
    = Ok (Some "us_ca-sf")
  /\ geography (Some {| location := Some "US-CA-SF"; country := Some "US" |})
    <> Ok (Some (separator_normalized "US-CA-SF")).
Proof. split; [reflexivity | vm_compute; discriminate]. Qed.

(* ================================================================== *)
(** ** Submission *)

Lemma preferences_body_fields (s : state) (b : PreferencesBody) :
  preferences_body s = Ok b ->
  preference b = (if consent (formData s) then "opt_in" else "opt_out")
  /\ field served_notice_history_id (noticeServed s) = Ok (pref_served_notice_history_id b)
  /\ field privacy_notice_history_id (privacyNotice s) = Ok (pref_notice_history_id b)
  /\ pref_device_id b = deviceId s.
Proof.
  unfold preferences_body.
  destruct (field privacy_notice_history_id (privacyNotice s)) as [nh|]; [|discriminate].
  destruct (field served_notice_history_id (noticeServed s)) as [sh|]; [|discriminate].
  destruct (field experience_id (privacyExperience s)) as [xi|]; [|discriminate].
  simpl. intros [= <-]. simpl. auto.
Qed.


(** What [recordConsentOnServer] does to the page. *)
Lemma recordConsentOnServer_cases (srv : server) (w : world) :
  let '(r, w') := Inline.recordConsentOnServer srv w in
  st w' = st w /\ cookies w' = cookies w /\ unhandled w' = unhandled w /\
  ((exists e, preferences_body (st w) = Throw e /\ r = Throw e /\ sent w' = sent w) \/
   (exists b, preferences_body (st w) = Ok b /\
              sent w' = (sent w ++ [PatchPreferences b])%list /\
              r = match preference_service srv b with
                  | Ok _ => Ok tt
                  | Throw e => Throw e
                  end)).
Proof.
  unfold Inline.recordConsentOnServer.
  destruct (preferences_body (st w)) as [b|e].
  - destruct (preference_service srv b) eqn:E; simpl;
      repeat split; right; exists b; rewrite ?E; auto.
  - simpl. repeat split. left. eauto.
Qed.

(** What [handleSubmit] does to the page. *)
Lemma handleSubmit_cases (srv : server) (w : world) :
  st (snd (Inline.handleSubmit srv w)) = st w /\
  (sent (snd (Inline.handleSubmit srv w)) = sent w \/
   exists b, preferences_body (st w) = Ok b /\
             sent (snd (Inline.handleSubmit srv w)) = (sent w ++ [PatchPreferences b])%list).
Proof.
  unfold Inline.handleSubmit.
  destruct (Inline.updateConsentCookie _ _) as [j|e]; [|simpl; auto].
  pose proof (recordConsentOnServer_cases srv (set_cookies j w)) as H.
  destruct (Inline.recordConsentOnServer srv (set_cookies j w)) as [r w'].
  destruct H as (H1 & H2 & H3 & H4). simpl.
  rewrite st_detach, sent_detach. split; [exact H1|].
  destruct H4 as [(e & _ & _ & H)|(b & Hb & H & _)]; [left; exact H|].
  right. exists b. auto.
Qed.

(** With cookie encoding, a submission that reaches the request carries
    "opt_in" when the consent flag is set and "opt_out" when it is not. *)
Lemma Inline_submission_preference (srv : server) (w : world) (j : Cookie.jar)
    (b : PreferencesBody) :
  Inline.updateConsentCookie (consent (formData (st w))) (cookies w) = Ok j ->
  preferences_body (st w) = Ok b ->
  sent (snd (Inline.handleSubmit srv w)) = (sent w ++ [PatchPreferences b])%list
  /\ preference b = (if consent (formData (st w)) then "opt_in" else "opt_out").
Proof.
  intros Hj Hb. split; [|now apply preferences_body_fields].
  unfold Inline.handleSubmit, Inline.recordConsentOnServer. rewrite Hj. simpl.
  rewrite Hb. destruct (preference_service srv b); reflexivity.
Qed.

(** C3, on [src/App.tsx].  When the consent flag is not set,
    [handleSubmit] does nothing at all: no request is sent, so no
    submission carries "opt_out". *)
Theorem Basic_handleSubmit_declined (srv : server) (w : world)
    (Hdeclined : consent (formData (st w)) = false) :
  Basic.handleSubmit srv w = (Ok tt, w)
  /\ sent (snd (Basic.handleSubmit srv w)) = sent w
  /\ cookies (snd (Basic.handleSubmit srv w)) = cookies w.
Proof.
  unfold Basic.handleSubmit. rewrite Hdeclined. auto.
Qed.

(** The failing input: the start-up chain has succeeded, the form is
    filled in, the checkbox is left unticked and the button pressed.
    The requests are those of the start-up chain only. *)
Lemma Basic_handleSubmit_declined_witness :
  let w := Basic.session sample_clock sample_server [] fill_form [] in
  consent (formData (st w)) = false
  /\ sent (Basic.act (Submit sample_server) w) = sent w
  /\ filter is_preferences (sent (Basic.act (Submit sample_server) w)) = [].
Proof.
  cbv zeta.
  assert (H : consent (formData (st (Basic.session sample_clock sample_server [] fill_form [])))
              = false) by (vm_compute; reflexivity).
  split; [exact H|].
  destruct (Basic_handleSubmit_declined sample_server _ H) as (_ & H2 & _).
  split.
  - exact H2.
  - vm_compute. reflexivity.
Defined.

(* ================================================================== *)
(** ** Failure of the preference write *)

(** C10, the claim where the write does not complete and where the
    server refuses it: [handleSubmit] reports success both times. *)
Lemma handleSubmit_hides_failure :
  let w := Inline.session sample_clock sample_server [] (fill_form ++ [Toggle true]) [] in
  (forall b, preference_service offline_server b = Throw FetchFailed)
  /\ fst (Inline.handleSubmit offline_server w) = Ok tt
  /\ (forall b, preference_service refusing_server b = Ok 500)
  /\ fst (Inline.handleSubmit refusing_server w) = Ok tt
  /\ unhandled (snd (Inline.handleSubmit refusing_server w)) = [].
Proof. vm_compute. repeat split. Qed.

(** C10, amended.  Once the cookie update of a submission has
    succeeded, the page keeps the updated cookie whatever becomes of
    the preference write: the update is not rolled back.  A write that
    the server answers, with whatever status, is not reported as a
    failure: the response is not looked at, [handleSubmit] completes
    normally and no rejection is recorded. *)
Theorem handleSubmit_keeps_cookie_update (srv : server) (w : world) (j : Cookie.jar)
    (Hupdate : Inline.updateConsentCookie (consent (formData (st w))) (cookies w) = Ok j) :
  cookies (snd (Inline.handleSubmit srv w)) = j
  /\ (forall b status,
         preferences_body (st w) = Ok b ->
         preference_service srv b = Ok status ->
         Inline.handleSubmit srv w
         = (Ok tt, send (PatchPreferences b) (set_cookies j w))).
Proof.
  unfold Inline.handleSubmit. rewrite Hupdate.
  unfold Inline.recordConsentOnServer. cbn [st set_cookies].
  destruct (preferences_body (st w)) as [b|e].
  - destruct (preference_service srv b) as [n|e] eqn:E; simpl; split; auto.
    + intros b' status [= <-] _. reflexivity.
    + intros b' status [= <-]. rewrite E. discriminate.
  - simpl. split; auto. discriminate.
Qed.

Lemma handleSubmit_keeps_cookie_update_witness :
  let w := Inline.session sample_clock sample_server [] (fill_form ++ [Toggle true]) [] in
  cookies (snd (Inline.handleSubmit refusing_server w)) <> cookies w
  /\ fst (Inline.handleSubmit refusing_server w) = Ok tt
  /\ unhandled (snd (Inline.handleSubmit refusing_server w)) = unhandled w.
Proof.
  cbv zeta.
  pose proof (handleSubmit_keeps_cookie_update refusing_server
                (Inline.session sample_clock sample_server [] (fill_form ++ [Toggle true]) [])
                (j := cookies (snd (Inline.handleSubmit refusing_server
                        (Inline.session sample_clock sample_server []
                           (fill_form ++ [Toggle true]) []))))
                ltac:(vm_compute; reflexivity)) as (H1 & H2).
  split; [vm_compute; discriminate|].
  erewrite H2; [split; reflexivity | vm_compute; reflexivity | reflexivity].
Defined.

(* ================================================================== *)
(** ** Sessions *)

Section InlineSession.

Variable srv : server.

(** What a session maintains: the served event is recorded at most
    once; the page shows no notice, or shows one without a served
    reference, or holds the first element of the answer to the served
    event; every preference request cites that element. *)
Definition served_once (w : world) : Prop :=
  List.length (filter is_notices_served (sent w)) <= 1.

Definition cells_consistent (w : world) : Prop :=
  match privacyNotice (st w), noticeServed (st w) with
  | Blank, Blank => True
  | Val _, Undef => True
  | Val _, Val r =>
      exists nb rest,
        In (PatchNoticesServed nb) (sent w) /\ served_service srv nb = Ok (r :: rest)
  | _, _ => False
  end.

Definition preferences_cite_served (w : world) : Prop :=
  forall b, In (PatchPreferences b) (sent w) ->
            exists r, noticeServed (st w) = Val r /\
                      pref_served_notice_history_id b = Some (served_notice_history_id r).

Definition session_invariant (w : world) : Prop :=
  served_once w /\ cells_consistent w /\ preferences_cite_served w.

Lemma act_cells (a : action) (w : world) :
  privacyNotice (st (Inline.act a w)) = privacyNotice (st w)
  /\ noticeServed (st (Inline.act a w)) = noticeServed (st w).
Proof.
  destruct a as [f v|b|srv']; simpl.
  - destruct f; auto.
  - destruct (truthy _); auto.
  - destruct (_ || _); auto.
    rewrite ?st_detach.
    destruct (handleSubmit_cases srv' w) as [-> _]. auto.
Qed.

Lemma act_sent (a : action) (w : world) :
  sent (Inline.act a w) = sent w \/
  exists b, sent (Inline.act a w) = (sent w ++ [PatchPreferences b])%list
            /\ preferences_body (st w) = Ok b
            /\ Inline.submit_disabled (st w) = false.
Proof.
  destruct a as [f v|b|srv']; simpl; auto.
  - destruct (truthy _); auto.
  - destruct (Inline.submit_disabled (st w)) eqn:D; simpl; auto.
    destruct (negb _); auto.
    rewrite sent_detach.
    destruct (handleSubmit_cases srv' w) as [_ [H|(b & Hb & H)]]; [auto|].
    right. exists b. auto.
Qed.

Lemma filter_served_app (l : list request) (b : PreferencesBody) :
  filter is_notices_served (l ++ [PatchPreferences b]) = filter is_notices_served l.
Proof. rewrite filter_app. simpl. apply app_nil_r. Qed.

Lemma act_invariant (a : action) (w : world) :
  session_invariant w -> session_invariant (Inline.act a w).
Proof.
  intros (H1 & H2 & H3).
  destruct (act_cells a w) as [Hp Hn].
  unfold session_invariant, served_once, cells_consistent, preferences_cite_served.
  rewrite Hp, Hn.
  destruct (act_sent a w) as [->|(b & -> & Hb & Hd)]; [auto|].
  rewrite filter_served_app. split; [exact H1|]. split.
  - unfold cells_consistent in H2.
    destruct (privacyNotice (st w)), (noticeServed (st w)); auto.
    destruct H2 as (nb & rest & Hin & Hs). exists nb, rest. split; [|exact Hs].
    apply in_or_app. now left.
  - intros b' Hin. apply in_app_or in Hin. destruct Hin as [Hin|[[= <-]|[]]]; [auto|].
    apply preferences_body_fields in Hb. destruct Hb as (_ & Hf & _).
    unfold Inline.submit_disabled, notice_description in Hd.
    unfold cells_consistent in H2.
    destruct (privacyNotice (st w)); try discriminate.
    destruct (noticeServed (st w)) as [| |r]; try contradiction; try discriminate.
    exists r. simpl in Hf. split; congruence.
Qed.

Lemma acts_invariant (l : list action) (w : world) :
  session_invariant w -> session_invariant (Inline.acts l w).
Proof.
  revert w. induction l as [|a l IH]; intros w H; [exact H|].
  apply IH. now apply act_invariant.
Qed.

(** While no notice is shown, the form does not send anything. *)
Lemma act_gated (a : action) (w : world) :
  privacyNotice (st w) = Blank ->
  sent (Inline.act a w) = sent w /\ cookies (Inline.act a w) = cookies w
  /\ unhandled (Inline.act a w) = unhandled w.
Proof.
  intros H. destruct a as [f v|b|srv']; simpl; auto.
  - unfold truthy, notice_description. rewrite H. auto.
  - unfold Inline.submit_disabled, truthy, notice_description. rewrite H. auto.
Qed.

Lemma acts_gated (l : list action) (w : world) :
  privacyNotice (st w) = Blank ->
  sent (Inline.acts l w) = sent w /\ cookies (Inline.acts l w) = cookies w
  /\ unhandled (Inline.acts l w) = unhandled w
  /\ privacyNotice (st (Inline.acts l w)) = Blank
  /\ noticeServed (st (Inline.acts l w)) = noticeServed (st w).
Proof.
  revert w. induction l as [|a l IH]; intros w H; [auto 6|].
  simpl. destruct (act_cells a w) as [Hp Hn]. destruct (act_gated a w H) as (H1 & H2 & H3).
  destruct (IH (Inline.act a w)) as (I1 & I2 & I3 & I4 & I5); [congruence|].
  unfold Inline.acts in *. simpl. repeat split; congruence.
Qed.

Lemma processNotices_invariant page id geo (w : world) :
  privacyNotice (st w) = Blank -> noticeServed (st w) = Blank ->
  filter is_notices_served (sent w) = [] ->
  filter is_preferences (sent w) = [] ->
  session_invariant (snd (Inline.processNotices srv page id geo w)).
Proof.
  intros Hp Hn Hs Hq.
  assert (Hnone : forall l, filter is_preferences l = [] ->
                            forall b, ~ In (PatchPreferences b) l).
  { intros l Hl b Hin.
    assert (In (PatchPreferences b) (filter is_preferences l))
      by (apply filter_In; auto).
    rewrite Hl in H. exact H. }
  assert (Hbase : session_invariant w).
  { unfold session_invariant, served_once, cells_consistent, preferences_cite_served.
    rewrite Hs, Hp, Hn. simpl. repeat split; auto.
    intros b Hin. exfalso. eapply Hnone; eauto. }
  unfold Inline.processNotices.
  destruct (items page) as [its|]; [|exact Hbase].
  destruct (nth_error its 0) as [nd|]; [|exact Hbase].
  destruct (Inline.signUpNotice (Some nd)) as [n|]; [|exact Hbase].
  assert (Hq' : forall b' x, ~ In (PatchPreferences b') (sent w ++ [PatchNoticesServed x])).
  { intros b' x Hin. apply in_app_or in Hin.
    destruct Hin as [Hin|[Hin|[]]]; [|discriminate]. eapply Hnone; eauto. }
  destruct (served_service srv _) as [resp|e] eqn:E; simpl.
  - unfold session_invariant, served_once, cells_consistent, preferences_cite_served. simpl.
    rewrite filter_app, Hs. simpl. split; [lia|]. split.
    + destruct resp as [|r rest]; simpl; [exact I|].
      eexists _, rest. split; [|exact E]. apply in_or_app. right. now left.
    + intros b Hin. exfalso. eapply Hq'; eauto.
  - unfold session_invariant, served_once, cells_consistent, preferences_cite_served. simpl.
    rewrite filter_app, Hs, Hp, Hn. simpl. split; [lia|]. split; [exact I|].
    intros b Hin. exfalso. eapply Hq'; eauto.
Qed.

Lemma fetchRegionAndNotices_invariant id (w : world) :
  privacyNotice (st w) = Blank -> noticeServed (st w) = Blank ->
  sent w = [] ->
  session_invariant (Inline.fetchRegionAndNotices srv id w).
Proof.
  intros Hp Hn Hs.
  assert (Hbase : forall l, filter is_notices_served l = [] ->
                            filter is_preferences l = [] ->
                            session_invariant
                              {| cookies := cookies w; st := st w; sent := l;
                                 unhandled := unhandled w |}).
  { intros l H1 H2.
    unfold session_invariant, served_once, cells_consistent, preferences_cite_served.
    simpl. rewrite H1, Hp, Hn. simpl. repeat split; auto.
    intros b Hin.
    assert (In (PatchPreferences b) (filter is_preferences l)) by (apply filter_In; auto).
    rewrite H2 in H. destruct H. }
  unfold Inline.fetchRegionAndNotices, Inline.after_location, Inline.fetchPrivacyExperiences.
  destruct (location_service srv) as [ld|e]; [|apply Hbase; rewrite Hs; reflexivity].
  destruct (geography ld) as [geo|e]; [|apply Hbase; rewrite Hs; reflexivity].
  destruct (if_truthy (region_of ld)) as [region|]; [|apply Hbase; rewrite Hs; reflexivity].
  destruct (experience_service srv _) as [[page|]|e];
    try (apply Hbase; simpl; rewrite Hs; reflexivity).
  pose proof (processNotices_invariant page id geo
                (send (GetExperience (Str.toLowerCase region)) (send GetLocation w))) as H.
  destruct (Inline.processNotices srv page id geo _) as [p w3].
  simpl in H. specialize (H Hp Hn). rewrite Hs in H. specialize (H eq_refl eq_refl).
  destruct H as (H1 & H2 & H3).
  unfold session_invariant, served_once, cells_consistent, preferences_cite_served.
  rewrite sent_detach, st_detach. auto.
Qed.

Lemma useEffect_begin_world (c : clock) (j : Cookie.jar) :
  st (snd (Inline.useEffect_begin c (fresh_world j))) = initial_state
  /\ sent (snd (Inline.useEffect_begin c (fresh_world j))) = []
  /\ unhandled (snd (Inline.useEffect_begin c (fresh_world j))) = [].
Proof.
  unfold Inline.useEffect_begin.
  destruct (Inline.setOrCheckFidesConsentCookie c _) as [[r|e] j']; simpl; auto.
Qed.

(** While no notice is shown, what the user does and a request that
    is issued do not depend on each other. *)
Lemma Inline_act_send (r : request) (a : action) (w : world) :
  privacyNotice (st w) = Blank ->
  Inline.act a (send r w) = send r (Inline.act a w)
  /\ privacyNotice (st (Inline.act a w)) = Blank.
Proof.
  intros H. destruct a as [f v|b|srv']; cbn [Inline.act send st].
  - split; [reflexivity | exact H].
  - unfold truthy, notice_description. rewrite H. auto.
  - unfold Inline.submit_disabled, truthy, notice_description. rewrite H. auto.
Qed.

Lemma Inline_acts_send (r : request) (l : list action) (w : world) :
  privacyNotice (st w) = Blank ->
  Inline.acts l (send r w) = send r (Inline.acts l w).
Proof.
  revert w. induction l as [|a l IH]; intros w H; [reflexivity|].
  unfold Inline.acts in *. cbn [fold_left].
  destruct (Inline_act_send r a w H) as [-> H']. now apply IH.
Qed.

(** A session, with the actions of the user before the chain put in
    front of the location request: they do not send anything. *)
Lemma Inline_session_atomic (c : clock) (early late : list action) (j : Cookie.jar) :
  Inline.session c srv early late j
  = match Inline.useEffect_begin c (fresh_world j) with
    | (Throw _, w) => w
    | (Ok fidesDeviceId, w) =>
        Inline.acts late (Inline.fetchRegionAndNotices srv fidesDeviceId (Inline.acts early w))
    end.
Proof.
  unfold Inline.session, Inline.fetchRegionAndNotices.
  destruct (useEffect_begin_world c j) as (Hst & _ & _).
  destruct (Inline.useEffect_begin c (fresh_world j)) as [[id|e] w]; [|reflexivity].
  cbn [snd] in Hst. rewrite Inline_acts_send; [reflexivity|]. now rewrite Hst.
Qed.

Lemma session_maintains_invariant (c : clock) (early late : list action) (j : Cookie.jar) :
  session_invariant (Inline.session c srv early late j).
Proof.
  rewrite Inline_session_atomic.
  destruct (useEffect_begin_world c j) as (Hst & Hsent & Hun).
  destruct (Inline.useEffect_begin c (fresh_world j)) as [[id|e] w]; simpl in *.
  - apply acts_invariant.
    assert (Hp : privacyNotice (st w) = Blank) by (rewrite Hst; reflexivity).
    destruct (acts_gated early w Hp) as (G1 & G2 & G3 & G4 & G5).
    apply fetchRegionAndNotices_invariant; [exact G4 | | congruence].
    rewrite G5, Hst. reflexivity.
  - unfold session_invariant, served_once, cells_consistent, preferences_cite_served.
    rewrite Hst, Hsent. simpl. repeat split; auto. intros b [].
Qed.

End InlineSession.

(** C2.  In every session, whatever the user does and however often
    the form is submitted: the served event is recorded at most once;
    every preference request carries the served-history id of the
    first element of the answer to that one served event, which is the
    one the page holds; and neither [handleSubmit] nor any other action
    on the form records a served event. *)
Theorem served_reference_reused (c : clock) (srv : server) (early late : list action)
    (j : Cookie.jar) :
  let W := Inline.session c srv early late j in
  List.length (filter is_notices_served (sent W)) <= 1
  /\ (forall b, In (PatchPreferences b) (sent W) ->
        exists nb r rest,
          In (PatchNoticesServed nb) (sent W)
          /\ served_service srv nb = Ok (r :: rest)
          /\ noticeServed (st W) = Val r
          /\ pref_served_notice_history_id b = Some (served_notice_history_id r))
  /\ (forall srv' w,
        filter is_notices_served (sent (snd (Inline.handleSubmit srv' w)))
        = filter is_notices_served (sent w))
  /\ (forall a w,
        filter is_notices_served (sent (Inline.act a w))
        = filter is_notices_served (sent w)).
Proof.
  cbv zeta.
  destruct (session_maintains_invariant srv c early late j) as (H1 & H2 & H3).
  split; [exact H1|]. split; [|split].
  - intros b Hin. destruct (H3 b Hin) as (r & Hr & Hb).
    unfold cells_consistent in H2. rewrite Hr in H2.
    destruct (privacyNotice (st _)); try contradiction.
    destruct H2 as (nb & rest & Hnb & Hs). exists nb, r, rest. auto.
  - intros srv' w.
    destruct (handleSubmit_cases srv' w) as [_ [->|(b & _ & ->)]]; [reflexivity|].
    apply filter_served_app.
  - intros a w.
    destruct (act_sent a w) as [->|(b & -> & _)]; [reflexivity|].
    apply filter_served_app.
Qed.

(** Two submissions in one session, the second after the checkbox is
    cleared: one served-event request, two preference requests, and
    both cite the reference obtained at start-up. *)
Lemma served_reference_reused_witness :
  let W := Inline.session sample_clock sample_server []
             (fill_form ++ [Toggle true; Submit sample_server;
                            Toggle false; Submit sample_server]) [] in
  List.length (filter is_notices_served (sent W)) = 1
  /\ List.length (filter is_preferences (sent W)) = 2
  /\ (forall b, In (PatchPreferences b) (sent W) ->
                pref_served_notice_history_id b = Some "ser_hist_1").
Proof.
  cbv zeta.
  pose proof (served_reference_reused sample_clock sample_server []
                (fill_form ++ [Toggle true; Submit sample_server;
                               Toggle false; Submit sample_server]) []) as H.
  cbv zeta in H. destruct H as (_ & H2 & _).
  split; [vm_compute; reflexivity|]. split; [vm_compute; reflexivity|].
  intros b Hin. destruct (H2 b Hin) as (nb & r & rest & _ & _ & Hr & Hb).
  rewrite Hb. f_equal.
  assert (Hs : noticeServed
                 (st (Inline.session sample_clock sample_server []
                        (fill_form ++ [Toggle true; Submit sample_server;
                                       Toggle false; Submit sample_server]) []))
               = Val sample_served) by (vm_compute; reflexivity).
  rewrite Hs in Hr. injection Hr as <-. reflexivity.
Defined.




(* ================================================================== *)
(** ** Malformed cookie *)

Lemma if_truthy_nonempty (text : string) : text <> "" -> if_truthy (Some text) = Some text.
Proof. destruct text; [congruence | reflexivity]. Qed.

(** C5, the claim at a cookie that holds "{oops": the text is not
    treated as absent, [JSON.parse] throws out of
    [setOrCheckFidesConsentCookie] and the effect, in both shapes of
    the component. *)
Lemma malformed_cookie_throws :
  Inline.getCookie cookieName malformed_cookies = Ok (Some "{oops")
  /\ Inline.setOrCheckFidesConsentCookie sample_clock malformed_cookies
     = (Throw SyntaxError, malformed_cookies)
  /\ fst (Inline.useEffect_begin sample_clock (fresh_world malformed_cookies))
     = Throw SyntaxError
  /\ Basic.setOrCheckFidesConsentCookie sample_clock malformed_cookies
     = (Throw SyntaxError, malformed_cookies)
  /\ fst (Inline.setOrCheckFidesConsentCookie sample_clock malformed_cookies)
     <> Ok (consentObject sample_clock).
Proof. vm_compute. repeat split. discriminate. Qed.

(** C5, amended.  In both shapes of the component: when the stored
    text is present but malformed (in the component that decodes it,
    the text is not a valid percent-encoding, or the decoded text is
    not JSON; in [src/App.tsx], the text is not JSON), the URIError or
    SyntaxError is thrown out of [setOrCheckFidesConsentCookie]: the
    cookie is left as it is, the effect fails with that error, and the
    session ends there with no request sent.  When the text is read
    and parses, the parsed record is returned and the cookie is left
    as it is. *)
Theorem malformed_cookie_propagates (c : clock) (srv : server)
    (early late : list action) (j : Cookie.jar) :
  (Inline.getCookie cookieName j = Throw URIError ->
   Inline.setOrCheckFidesConsentCookie c j = (Throw URIError, j)
   /\ Inline.useEffect_begin c (fresh_world j) = (Throw URIError, fresh_world j)
   /\ Inline.session c srv early late j = fresh_world j)
  /\ (forall text,
        Inline.getCookie cookieName j = Ok (Some text) -> text <> "" ->
        JSON.parse text = Throw SyntaxError ->
        Inline.setOrCheckFidesConsentCookie c j = (Throw SyntaxError, j)
        /\ Inline.useEffect_begin c (fresh_world j) = (Throw SyntaxError, fresh_world j)
        /\ Inline.session c srv early late j = fresh_world j)
  /\ (forall text,
        Basic.getCookie cookieName j = Some text -> text <> "" ->
        JSON.parse text = Throw SyntaxError ->
        Basic.setOrCheckFidesConsentCookie c j = (Throw SyntaxError, j)
        /\ Basic.useEffect_begin c (fresh_world j) = (Throw SyntaxError, fresh_world j)
        /\ Basic.session c srv early late j = fresh_world j)
  /\ (forall text r,
        text <> "" -> JSON.parse text = Ok r ->
        (Inline.getCookie cookieName j = Ok (Some text) ->
         Inline.setOrCheckFidesConsentCookie c j = (Ok r, j))
        /\ (Basic.getCookie cookieName j = Some text ->
            Basic.setOrCheckFidesConsentCookie c j = (Ok r, j))).
Proof.
  assert (HI : forall e,
             Inline.setOrCheckFidesConsentCookie c j = (Throw e, j) ->
             Inline.setOrCheckFidesConsentCookie c j = (Throw e, j)
             /\ Inline.useEffect_begin c (fresh_world j) = (Throw e, fresh_world j)
             /\ Inline.session c srv early late j = fresh_world j).
  { intros e H.
    assert (H' : Inline.useEffect_begin c (fresh_world j) = (Throw e, fresh_world j)).
    { unfold Inline.useEffect_begin. simpl. rewrite H. reflexivity. }
    split; [exact H|]. split; [exact H'|].
    unfold Inline.session. rewrite H'. reflexivity. }
  assert (HB : forall e,
             Basic.setOrCheckFidesConsentCookie c j = (Throw e, j) ->
             Basic.setOrCheckFidesConsentCookie c j = (Throw e, j)
             /\ Basic.useEffect_begin c (fresh_world j) = (Throw e, fresh_world j)
             /\ Basic.session c srv early late j = fresh_world j).
  { intros e H.
    assert (H' : Basic.useEffect_begin c (fresh_world j) = (Throw e, fresh_world j)).
    { unfold Basic.useEffect_begin. simpl. rewrite H. reflexivity. }
    split; [exact H|]. split; [exact H'|].
    unfold Basic.session. rewrite H'. reflexivity. }
  split; [|split; [|split]].
  - intros H. apply HI. unfold Inline.setOrCheckFidesConsentCookie. now rewrite H.
  - intros text H Hne Hp. apply HI. unfold Inline.setOrCheckFidesConsentCookie.
    now rewrite H, (if_truthy_nonempty Hne), Hp.
  - intros text H Hne Hp. apply HB. unfold Basic.setOrCheckFidesConsentCookie.
    now rewrite H, (if_truthy_nonempty Hne), Hp.
  - intros text r Hne Hp. split; intros H.
    + unfold Inline.setOrCheckFidesConsentCookie.
      now rewrite H, (if_truthy_nonempty Hne), Hp.
    + unfold Basic.setOrCheckFidesConsentCookie.
      now rewrite H, (if_truthy_nonempty Hne), Hp.
Qed.

Lemma malformed_cookie_propagates_witness :
  Inline.session sample_clock sample_server [] (fill_form ++ [Submit sample_server])
    malformed_cookies
  = fresh_world malformed_cookies
  /\ Basic.session sample_clock sample_server [] (fill_form ++ [Submit sample_server])
       malformed_cookies
     = fresh_world malformed_cookies.
Proof.
  destruct (malformed_cookie_propagates sample_clock sample_server []
              (fill_form ++ [Submit sample_server]) malformed_cookies)
    as (_ & H2 & H3 & _).
  split.
  - apply (H2 "{oops"); [vm_compute; reflexivity | discriminate | vm_compute; reflexivity].
  - apply (H3 "{oops"); [vm_compute; reflexivity | discriminate | vm_compute; reflexivity].
Defined.


(* ================================================================== *)
(** ** [split] *)

Unset Implicit Arguments.

Lemma strip_prefix_spec (p s r : string) :
  Str.strip_prefix p s = Some r <-> s = p ++ r.
Proof.
  revert s. induction p as [|a p IH]; intros s; simpl.
  - split; congruence.
  - destruct s as [|b s]; [split; discriminate|].
    destruct (Ascii.eqb a b) eqn:E.
    + apply Ascii.eqb_eq in E. subst b. rewrite IH. split; congruence.
    + apply Ascii.eqb_neq in E. split; [discriminate | congruence].
Qed.

Lemma string_length_app (a b : string) : length (a ++ b) = length a + length b.
Proof. induction a; simpl; congruence. Qed.

Section Split.

Variable sep : string.
Hypothesis sep_nonempty : sep <> "".

Lemma strip_prefix_shorter (s r : string) :
  Str.strip_prefix sep s = Some r -> length r < length s.
Proof.
  intros H. apply strip_prefix_spec in H. subst s. rewrite string_length_app.
  destruct sep; [congruence | simpl; lia].
Qed.

(** The result of [split_go] does not depend on the fuel once there is
    more of it than characters. *)
Lemma split_go_fuel (f1 f2 : nat) (s : string) :
  length s < f1 -> length s < f2 -> Str.split_go f1 sep s = Str.split_go f2 sep s.
Proof.
  revert f2 s. induction f1 as [|f1 IH]; intros f2 s H1 H2; [lia|].
  destruct f2 as [|f2]; [lia|]. simpl.
  destruct s as [|c s]; [reflexivity|].
  destruct (Str.strip_prefix sep (String c s)) as [r|] eqn:E.
  - apply strip_prefix_shorter in E. f_equal. apply IH; simpl in *; lia.
  - f_equal. apply IH; simpl in *; lia.
Qed.

Lemma split_go_step (f : nat) (c : ascii) (s : string) :
  Str.split_go (S f) sep (String c s) =
  match Str.strip_prefix sep (String c s) with
  | Some rest => "" :: Str.split_go f sep rest
  | None => Str.cons_head c (Str.split_go f sep s)
  end.
Proof. reflexivity. Qed.

Lemma split_match (c : ascii) (s r : string) :
  Str.strip_prefix sep (String c s) = Some r ->
  Str.split (String c s) sep = "" :: Str.split r sep.
Proof.
  intros E. unfold Str.split. rewrite split_go_step, E. f_equal.
  apply strip_prefix_shorter in E. apply split_go_fuel; simpl in *; lia.
Qed.

Lemma split_no_match (c : ascii) (s : string) :
  Str.strip_prefix sep (String c s) = None ->
  Str.split (String c s) sep = Str.cons_head c (Str.split s sep).
Proof.
  intros E. unfold Str.split. rewrite split_go_step, E. reflexivity.
Qed.

Lemma split_not_nil (s : string) : Str.split s sep <> [].
Proof.
  unfold Str.split. generalize (S (length s)). intros f. revert s.
  induction f as [|f IH]; intros s; simpl; [discriminate|].
  destruct s as [|c s]; [discriminate|].
  destruct (Str.strip_prefix sep (String c s)); [discriminate|].
  specialize (IH s). destruct (Str.split_go f sep s); [congruence | discriminate].
Qed.

End Split.

(** Text without the first character of the separator belongs to the
    piece being read. *)
Lemma split_through (a : ascii) (sep' t rest : string) :
  Str.contains_char a t = false ->
  Str.split (t ++ rest) (String a sep') = prepend t (Str.split rest (String a sep')).
Proof.
  intros H.
  assert (Hsep : String a sep' <> "") by discriminate.
  pose proof (split_not_nil (String a sep') rest) as Hn.
  induction t as [|c t IH]; simpl.
  - destruct (Str.split rest (String a sep')); [congruence | reflexivity].
  - simpl in H. apply orb_false_iff in H. destruct H as [Hc Ht].
    rewrite split_no_match.
    + rewrite (IH Ht).
      destruct (Str.split rest (String a sep')); [congruence | reflexivity].
    + simpl. rewrite Ascii.eqb_sym, Hc. reflexivity.
Qed.

(** [text.split(";")[0]] is the text up to the first semicolon. *)
Lemma split_semicolon_head (t rest : string) :
  Str.contains_char ";" t = false ->
  rest = "" \/ (exists r, rest = String ";" r) ->
  hd "" (Str.split (t ++ rest) ";") = t.
Proof.
  intros Ht Hr. rewrite split_through by exact Ht.
  assert (Hsep : ";" <> "") by discriminate.
  destruct Hr as [->|[r ->]].
  - simpl. apply string_app_nil.
  - rewrite (split_match _ Hsep ";" r r) by reflexivity.
    simpl. apply string_app_nil.
Qed.

(* ================================================================== *)
(** ** Reading a cookie back *)

Lemma contains_char_app (a : ascii) (s t : string) :
  Str.contains_char a (s ++ t) = Str.contains_char a s || Str.contains_char a t.
Proof. induction s as [|c s IH]; simpl; [reflexivity|]. rewrite IH. apply orb_assoc. Qed.

Lemma segs_shape (j : Cookie.jar) : segs j = "" \/ exists r, segs j = String ";" r.
Proof. destruct j; [now left | right; simpl; eauto]. Qed.

Lemma document_cookie_segs (j : Cookie.jar) :
  j <> [] -> "; " ++ Cookie.document_cookie j = segs j.
Proof.
  unfold Cookie.document_cookie. induction j as [|c j IH]; [congruence|]. intros _.
  destruct j as [|c' j].
  - simpl. now rewrite string_app_nil.
  - change (segs (c :: c' :: j)) with ("; " ++ Cookie.pair_text c ++ segs (c' :: j)).
    rewrite <- IH by discriminate.
    change (map Cookie.pair_text (c :: c' :: j))
      with (Cookie.pair_text c :: map Cookie.pair_text (c' :: j)).
    cbn [Str.join map]. reflexivity.
Qed.

(** Matching [name=] against the text of a cookie. *)
Lemma strip_name (name n r : string) :
  Str.contains_char "=" name = false -> Str.contains_char "=" n = false ->
  Str.strip_prefix (name ++ "=") (n ++ "=" ++ r) = if String.eqb name n then Some r else None.
Proof.
  revert n. induction name as [|a name IH]; intros n Hname Hn.
  - destruct n as [|c n]; [reflexivity|].
    cbn [Str.contains_char] in Hn. apply orb_false_iff in Hn. destruct Hn as [Hc _].
    cbn [append Str.strip_prefix String.eqb]. rewrite Ascii.eqb_sym, Hc. reflexivity.
  - cbn [Str.contains_char] in Hname. apply orb_false_iff in Hname.
    destruct Hname as [Ha Hname].
    destruct n as [|c n]; cbn [append Str.strip_prefix String.eqb].
    + rewrite Ha. reflexivity.
    + cbn [Str.contains_char] in Hn. apply orb_false_iff in Hn. destruct Hn as [_ Hn].
      destruct (Ascii.eqb a c); [apply IH; assumption | reflexivity].
Qed.

Section ReadCookie.

Variable name : string.
Hypothesis name_plain : Str.contains_char "=" name = false.

Local Abbreviation sep := (String ";" (String " " (name ++ "="))).

Lemma lookup_absent (j : Cookie.jar) :
  ~ In name (map fst j) -> Cookie.lookup name j = None.
Proof.
  induction j as [|[n v] j IH]; simpl; [reflexivity|]. intros H.
  destruct (String.eqb name n) eqn:E.
  - apply String.eqb_eq in E. subst n. exfalso. apply H. now left.
  - apply IH. intros Hin. apply H. now right.
Qed.

Lemma split_segs (j : Cookie.jar) :
  jar_ok j ->
  match Cookie.lookup name j with
  | None => Str.split (segs j) sep = [segs j]
  | Some v =>
      exists a b, Str.split (segs j) sep = [a; v ++ b]
                  /\ (b = "" \/ exists r, b = String ";" r)
  end.
Proof.
  assert (Hsep : sep <> "") by discriminate.
  intros [Hok Hnd]. induction j as [|[n v] j IH]; [reflexivity|].
  inversion Hok as [|? ? (Hn0 & Hn1 & Hn2 & Hv) Hok']; subst.
  inversion Hnd as [|? ? Hnotin Hnd']; subst. simpl in Hn0, Hn1, Hn2, Hv, Hnotin.
  specialize (IH Hok' Hnd').
  assert (Hsegs : segs ((n, v) :: j) = String ";" (String " " (n ++ "=" ++ v) ++ segs j)).
  { cbn [segs]. unfold Cookie.pair_text. destruct n; [congruence|].
    cbn [String.eqb append]. now rewrite !string_app_assoc. }
  assert (Hstrip : Str.strip_prefix sep (segs ((n, v) :: j))
                   = if String.eqb name n then Some (v ++ segs j) else None).
  { rewrite Hsegs. cbn [append Str.strip_prefix Ascii.eqb Bool.eqb].
    rewrite !string_app_assoc. cbn [append]. now apply strip_name. }
  cbn [Cookie.lookup].
  destruct (String.eqb name n) eqn:E.
  - apply String.eqb_eq in E. subst n.
    exists "", (segs j). split; [|apply segs_shape].
    rewrite Hsegs in *. rewrite (split_match _ Hsep _ _ _ Hstrip). f_equal.
    rewrite split_through by exact Hv.
    rewrite (lookup_absent j Hnotin) in IH. rewrite IH. reflexivity.
  - rewrite Hsegs in *. rewrite (split_no_match _ _ _ Hstrip).
    assert (Ht : Str.contains_char ";" (String " " (n ++ "=" ++ v)) = false).
    { cbn [Str.contains_char]. rewrite !contains_char_app, Hn1, Hv. reflexivity. }
    rewrite split_through by exact Ht.
    destruct (Cookie.lookup name j) as [v0|].
    + destruct IH as (a & b & -> & Hb). simpl. eauto.
    + rewrite IH. reflexivity.
Qed.

Lemma lookup_plain (j : Cookie.jar) (n v : string) :
  Forall cookie_ok j -> Cookie.lookup n j = Some v -> Str.contains_char ";" v = false.
Proof.
  induction j as [|[n' v'] j IH]; simpl; intros H; [discriminate|].
  inversion H as [|? ? (_ & _ & _ & Hv') H']; subst.
  destruct (String.eqb n n'); [intros [= <-]; exact Hv' | now apply IH].
Qed.

(** The pieces [getCookie] obtains: one when the jar has no cookie of
    that name, two with the value at the head of the second otherwise. *)
Lemma split_document_cookie (j : Cookie.jar) :
  jar_ok j ->
  match Cookie.lookup name j with
  | None => List.length (Str.split ("; " ++ Cookie.document_cookie j) sep) = 1
  | Some v =>
      exists a b, Str.split ("; " ++ Cookie.document_cookie j) sep = [a; v ++ b]
                  /\ (b = "" \/ exists r, b = String ";" r)
  end.
Proof.
  intros Hj. destruct j as [|c j].
  - cbn [Cookie.lookup Cookie.document_cookie map Str.join append].
    rewrite split_no_match.
    + change (String " " "") with (" " ++ "").
      rewrite split_through by reflexivity. reflexivity.
    + cbn [Str.strip_prefix Ascii.eqb Bool.eqb]. destruct name; reflexivity.
  - rewrite document_cookie_segs by discriminate.
    pose proof (split_segs (c :: j) Hj) as H.
    destruct (Cookie.lookup name (c :: j)) as [v|]; [exact H|].
    rewrite H. reflexivity.
Qed.

(** [getCookie] finds the cookie of that name and decodes its value. *)
Lemma getCookie_lookup (j : Cookie.jar) :
  jar_ok j ->
  Inline.getCookie name j =
  match Cookie.lookup name j with
  | None => Ok None
  | Some v => let* d := URI.decodeURIComponent v in Ok (Some d)
  end.
Proof.
  intros Hj. unfold Inline.getCookie.
  pose proof (split_document_cookie j Hj) as H. cbn [append] in *.
  destruct (Cookie.lookup name j) as [v|] eqn:L.
  - destruct H as (a & b & -> & Hb). cbn [List.length Nat.eqb last].
    rewrite split_semicolon_head; [reflexivity | | exact Hb].
    destruct Hj as [Hok _]. exact (lookup_plain j name v Hok L).
  - rewrite H. reflexivity.
Qed.

(** The same for the reader that does not decode. *)
Lemma Basic_getCookie_lookup (j : Cookie.jar) :
  jar_ok j ->
  if_truthy (Basic.getCookie name j) = if_truthy (Cookie.lookup name j).
Proof.
  intros Hj. unfold Basic.getCookie.
  pose proof (split_document_cookie j Hj) as H. cbn [append] in *.
  destruct (Cookie.lookup name j) as [v|] eqn:L.
  - destruct H as (a & b & -> & Hb). cbn [List.length Nat.eqb last].
    assert (Hv : Str.contains_char ";" v = false).
    { destruct Hj as [Hok _]. exact (lookup_plain j name v Hok L). }
    destruct (if_truthy (Some (v ++ b))) as [t|] eqn:T.
    + assert (t = v ++ b) by (destruct (v ++ b); simpl in T; congruence). subst t.
      now rewrite (split_semicolon_head v b Hv Hb).
    + destruct v; [reflexivity | discriminate].
  - rewrite H. reflexivity.
Qed.

(** The same when the other cookies of the jar may share their names:
    what matters is that the name asked for occurs at most once. *)
Lemma named_absent (j : Cookie.jar) : named name j = 0 -> ~ In name (map fst j).
Proof.
  unfold named. induction j as [|[n v] j IH]; cbn [filter fst map In]; [tauto|].
  destruct (String.eqb name n) eqn:E; cbn [List.length]; [discriminate|].
  intros H [Hn|Hin]; [|exact (IH H Hin)].
  subst n. now rewrite String.eqb_refl in E.
Qed.

Lemma split_segs_counted (j : Cookie.jar) :
  Forall cookie_ok j -> named name j <= 1 ->
  match Cookie.lookup name j with
  | None => Str.split (segs j) sep = [segs j]
  | Some v =>
      exists a b, Str.split (segs j) sep = [a; v ++ b]
                  /\ (b = "" \/ exists r, b = String ";" r)
  end.
Proof.
  assert (Hsep : sep <> "") by discriminate.
  intros Hok Hone. induction j as [|[n v] j IH]; [reflexivity|].
  inversion Hok as [|? ? (Hn0 & Hn1 & Hn2 & Hv) Hok']; subst.
  simpl in Hn0, Hn1, Hn2, Hv.
  assert (Hsegs : segs ((n, v) :: j) = String ";" (String " " (n ++ "=" ++ v) ++ segs j)).
  { cbn [segs]. unfold Cookie.pair_text. destruct n; [congruence|].
    cbn [String.eqb append]. now rewrite !string_app_assoc. }
  assert (Hstrip : Str.strip_prefix sep (segs ((n, v) :: j))
                   = if String.eqb name n then Some (v ++ segs j) else None).
  { rewrite Hsegs. cbn [append Str.strip_prefix Ascii.eqb Bool.eqb].
    rewrite !string_app_assoc. cbn [append]. now apply strip_name. }
  cbn [Cookie.lookup]. unfold named in Hone. cbn [filter fst] in Hone.
  destruct (String.eqb name n) eqn:E.
  - cbn [List.length] in Hone.
    assert (H0 : named name j = 0) by (unfold named; lia).
    assert (IH' := IH Hok' ltac:(lia)).
    apply String.eqb_eq in E. subst n.
    exists "", (segs j). split; [|apply segs_shape].
    rewrite Hsegs in *. rewrite (split_match _ Hsep _ _ _ Hstrip). f_equal.
    rewrite split_through by exact Hv.
    rewrite (lookup_absent j (named_absent j H0)) in IH'. rewrite IH'. reflexivity.
  - specialize (IH Hok' Hone).
    rewrite Hsegs in *. rewrite (split_no_match _ _ _ Hstrip).
    assert (Ht : Str.contains_char ";" (String " " (n ++ "=" ++ v)) = false).
    { cbn [Str.contains_char]. rewrite !contains_char_app, Hn1, Hv. reflexivity. }
    rewrite split_through by exact Ht.
    destruct (Cookie.lookup name j) as [v0|].
    + destruct IH as (a & b & -> & Hb). simpl. eauto.
    + rewrite IH. reflexivity.
Qed.

Lemma split_document_cookie_counted (j : Cookie.jar) :
  Forall cookie_ok j -> named name j <= 1 ->
  match Cookie.lookup name j with
  | None => List.length (Str.split ("; " ++ Cookie.document_cookie j) sep) = 1
  | Some v =>
      exists a b, Str.split ("; " ++ Cookie.document_cookie j) sep = [a; v ++ b]
                  /\ (b = "" \/ exists r, b = String ";" r)
  end.
Proof.
  intros Hok Hone. destruct j as [|c j].
  - cbn [Cookie.lookup Cookie.document_cookie map Str.join append].
    rewrite split_no_match.
    + change (String " " "") with (" " ++ "").
      rewrite split_through by reflexivity. reflexivity.
    + cbn [Str.strip_prefix Ascii.eqb Bool.eqb]. destruct name; reflexivity.
  - rewrite document_cookie_segs by discriminate.
    pose proof (split_segs_counted (c :: j) Hok Hone) as H.
    destruct (Cookie.lookup name (c :: j)) as [v|]; [exact H|].
    rewrite H. reflexivity.
Qed.

Lemma getCookie_lookup_counted (j : Cookie.jar) :
  Forall cookie_ok j -> named name j <= 1 ->
  Inline.getCookie name j =
  match Cookie.lookup name j with
  | None => Ok None
  | Some v => let* d := URI.decodeURIComponent v in Ok (Some d)
  end.
Proof.
  intros Hok Hone. unfold Inline.getCookie.
  pose proof (split_document_cookie_counted j Hok Hone) as H. cbn [append] in *.
  destruct (Cookie.lookup name j) as [v|] eqn:L.
  - destruct H as (a & b & -> & Hb). cbn [List.length Nat.eqb last].
    rewrite split_semicolon_head; [reflexivity | | exact Hb].
    exact (lookup_plain j name v Hok L).
  - rewrite H. reflexivity.
Qed.

Lemma Basic_getCookie_lookup_counted (j : Cookie.jar) :
  Forall cookie_ok j -> named name j <= 1 ->
  if_truthy (Basic.getCookie name j) = if_truthy (Cookie.lookup name j).
Proof.
  intros Hok Hone. unfold Basic.getCookie.
  pose proof (split_document_cookie_counted j Hok Hone) as H. cbn [append] in *.
  destruct (Cookie.lookup name j) as [v|] eqn:L.
  - destruct H as (a & b & -> & Hb). cbn [List.length Nat.eqb last].
    assert (Hv : Str.contains_char ";" v = false) by exact (lookup_plain j name v Hok L).
    destruct (if_truthy (Some (v ++ b))) as [t|] eqn:T.
    + assert (t = v ++ b) by (destruct (v ++ b); simpl in T; congruence). subst t.
      now rewrite (split_semicolon_head v b Hv Hb).
    + destruct v; [reflexivity | discriminate].
  - rewrite H. reflexivity.
Qed.

End ReadCookie.

Lemma prepend_length (t : string) (l : list string) :
  l <> [] -> List.length (prepend t l) = List.length l.
Proof. destruct l; [congruence | reflexivity]. Qed.

Lemma cons_head_length (c : ascii) (l : list string) :
  l <> [] -> List.length (Str.cons_head c l) = List.length l.
Proof. destruct l; [congruence | reflexivity]. Qed.

(** The pieces [getCookie] obtains are one more than the cookies of
    that name. *)
Lemma split_segs_length (name : string) (j : Cookie.jar) :
  Str.contains_char "=" name = false -> Forall cookie_ok j ->
  List.length (Str.split (segs j) (String ";" (String " " (name ++ "="))))
  = S (named name j).
Proof.
  intros Hname Hok.
  assert (Hsep : String ";" (String " " (name ++ "=")) <> "") by discriminate.
  induction j as [|[n v] j IH]; [reflexivity|].
  inversion Hok as [|? ? (Hn0 & Hn1 & Hn2 & Hv) Hok']; subst.
  cbn [fst snd] in Hn0, Hn1, Hn2, Hv. specialize (IH Hok').
  assert (Hsegs : segs ((n, v) :: j) = String ";" (String " " (n ++ "=" ++ v) ++ segs j)).
  { cbn [segs]. unfold Cookie.pair_text. destruct n; [congruence|].
    cbn [String.eqb append]. now rewrite !string_app_assoc. }
  assert (Hstrip : Str.strip_prefix (String ";" (String " " (name ++ "=")))
                     (segs ((n, v) :: j))
                   = if String.eqb name n then Some (v ++ segs j) else None).
  { rewrite Hsegs. cbn [append Str.strip_prefix Ascii.eqb Bool.eqb].
    rewrite !string_app_assoc. cbn [append]. now apply strip_name. }
  pose proof (split_not_nil (String ";" (String " " (name ++ "="))) (segs j)) as Hnn.
  unfold named in *. cbn [filter fst].
  destruct (String.eqb name n) eqn:E.
  - rewrite Hsegs in *. rewrite (split_match _ Hsep _ _ _ Hstrip).
    rewrite split_through by exact Hv. cbn [List.length].
    rewrite prepend_length by exact Hnn. now rewrite IH.
  - rewrite Hsegs in *. rewrite (split_no_match _ _ _ Hstrip).
    assert (Ht : Str.contains_char ";" (String " " (n ++ "=" ++ v)) = false).
    { cbn [Str.contains_char]. rewrite !contains_char_app, Hn1, Hv. reflexivity. }
    rewrite split_through by exact Ht.
    rewrite cons_head_length, prepend_length; try exact Hnn; [exact IH|].
    destruct (Str.split (segs j) _); [congruence | discriminate].
Qed.





(* ================================================================== *)
(** ** Writing a cookie *)

Lemma forallb_char_app (p : ascii -> bool) (s t : string) :
  Str.forallb_char p (s ++ t) = Str.forallb_char p s && Str.forallb_char p t.
Proof. induction s as [|c s IH]; simpl; [reflexivity|]. rewrite IH. apply andb_assoc. Qed.

Lemma cookie_safe_app (s t : string) : cookie_safe (s ++ t) = cookie_safe s && cookie_safe t.
Proof. apply forallb_char_app. Qed.

Lemma cookie_safe_no_semicolon (s : string) :
  cookie_safe s = true -> Str.contains_char ";" s = false.
Proof.
  induction s as [|c s IH]; simpl; [reflexivity|]. intros H.
  apply andb_true_iff in H. destruct H as [Hc Hs].
  unfold cookie_safe_char in Hc. apply andb_true_iff in Hc. destruct Hc as [Hc _].
  apply negb_true_iff in Hc. rewrite Hc. now apply IH.
Qed.

Lemma trim_left_safe (s : string) : cookie_safe s = true -> Str.trim_left s = s.
Proof.
  destruct s as [|c s]; simpl; [reflexivity|]. intros H.
  apply andb_true_iff in H. destruct H as [Hc _].
  unfold cookie_safe_char in Hc. apply andb_true_iff in Hc. destruct Hc as [_ Hc].
  apply negb_true_iff in Hc. now rewrite Hc.
Qed.

Lemma trim_right_safe (s : string) : cookie_safe s = true -> Str.trim_right s = s.
Proof.
  induction s as [|c s IH]; simpl; [reflexivity|]. intros H.
  apply andb_true_iff in H. destruct H as [Hc Hs].
  unfold cookie_safe_char in Hc. apply andb_true_iff in Hc. destruct Hc as [_ Hc].
  apply negb_true_iff in Hc. rewrite (IH Hs), Hc. destruct s; reflexivity.
Qed.

Lemma trim_safe (s : string) : cookie_safe s = true -> Str.trim s = s.
Proof.
  intros H. unfold Str.trim. rewrite (trim_left_safe s H). now apply trim_right_safe.
Qed.

Lemma name_value_split (n v : string) :
  Str.contains_char "=" n = false ->
  Cookie.name_value (n ++ "=" ++ v) = Some (n, v).
Proof.
  induction n as [|c n IH]; [reflexivity|]. intros H.
  cbn [Str.contains_char] in H. apply orb_false_iff in H. destruct H as [Hc Hn].
  change (String c n ++ "=" ++ v) with (String c (n ++ "=" ++ v)).
  cbn [Cookie.name_value]. rewrite Hc, (IH Hn). reflexivity.
Qed.

(** Writing [name=text; path=/; max-age=31536000] stores [text] under
    [name]. *)
Lemma set_document_cookie_put (n text : string) (j : Cookie.jar) :
  n <> "" -> Str.contains_char "=" n = false -> cookie_safe n = true ->
  cookie_safe text = true ->
  Cookie.set_document_cookie (n ++ "=" ++ text ++ cookie_attributes) j = Cookie.put n text j.
Proof.
  intros Hne Heq Hn Ht. unfold Cookie.set_document_cookie.
  replace (n ++ "=" ++ text ++ cookie_attributes)
    with ((n ++ "=" ++ text) ++ cookie_attributes)
    by (now rewrite !string_app_assoc).
  rewrite split_semicolon_head.
  - rewrite (name_value_split n text Heq), (trim_safe n Hn), (trim_safe text Ht).
    destruct n; [congruence | reflexivity].
  - apply cookie_safe_no_semicolon. rewrite !cookie_safe_app, Hn, Ht. reflexivity.
  - right. unfold cookie_attributes. eauto.
Qed.

Lemma lookup_put_same (n v : string) (j : Cookie.jar) :
  Cookie.lookup n (Cookie.put n v j) = Some v.
Proof.
  induction j as [|[n' v'] j IH]; simpl.
  - now rewrite String.eqb_refl.
  - destruct (String.eqb n n') eqn:E; simpl; rewrite E; [reflexivity | exact IH].
Qed.

Lemma lookup_put_other (n m v : string) (j : Cookie.jar) :
  m <> n -> Cookie.lookup m (Cookie.put n v j) = Cookie.lookup m j.
Proof.
  intros Hm. induction j as [|[n' v'] j IH]; simpl.
  - apply String.eqb_neq in Hm. now rewrite Hm.
  - destruct (String.eqb n n') eqn:E; simpl.
    + apply String.eqb_eq in E. subst n'.
      apply String.eqb_neq in Hm. now rewrite Hm.
    + now rewrite IH.
Qed.

Lemma put_names (n v : string) (j : Cookie.jar) :
  map fst (Cookie.put n v j) = if in_dec string_dec n (map fst j) then map fst j
                               else (map fst j ++ [n])%list.
Proof.
  induction j as [|[n' v'] j IH]; simpl; [reflexivity|].
  destruct (String.eqb n n') eqn:E.
  - apply String.eqb_eq in E. subst n'. simpl.
    destruct (string_dec n n); [reflexivity | congruence].
  - apply String.eqb_neq in E. simpl. rewrite IH.
    destruct (string_dec n' n); [congruence|].
    destruct (in_dec string_dec n (map fst j)); reflexivity.
Qed.

Lemma put_ok (n v : string) (j : Cookie.jar) :
  jar_ok j -> cookie_ok (n, v) -> jar_ok (Cookie.put n v j).
Proof.
  intros [Hok Hnd] Hc. split.
  - clear Hnd. induction j as [|[n' v'] j IH]; simpl; [auto|].
    inversion Hok as [|? ? Hc' Hok']; subst.
    destruct (String.eqb n n') eqn:E.
    + apply String.eqb_eq in E. subst n'. constructor; [exact Hc | exact Hok'].
    + constructor; auto.
  - rewrite put_names. destruct (in_dec string_dec n (map fst j)) as [|Hn]; [exact Hnd|].
    apply NoDup_app; [exact Hnd | constructor; [intros [] | constructor] |].
    intros x Hx [<-|[]]. contradiction.
Qed.

Lemma put_cookies_ok (n v : string) (j : Cookie.jar) :
  Forall cookie_ok j -> cookie_ok (n, v) -> Forall cookie_ok (Cookie.put n v j).
Proof.
  intros Hok Hc. induction j as [|[n' v'] j IH]; simpl; [auto|].
  inversion Hok as [|? ? Hc' Hok']; subst.
  destruct (String.eqb n n') eqn:E.
  - apply String.eqb_eq in E. subst n'. constructor; [exact Hc | exact Hok'].
  - constructor; auto.
Qed.

(** A cookie that occurs at most once occurs once after it is set. *)
Lemma named_put (n v : string) (j : Cookie.jar) :
  named n j <= 1 -> named n (Cookie.put n v j) = 1.
Proof.
  unfold named. induction j as [|[n' v'] j IH]; cbn [Cookie.put filter fst].
  - intros _. cbn [filter fst]. now rewrite String.eqb_refl.
  - destruct (String.eqb n n') eqn:E; cbn [filter fst]; rewrite E; cbn [List.length].
    + lia.
    + exact IH.
Qed.

(* ================================================================== *)
(** ** Percent-encoding *)

(** Text without [%] decodes to itself. *)
Lemma decode_plain (s : string) :
  Str.contains_char "%" s = false -> URI.decodeURIComponent s = Ok s.
Proof.
  unfold URI.decodeURIComponent. induction s as [|c s IH]; [reflexivity|].
  cbn [Str.contains_char]. intros H. apply orb_false_iff in H. destruct H as [Hc Hs].
  cbn [URI.decode_go]. rewrite Hc, (IH Hs). reflexivity.
Qed.

Lemma encode_char_safe (c : ascii) :
  cookie_safe (URI.encode_char c) = true
  /\ Str.contains_char "=" (URI.encode_char c) = false.
Proof. each_char c; split; reflexivity. Qed.

(** The encoded text has no [;], no [=] and no blank. *)
Lemma encode_safe (s : string) :
  cookie_safe (URI.encodeURIComponent s) = true
  /\ Str.contains_char "=" (URI.encodeURIComponent s) = false.
Proof.
  induction s as [|c s [IH1 IH2]]; [split; reflexivity|].
  cbn [URI.encodeURIComponent]. destruct (encode_char_safe c) as [H1 H2].
  rewrite cookie_safe_app, contains_char_app, H1, H2, IH1, IH2. split; reflexivity.
Qed.

(** Decoding what was written for an ASCII character. *)
Lemma uri_safe_app (s t : string) : uri_safe (s ++ t) = uri_safe s && uri_safe t.
Proof. apply forallb_char_app. Qed.

Lemma encode_char_uri_safe (c : ascii) : uri_safe (URI.encode_char c) = true.
Proof. each_char c; reflexivity. Qed.

(** The encoded text is made of unreserved characters and [%]. *)
Lemma encode_uri_safe (s : string) : uri_safe (URI.encodeURIComponent s) = true.
Proof.
  induction s as [|c s IH]; [reflexivity|].
  cbn [URI.encodeURIComponent]. now rewrite uri_safe_app, encode_char_uri_safe, IH.
Qed.

Lemma decode_ascii_char (c : ascii) (rest : string) :
  Nat.ltb (nat_of_ascii c) 128 = true ->
  URI.decode_go [] 0 (URI.encode_char c ++ rest)
  = let* r := URI.decode_go [] 0 rest in Ok (String c r).
Proof. each_char c; intros H; try discriminate H; reflexivity. Qed.

(** Decoding what was written for an octet of a multi-byte character. *)
Lemma decode_escaped_octet (c : ascii) (pending : list nat) (need : nat) (rest : string) :
  Nat.ltb (nat_of_ascii c) 128 = false ->
  URI.decode_go pending need (URI.encode_char c ++ rest)
  = let B := nat_of_ascii c in
    match need with
    | O =>
        match URI.sequence_length B with
        | Some n => URI.decode_go [B] (n - 1) rest
        | None => Throw URIError
        end
    | S k =>
        if URI.is_continuation B then
          match k with
          | O =>
              if URI.valid_octets (pending ++ [B])%list then
                let* r := URI.decode_go [] 0 rest in
                Ok (URI.string_of_octets (pending ++ [B])%list ++ r)
              else Throw URIError
          | S _ => URI.decode_go (pending ++ [B])%list k rest
          end
        else Throw URIError
    end.
Proof.
  each_char c; intros H; try discriminate H; destruct need as [|[|k]]; reflexivity.
Qed.

Lemma continuation_not_ascii (b : nat) :
  URI.is_continuation b = true -> Nat.ltb b 128 = false.
Proof.
  unfold URI.is_continuation. intros H. apply andb_true_iff in H. destruct H as [H _].
  apply Nat.leb_le in H. apply Nat.ltb_ge. exact H.
Qed.

(** [decodeURIComponent] undoes [encodeURIComponent]. *)
Lemma decode_encode (s : string) :
  valid_utf8 s = true ->
  URI.decodeURIComponent (URI.encodeURIComponent s) = Ok s.
Proof.
  unfold URI.decodeURIComponent.
  assert (G : forall n s, length s <= n -> valid_utf8 s = true ->
                          URI.decode_go [] 0 (URI.encodeURIComponent s) = Ok s);
    [|intros H; now apply (G (length s))].
  clear s. induction n as [|n IH]; intros s Hlen Hv.
  { destruct s; [reflexivity | simpl in Hlen; lia]. }
  destruct s as [|c0 r0]; [reflexivity|].
  cbn [valid_utf8] in Hv. cbn [URI.encodeURIComponent]. cbv zeta in Hv.
  destruct (Nat.ltb (nat_of_ascii c0) 128) eqn:E0.
  { rewrite decode_ascii_char by exact E0.
    rewrite IH; [reflexivity | simpl in Hlen; lia | exact Hv]. }
  rewrite decode_escaped_octet by exact E0. cbv zeta.
  destruct (URI.sequence_length (nat_of_ascii c0)) as [[|[|[|[|[|m]]]]]|];
    try discriminate Hv.
  - (* two octets *)
    destruct r0 as [|c1 r1]; [discriminate Hv|].
    apply andb_true_iff in Hv. destruct Hv as [Hv V1].
    apply andb_true_iff in Hv. destruct Hv as [C1 O].
    cbn [URI.encodeURIComponent Nat.sub].
    rewrite decode_escaped_octet by (now apply continuation_not_ascii).
    cbv zeta. cbn [app]. rewrite C1, O.
    rewrite IH; [|simpl in Hlen; lia | exact V1].
    cbn [bind URI.string_of_octets append]. now rewrite !ascii_nat_embedding.
  - (* three octets *)
    destruct r0 as [|c1 [|c2 r2]]; try discriminate Hv.
    apply andb_true_iff in Hv. destruct Hv as [Hv V2].
    apply andb_true_iff in Hv. destruct Hv as [Hv O].
    apply andb_true_iff in Hv. destruct Hv as [C1 C2].
    cbn [URI.encodeURIComponent Nat.sub].
    rewrite decode_escaped_octet by (now apply continuation_not_ascii).
    cbv zeta. cbn [app]. rewrite C1.
    rewrite decode_escaped_octet by (now apply continuation_not_ascii).
    cbv zeta. cbn [app]. rewrite C2, O.
    rewrite IH; [|simpl in Hlen; lia | exact V2].
    cbn [bind URI.string_of_octets append]. now rewrite !ascii_nat_embedding.
  - (* four octets *)
    destruct r0 as [|c1 [|c2 [|c3 r3]]]; try discriminate Hv.
    apply andb_true_iff in Hv. destruct Hv as [Hv V3].
    apply andb_true_iff in Hv. destruct Hv as [Hv O].
    apply andb_true_iff in Hv. destruct Hv as [Hv C3].
    apply andb_true_iff in Hv. destruct Hv as [C1 C2].
    cbn [URI.encodeURIComponent Nat.sub].
    rewrite decode_escaped_octet by (now apply continuation_not_ascii).
    cbv zeta. cbn [app]. rewrite C1.
    rewrite decode_escaped_octet by (now apply continuation_not_ascii).
    cbv zeta. cbn [app]. rewrite C2.
    rewrite decode_escaped_octet by (now apply continuation_not_ascii).
    cbv zeta. cbn [app]. rewrite C3, O.
    rewrite IH; [|simpl in Hlen; lia | exact V3].
    cbn [bind URI.string_of_octets append]. now rewrite !ascii_nat_embedding.
Qed.

(* ================================================================== *)
(** ** JSON text of a value is read back *)

(** *** Numbers *)

Lemma digit_char_spec (m : N) :
  (m < 10)%N ->
  URI.is_digit (digit_char m) = true
  /\ digit_val (digit_char m) = m
  /\ (m <> 0%N -> Ascii.eqb (digit_char m) "0" = false).
Proof.
  intros H.
  assert (C : (m = 0 \/ m = 1 \/ m = 2 \/ m = 3 \/ m = 4 \/ m = 5 \/ m = 6 \/ m = 7
               \/ m = 8 \/ m = 9)%N) by lia.
  repeat (destruct C as [->|C]); try subst m;
    (split; [reflexivity | split; [reflexivity | intros; try reflexivity; congruence]]).
Qed.

Lemma read_digits_step (acc : N) (c : ascii) (s : string) :
  URI.is_digit c = true ->
  read_digits acc (String c s) = read_digits (10 * acc + digit_val c) s.
Proof. intros H. cbn [read_digits]. now rewrite H. Qed.

(** Reading the printed digits of [n] from [0] is reading what follows
    them from [n]. *)
Lemma read_print_digits (f : nat) (n : N) (acc : string) :
  (n < 2 ^ N.of_nat f)%N ->
  read_digits 0 (print_digits f n acc) = read_digits n acc.
Proof.
  revert n acc. induction f as [|f IH]; intros n acc Hn.
  - simpl in Hn. assert (n = 0%N) by lia. subst. reflexivity.
  - cbn [print_digits]. cbv zeta.
    assert (Hmod : (n mod 10 < 10)%N) by (apply N.mod_lt; discriminate).
    destruct (digit_char_spec (n mod 10) Hmod) as (Hd & Hv & _).
    destruct (N.ltb n 10) eqn:E.
    + apply N.ltb_lt in E. rewrite N.mod_small in * by exact E.
      rewrite read_digits_step by exact Hd. rewrite Hv. f_equal; lia.
    + apply N.ltb_ge in E. rewrite IH.
      * rewrite read_digits_step by exact Hd. rewrite Hv.
        pose proof (N.div_mod n 10). f_equal; lia.
      * rewrite Nat2N.inj_succ, N.pow_succ_r' in Hn.
        apply N.Div0.div_lt_upper_bound. lia.
Qed.

Lemma print_digits_app (f : nat) (n : N) (acc rest : string) :
  print_digits f n acc ++ rest = print_digits f n (acc ++ rest).
Proof.
  revert n acc. induction f as [|f IH]; intros n acc; [reflexivity|].
  cbn [print_digits]. cbv zeta. destruct (N.ltb n 10); [reflexivity|]. now rewrite IH.
Qed.

Lemma print_digits_head (f : nat) (n : N) (acc : string) :
  (n < 2 ^ N.of_nat (S f))%N ->
  exists c r, print_digits (S f) n acc = String c r
              /\ URI.is_digit c = true
              /\ (n <> 0%N -> Ascii.eqb c "0" = false)
              /\ (n = 0%N -> r = acc).
Proof.
  revert n acc. induction f as [|f IH]; intros n acc Hn.
  - assert (Hlt : (n < 10)%N) by (simpl in Hn; lia).
    cbn [print_digits]. cbv zeta. apply N.ltb_lt in Hlt. rewrite Hlt.
    apply N.ltb_lt in Hlt. rewrite N.mod_small by exact Hlt.
    destruct (digit_char_spec n Hlt) as (Hd & _ & Hz). eauto 7.
  - remember (S f) as f'. cbn [print_digits]. cbv zeta.
    destruct (N.ltb n 10) eqn:E.
    + apply N.ltb_lt in E. rewrite N.mod_small by exact E.
      destruct (digit_char_spec n E) as (Hd & _ & Hz). eauto 7.
    + apply N.ltb_ge in E. subst f'.
      destruct (IH (n / 10)%N (String (digit_char (n mod 10)) acc)) as (c & r & -> & Hd & Hz & _).
      * rewrite Nat2N.inj_succ, N.pow_succ_r' in Hn.
        apply N.Div0.div_lt_upper_bound. lia.
      * exists c, r. repeat split; auto.
        -- intros _. apply Hz. intros H0.
           apply N.div_small_iff in H0; [lia | discriminate].
        -- intros H0. exfalso. lia.
Qed.

Lemma print_N_fuel (n : N) : (n < 2 ^ N.of_nat (S (N.to_nat (N.log2 n))))%N.
Proof.
  rewrite Nat2N.inj_succ, N2Nat.id.
  destruct (N.eq_dec n 0) as [->|Hn]; [reflexivity|].
  apply N.log2_spec. lia.
Qed.

Lemma digit_not_punctuation (c : ascii) :
  URI.is_digit c = true ->
  is_ws c = false /\ Ascii.eqb c "{" = false /\ Ascii.eqb c "[" = false
  /\ Ascii.eqb c Str.dquote = false /\ Ascii.eqb c "-" = false
  /\ Ascii.eqb c "]" = false /\ Ascii.eqb c "}" = false.
Proof. each_char c; intros H; try discriminate H; repeat split; reflexivity. Qed.

Lemma stops_spec (rest : string) :
  stops rest = true ->
  starts_fraction rest = false
  /\ (forall n, read_digits n rest = (n, rest))
  /\ exists r, skip_ws rest = r /\ r = rest.
Proof.
  destruct rest as [|c rest]; [intros _; repeat split; eauto|].
  cbn [stops]. intros H.
  assert (C : c = ","%char \/ c = "]"%char \/ c = "}"%char).
  { apply orb_true_iff in H. destruct H as [H|H].
    - apply orb_true_iff in H. destruct H as [H|H]; apply Ascii.eqb_eq in H; auto.
    - apply Ascii.eqb_eq in H. auto. }
  destruct C as [->|[->| ->]]; repeat split; eauto.
Qed.

(** The printed digits of a number, followed by a delimiter, are read
    back as that number. *)
Lemma parse_int_print (neg : bool) (n : N) (rest : string) :
  N.leb n max_safe = true -> stops rest = true ->
  exists c r,
    print_N n ++ rest = String c r
    /\ URI.is_digit c = true
    /\ parse_int neg c r
       = Ok (JNum (if neg then Z.opp (Z.of_N n) else Z.of_N n), rest).
Proof.
  intros Hmax Hstop. destruct (stops_spec rest Hstop) as (Hfrac & Hread & _).
  assert (Hsafe : N.ltb max_safe n = false) by (apply N.ltb_ge; now apply N.leb_le).
  unfold print_N. rewrite print_digits_app. cbn [append].
  destruct (print_digits_head (N.to_nat (N.log2 n)) n rest (print_N_fuel n))
    as (c & r & Hp & Hd & Hz & H0).
  exists c, r. split; [exact Hp|]. split; [exact Hd|].
  unfold parse_int.
  destruct (N.eq_dec n 0) as [->|Hn].
  - rewrite (H0 eq_refl) in *. cbn in Hp. injection Hp as <-.
    cbn. rewrite Hfrac. reflexivity.
  - rewrite (Hz Hn).
    assert (Hr : read_digits (digit_val c) r = (n, rest)).
    { pose proof (read_print_digits _ n rest (print_N_fuel n)) as H.
      rewrite Hp, read_digits_step in H by exact Hd.
      rewrite Hread in H. rewrite <- H. f_equal; lia. }
    rewrite Hr, Hfrac, Hsafe. reflexivity.
Qed.

Lemma parse_value_minus (f : nat) (d : ascii) (r : string) :
  parse_value (S f) (String "-" (String d r))
  = if URI.is_digit d then parse_int true d r else Throw SyntaxError.
Proof. reflexivity. Qed.

Lemma parse_value_number (z : Z) (f : nat) (rest : string) :
  json_wf (JNum z) = true -> stops rest = true ->
  parse_value (S f) (print_Z z ++ rest) = Ok (JNum z, rest).
Proof.
  cbn [json_wf]. intros Hwf Hstop. unfold print_Z.
  destruct (Z.ltb z 0) eqn:E.
  - apply Z.ltb_lt in E.
    destruct (parse_int_print true (Z.abs_N z) rest Hwf Hstop) as (c & r & Hp & Hd & Hi).
    change (String "-" (print_N (Z.abs_N z)) ++ rest)
      with (String "-" (print_N (Z.abs_N z) ++ rest)).
    rewrite Hp, parse_value_minus, Hd, Hi.
    rewrite N2Z.inj_abs_N. do 3 f_equal; lia.
  - apply Z.ltb_ge in E.
    destruct (parse_int_print false (Z.abs_N z) rest Hwf Hstop) as (c & r & Hp & Hd & Hi).
    rewrite Hp. destruct (digit_not_punctuation c Hd) as (W & B1 & B2 & B3 & B4 & _).
    cbn [parse_value skip_ws]. rewrite W, B1, B2, B3, B4, Hd, Hi.
    rewrite N2Z.inj_abs_N. do 3 f_equal; lia.
Qed.

(** *** Strings *)

Lemma parse_escape_char (c : ascii) (r : string) :
  parse_string_body (escape_char c ++ r)
  = let* (t, rest) := parse_string_body r in Ok (String c t, rest).
Proof. each_char c; reflexivity. Qed.

Lemma parse_quoted (s rest : string) :
  parse_string_body (escape s ++ String Str.dquote rest) = Ok (s, rest).
Proof.
  induction s as [|c s IH]; [reflexivity|].
  cbn [escape]. rewrite string_app_assoc, parse_escape_char, IH. reflexivity.
Qed.

(** *** Objects *)

Lemma obj_set_fresh (k : string) (v : json) (fs : list (string * json)) :
  existsb (String.eqb k) (map fst fs) = false ->
  obj_set k v fs = (fs ++ [(k, v)])%list.
Proof.
  induction fs as [|[k' v'] fs IH]; simpl; [reflexivity|]. intros H.
  apply orb_false_iff in H. destruct H as [Hk Hfs]. rewrite Hk, (IH Hfs). reflexivity.
Qed.

Lemma distinct_middle (l1 l2 : list string) (x : string) :
  distinct (l1 ++ x :: l2) = true -> existsb (String.eqb x) l1 = false.
Proof.
  induction l1 as [|a l1 IH]; simpl; [reflexivity|]. intros H.
  apply andb_true_iff in H. destruct H as [Ha Hd].
  apply negb_true_iff in Ha. rewrite existsb_app in Ha.
  apply orb_false_iff in Ha. destruct Ha as [_ Ha]. simpl in Ha.
  apply orb_false_iff in Ha. destruct Ha as [Ha _].
  rewrite String.eqb_sym, Ha. simpl. now apply IH.
Qed.

Lemma fold_obj_set (ms acc : list (string * json)) :
  distinct (map fst (acc ++ ms)) = true ->
  fold_left (fun a kv => obj_set (fst kv) (snd kv) a) ms acc = (acc ++ ms)%list.
Proof.
  revert acc. induction ms as [|[k v] ms IH]; intros acc H; simpl.
  - now rewrite app_nil_r.
  - rewrite obj_set_fresh.
    + rewrite IH; rewrite <- app_assoc; [reflexivity | exact H].
    + rewrite map_app in H. simpl in H. now apply distinct_middle in H.
Qed.

Lemma obj_of_members_distinct (fs : list (string * json)) :
  distinct (map fst fs) = true -> obj_of_members fs = fs.
Proof. intros H. unfold obj_of_members. now rewrite fold_obj_set. Qed.

(** *** First character of the text of a value *)

Lemma stringify_head (v : json) :
  exists c r, stringify v = String c r
              /\ is_ws c = false /\ Ascii.eqb c "]" = false /\ Ascii.eqb c "}" = false.
Proof.
  destruct v as [|[|]|z|s|l|fs]; cbn [stringify quote append];
    try (eexists _, _; repeat split; reflexivity).
  unfold print_Z. destruct (Z.ltb z 0); [eexists _, _; repeat split; reflexivity|].
  unfold print_N.
  destruct (print_digits_head _ (Z.abs_N z) "" (print_N_fuel (Z.abs_N z)))
    as (c & r & -> & Hd & _).
  destruct (digit_not_punctuation c Hd) as (W & _ & _ & _ & _ & B1 & B2).
  eauto 8.
Qed.

Lemma skip_ws_stringify (v : json) (rest : string) :
  exists c r, stringify v ++ rest = String c r /\ skip_ws (String c r) = String c r
              /\ Ascii.eqb c "]" = false /\ Ascii.eqb c "}" = false.
Proof.
  destruct (stringify_head v) as (c & r & -> & W & B1 & B2).
  exists c, (r ++ rest). cbn [append skip_ws]. rewrite W. auto.
Qed.

(** *** One step of the parser *)

Lemma parse_value_array (f : nat) (r : string) :
  parse_value (S f) (String "[" r)
  = match skip_ws r with
    | EmptyString => Throw SyntaxError
    | String c2 r2 =>
        if Ascii.eqb c2 "]" then Ok (JArr [], r2)
        else let* (vs, r3) := parse_elements f r in Ok (JArr vs, r3)
    end.
Proof. reflexivity. Qed.

Lemma parse_value_object (f : nat) (r : string) :
  parse_value (S f) (String "{" r)
  = match skip_ws r with
    | EmptyString => Throw SyntaxError
    | String c2 r2 =>
        if Ascii.eqb c2 "}" then Ok (JObj [], r2)
        else let* (ms, r3) := parse_members f r in Ok (JObj (obj_of_members ms), r3)
    end.
Proof. reflexivity. Qed.

Lemma parse_value_string (f : nat) (r : string) :
  parse_value (S f) (String Str.dquote r)
  = let* (t, r1) := parse_string_body r in Ok (JStr t, r1).
Proof. reflexivity. Qed.

Lemma parse_elements_step (f : nat) (s : string) :
  parse_elements (S f) s
  = let* (v, r) := parse_value f s in
    match skip_ws r with
    | EmptyString => Throw SyntaxError
    | String c r1 =>
        if Ascii.eqb c "," then
          let* (vs, r2) := parse_elements f r1 in Ok (v :: vs, r2)
        else if Ascii.eqb c "]" then Ok ([v], r1)
        else Throw SyntaxError
    end.
Proof. reflexivity. Qed.

Lemma parse_members_step (f : nat) (r : string) :
  parse_members (S f) (String Str.dquote r)
  = let* (k, r1) := parse_string_body r in
    match skip_ws r1 with
    | EmptyString => Throw SyntaxError
    | String c1 r2 =>
        if Ascii.eqb c1 ":" then
          let* (v, r3) := parse_value f r2 in
          match skip_ws r3 with
          | EmptyString => Throw SyntaxError
          | String c3 r4 =>
              if Ascii.eqb c3 "," then
                let* (ms, r5) := parse_members f r4 in Ok ((k, v) :: ms, r5)
              else if Ascii.eqb c3 "}" then Ok ([(k, v)], r4)
              else Throw SyntaxError
          end
        else Throw SyntaxError
    end.
Proof. reflexivity. Qed.

(** *** The text of a value is parsed back to the value *)

Lemma parse_elements_stringify (l : list json) :
  l <> [] -> Forall reads_back l -> forallb json_wf l = true ->
  forall f rest,
    list_sum (map (fun x => S (cost x)) l) <= f ->
    parse_elements f (Str.join "," (map stringify l) ++ String "]" rest) = Ok (l, rest).
Proof.
  induction l as [|x l IH]; [congruence|]. intros _ HP Hwf f rest Hf.
  inversion HP as [|? ? Hx HP']; subst.
  cbn [forallb] in Hwf. apply andb_true_iff in Hwf. destruct Hwf as [Wx Wl].
  cbn [map list_sum fold_right] in Hf. destruct f as [|f]; [lia|].
  rewrite parse_elements_step. destruct l as [|y l].
  - cbn [map Str.join]. rewrite (Hx Wx f (String "]" rest)) by (reflexivity || lia).
    reflexivity.
  - change (Str.join "," (map stringify (x :: y :: l)))
      with (stringify x ++ "," ++ Str.join "," (map stringify (y :: l))).
    rewrite !string_app_assoc.
    rewrite (Hx Wx f) by (reflexivity || lia).
    cbn [bind append skip_ws]. change (is_ws ",") with false. cbn [Ascii.eqb Bool.eqb].
    rewrite IH; [reflexivity | discriminate | exact HP' | exact Wl |].
    cbn [map list_sum fold_right] in *. lia.
Qed.

Lemma parse_members_stringify (fs : list (string * json)) :
  fs <> [] -> Forall (fun kv => reads_back (snd kv)) fs ->
  forallb (fun kv => let '(_, x) := kv in json_wf x) fs = true ->
  forall f rest,
    list_sum (map (fun kv => let '(_, x) := kv in S (cost x)) fs) <= f ->
    parse_members f (Str.join "," (map member_text fs) ++ String "}" rest) = Ok (fs, rest).
Proof.
  induction fs as [|[k x] fs IH]; [congruence|]. intros _ HP Hwf f rest Hf.
  inversion HP as [|? ? Hx HP']; subst. cbn [snd] in Hx.
  cbn [forallb] in Hwf. apply andb_true_iff in Hwf. destruct Hwf as [Wx Wl].
  cbn [map list_sum fold_right] in Hf. destruct f as [|f]; [lia|].
  destruct fs as [|kv fs].
  - cbn [map Str.join member_text quote append].
    rewrite !string_app_assoc. cbn [append].
    rewrite parse_members_step, ?string_app_assoc. cbn [append].
    rewrite parse_quoted. cbn [bind skip_ws]. change (is_ws ":") with false.
    cbn [Ascii.eqb Bool.eqb]. rewrite ?string_app_assoc.
    rewrite (Hx Wx f) by (reflexivity || lia). reflexivity.
  - change (Str.join "," (map member_text ((k, x) :: kv :: fs)))
      with (member_text (k, x) ++ "," ++ Str.join "," (map member_text (kv :: fs))).
    cbn [member_text quote append].
    rewrite !string_app_assoc. cbn [append].
    rewrite parse_members_step, ?string_app_assoc. cbn [append].
    rewrite parse_quoted. cbn [bind skip_ws]. change (is_ws ":") with false.
    cbn [Ascii.eqb Bool.eqb]. rewrite ?string_app_assoc.
    rewrite (Hx Wx f) by (reflexivity || lia).
    cbn [bind append skip_ws]. change (is_ws ",") with false. cbn [Ascii.eqb Bool.eqb].
    rewrite IH; [reflexivity | discriminate | exact HP' | exact Wl |].
    cbn [map list_sum fold_right] in *. lia.
Qed.

Lemma stringify_object (fs : list (string * json)) :
  stringify (JObj fs) = "{" ++ Str.join "," (map member_text fs) ++ "}".
Proof. reflexivity. Qed.

Lemma join_head (f : json -> string) (x : json) (l : list json) (rest : string) :
  exists tail, Str.join "," (map f (x :: l)) ++ rest = f x ++ tail.
Proof.
  destruct l as [|y l]; cbn [map Str.join]; [eauto|].
  rewrite !string_app_assoc. eauto.
Qed.

Lemma parse_value_stringify (v : json) : reads_back v.
Proof.
  induction v as [| b | z | s | l IH | fs IH] using json_induction;
    intros Hwf f rest Hf Hstop; cbn [cost] in Hf; (destruct f as [|f]; [lia|]).
  - reflexivity.
  - destruct b; reflexivity.
  - now apply parse_value_number.
  - cbn [stringify quote append]. rewrite parse_value_string, string_app_assoc.
    cbn [append]. rewrite parse_quoted. reflexivity.
  - cbn [stringify json_wf] in *. cbn [append]. rewrite parse_value_array.
    destruct l as [|x l]; [reflexivity|].
    rewrite !string_app_assoc. cbn [append].
    destruct (join_head stringify x l (String "]" rest)) as (tail & E).
    destruct (skip_ws_stringify x tail) as (c & r & E' & W & B & _).
    rewrite E, E', W, B, <- E', <- E.
    rewrite (parse_elements_stringify (x :: l)) by (auto; (discriminate || lia)).
    reflexivity.
  - cbn [json_wf] in Hwf. apply andb_true_iff in Hwf. destruct Hwf as [Hd Hwf].
    rewrite stringify_object.
    cbn [append]. rewrite parse_value_object.
    destruct fs as [|[k x] fs]; [reflexivity|].
    rewrite !string_app_assoc. cbn [append].
    assert (Hhead : exists r,
               Str.join "," (map member_text ((k, x) :: fs)) ++ String "}" rest
               = String Str.dquote r).
    { destruct fs as [|kv fs]; cbn [map Str.join member_text quote append]; eauto. }
    destruct Hhead as (r & E). rewrite E. cbn [skip_ws].
    change (is_ws Str.dquote) with false.
    change (Ascii.eqb Str.dquote "}") with false. cbv iota. rewrite <- E.
    rewrite (parse_members_stringify ((k, x) :: fs)) by (auto; (discriminate || lia)).
    cbn [bind]. now rewrite obj_of_members_distinct.
Qed.

(** *** Enough fuel *)

Lemma join_cost (l : list (nat * string)) :
  Forall (fun p => fst p <= 2 * length (snd p)) l ->
  list_sum (map (fun p => S (fst p)) l) <= 2 * length (Str.join "," (map snd l)) + 2.
Proof.
  induction l as [|[n t] l IH]; intros H; [simpl; lia|].
  inversion H as [|? ? Hn Hl]; subst. specialize (IH Hl). cbn [fst snd] in Hn.
  destruct l as [|[m u] l].
  - simpl. lia.
  - change (Str.join "," (map snd ((n, t) :: (m, u) :: l)))
      with (t ++ "," ++ Str.join "," (map snd ((m, u) :: l))).
    rewrite !string_length_app.
    change (list_sum (map (fun p => S (fst p)) ((n, t) :: (m, u) :: l)))
      with (S n + list_sum (map (fun p => S (fst p)) ((m, u) :: l))).
    change (length ",") with 1. lia.
Qed.

Lemma cost_bound (v : json) : cost v <= 2 * length (stringify v).
Proof.
  induction v as [| b | z | s | l IH | fs IH] using json_induction.
  - simpl. lia.
  - destruct b; simpl; lia.
  - destruct (stringify_head (JNum z)) as (c & r & E & _). rewrite E. simpl. lia.
  - destruct (stringify_head (JStr s)) as (c & r & E & _). rewrite E. simpl. lia.
  - cbn [cost stringify]. rewrite !string_length_app. simpl length.
    pose proof (join_cost (map (fun x => (cost x, stringify x)) l)) as H.
    rewrite !map_map in H. cbn [fst snd] in H.
    assert (Hl : Forall (fun p : nat * string => fst p <= 2 * length (snd p))
                   (map (fun x => (cost x, stringify x)) l)).
    { clear H. induction IH; constructor; auto. }
    specialize (H Hl).
    change (map (fun x : json => stringify x) l) with (map stringify l) in H. lia.
  - rewrite stringify_object. cbn [cost]. rewrite !string_length_app. simpl length.
    pose proof (join_cost (map (fun kv : string * json =>
                                  (cost (snd kv), member_text kv)) fs)) as H.
    rewrite !map_map in H. cbn [fst snd] in H.
    assert (Hl : Forall (fun p : nat * string => fst p <= 2 * length (snd p))
                   (map (fun kv : string * json => (cost (snd kv), member_text kv)) fs)).
    { clear H. induction IH as [|[k x] fs Hx _ IHfs]; constructor; auto.
      cbn [fst snd member_text] in *. rewrite !string_length_app. lia. }
    specialize (H Hl).
    assert (Hsum : map (fun kv : string * json => let '(_, x) := kv in S (cost x)) fs
                   = map (fun x : string * json => S (cost (snd x))) fs).
    { apply map_ext. intros [k x]. reflexivity. }
    rewrite Hsum.
    assert (Hjoin : map (fun x : string * json => member_text x) fs = map member_text fs)
      by reflexivity.
    rewrite Hjoin in H. lia.
Qed.

(** [JSON.parse] undoes [JSON.stringify]. *)
Lemma parse_stringify (v : json) :
  json_wf v = true -> JSON.parse (JSON.stringify v) = Ok v.
Proof.
  intros Hwf. unfold JSON.parse.
  pose proof (parse_value_stringify v Hwf (2 * length (stringify v) + 2) "") as H.
  rewrite string_app_nil in H. rewrite H; [reflexivity | | reflexivity].
  pose proof (cost_bound v). lia.
Qed.

(* ================================================================== *)
(** ** What [JSON.parse] returns is well formed *)

Lemma distinct_snoc (l : list string) (k : string) :
  distinct l = true -> existsb (String.eqb k) l = false -> distinct (l ++ [k]) = true.
Proof.
  induction l as [|a l IH]; simpl; [reflexivity|]. intros Hd Hk.
  apply andb_true_iff in Hd. destruct Hd as [Ha Hd].
  apply orb_false_iff in Hk. destruct Hk as [Hka Hk].
  rewrite existsb_app. simpl. rewrite String.eqb_sym, Hka.
  apply negb_true_iff in Ha. rewrite Ha. simpl. now apply IH.
Qed.

Lemma obj_set_names (k : string) (v : json) (fs : list (string * json)) :
  map fst (obj_set k v fs)
  = if existsb (String.eqb k) (map fst fs) then map fst fs else (map fst fs ++ [k])%list.
Proof.
  induction fs as [|[k' v'] fs IH]; simpl; [reflexivity|].
  destruct (String.eqb k k'); simpl; [reflexivity|].
  rewrite IH. destruct (existsb _ _); reflexivity.
Qed.

Lemma obj_set_distinct (k : string) (v : json) (fs : list (string * json)) :
  distinct (map fst fs) = true -> distinct (map fst (obj_set k v fs)) = true.
Proof.
  intros H. rewrite obj_set_names.
  destruct (existsb (String.eqb k) (map fst fs)) eqn:E; [exact H|].
  now apply distinct_snoc.
Qed.

Lemma obj_set_forallb (p : json -> bool) (k : string) (v : json)
    (fs : list (string * json)) :
  p v = true ->
  forallb (fun kv => let '(_, x) := kv in p x) fs = true ->
  forallb (fun kv => let '(_, x) := kv in p x) (obj_set k v fs) = true.
Proof.
  intros Hv. induction fs as [|[k' v'] fs IH]; simpl; [now rewrite Hv|]. intros H.
  apply andb_true_iff in H. destruct H as [H1 H2].
  destruct (String.eqb k k'); simpl; [now rewrite Hv, H2 | now rewrite H1, IH].
Qed.

Lemma obj_of_members_wf (ms : list (string * json)) :
  forallb (fun kv => let '(_, x) := kv in json_wf x) ms = true ->
  json_wf (JObj (obj_of_members ms)) = true.
Proof.
  intros H. unfold obj_of_members.
  assert (G : forall acc,
             json_wf (JObj acc) = true ->
             json_wf (JObj (fold_left (fun a kv => obj_set (fst kv) (snd kv) a) ms acc))
             = true).
  { induction ms as [|[k v] ms IH]; intros acc Hacc; [exact Hacc|].
    simpl in H. apply andb_true_iff in H. destruct H as [Hv Hms].
    simpl. apply IH; [exact Hms|].
    cbn [json_wf] in *. apply andb_true_iff in Hacc. destruct Hacc as [Hd Hf].
    rewrite obj_set_distinct by exact Hd.
    now rewrite (obj_set_forallb json_wf k v acc Hv Hf). }
  now apply G.
Qed.

Lemma parse_int_wf (neg : bool) (c : ascii) (r : string) (v : json) (rest : string) :
  parse_int neg c r = Ok (v, rest) -> json_wf v = true.
Proof.
  unfold parse_int.
  destruct (if Ascii.eqb c "0" then (0%N, r) else read_digits (digit_val c) r) as [n s].
  destruct (starts_fraction s); [discriminate|].
  destruct (N.ltb max_safe n) eqn:E; [discriminate|]. intros [= <- _].
  apply N.ltb_ge in E. cbn [json_wf]. apply N.leb_le.
  destruct neg; [rewrite Zabs2N.inj_opp|]; rewrite Zabs2N.id; exact E.
Qed.

Ltac split_result H :=
  match type of H with
  | bind ?r _ = Ok _ =>
      let E := fresh "E" in
      destruct r as [[? ?]|] eqn:E; cbn [bind] in H; [|discriminate H]
  end.

Lemma parse_wf_fuel (f : nat) :
  (forall s v r, parse_value f s = Ok (v, r) -> json_wf v = true)
  /\ (forall s l r, parse_elements f s = Ok (l, r) -> forallb json_wf l = true)
  /\ (forall s ms r, parse_members f s = Ok (ms, r) ->
                     forallb (fun kv => let '(_, x) := kv in json_wf x) ms = true).
Proof.
  induction f as [|f (IHv & IHe & IHm)]; [repeat split; discriminate|].
  split; [|split].
  - intros s v r. cbn [parse_value].
    destruct (skip_ws s) as [|c t]; [discriminate|].
    destruct (Ascii.eqb c "{").
    { destruct (skip_ws t) as [|c2 r2]; [discriminate|].
      destruct (Ascii.eqb c2 "}"); [now intros [= <- _]|].
      intros H. split_result H. injection H as <- _.
      apply obj_of_members_wf. eapply IHm; eauto. }
    destruct (Ascii.eqb c "[").
    { destruct (skip_ws t) as [|c2 r2]; [discriminate|].
      destruct (Ascii.eqb c2 "]"); [now intros [= <- _]|].
      intros H. split_result H. injection H as <- _.
      cbn [json_wf]. eapply IHe; eauto. }
    destruct (Ascii.eqb c Str.dquote).
    { intros H. split_result H. now injection H as <- _. }
    destruct (Ascii.eqb c "-").
    { destruct t as [|d r1]; [discriminate|].
      destruct (URI.is_digit d); [apply parse_int_wf | discriminate]. }
    destruct (URI.is_digit c); [apply parse_int_wf|].
    unfold parse_literal.
    destruct (Ascii.eqb c "t").
    { destruct (Str.strip_prefix "rue" t); [now intros [= <- _] | discriminate]. }
    destruct (Ascii.eqb c "f").
    { destruct (Str.strip_prefix "alse" t); [now intros [= <- _] | discriminate]. }
    destruct (Ascii.eqb c "n"); [|discriminate].
    destruct (Str.strip_prefix "ull" t); [now intros [= <- _] | discriminate].
  - intros s l r. rewrite parse_elements_step. intros H. split_result H.
    destruct (skip_ws s0) as [|c r1]; [discriminate|].
    destruct (Ascii.eqb c ",").
    { split_result H. injection H as <- _. cbn [forallb].
      rewrite (IHv _ _ _ E), (IHe _ _ _ E0). reflexivity. }
    destruct (Ascii.eqb c "]"); [|discriminate].
    injection H as <- _. cbn [forallb]. now rewrite (IHv _ _ _ E).
  - intros s ms r. cbn [parse_members].
    destruct (skip_ws s) as [|c t]; [discriminate|].
    destruct (Ascii.eqb c Str.dquote); [|discriminate].
    intros H. split_result H.
    destruct (skip_ws s1) as [|c1 r2]; [discriminate|].
    destruct (Ascii.eqb c1 ":"); [|discriminate].
    split_result H.
    destruct (skip_ws s2) as [|c3 r4]; [discriminate|].
    destruct (Ascii.eqb c3 ",").
    { split_result H. injection H as <- _. cbn [forallb].
      rewrite (IHv _ _ _ E0), (IHm _ _ _ E1). reflexivity. }
    destruct (Ascii.eqb c3 "}"); [|discriminate].
    injection H as <- _. cbn [forallb]. now rewrite (IHv _ _ _ E0).
Qed.

Lemma parse_wf (s : string) (v : json) : JSON.parse s = Ok v -> json_wf v = true.
Proof.
  unfold JSON.parse. intros H. split_result H.
  destruct (skip_ws s0); [|discriminate]. injection H as <-.
  exact (proj1 (parse_wf_fuel _) _ _ _ E).
Qed.

(** Setting the consent flag keeps the record well formed. *)
Lemma assign_consent_wf (value : bool) (r r' : json) :
  json_wf r = true -> assign_consent value r = Ok r' -> json_wf r' = true.
Proof.
  intros Hwf. unfold assign_consent.
  destruct r as [| | | | |fs]; try discriminate.
  destruct (obj_get "consent" fs) as [[| | | |l|cs]|] eqn:G; try discriminate.
  - now intros [= <-].
  - intros [= <-]. cbn [json_wf] in *.
    apply andb_true_iff in Hwf. destruct Hwf as [Hd Hf].
    rewrite obj_set_distinct by exact Hd. apply obj_set_forallb; [|exact Hf].
    assert (Hcs : json_wf (JObj cs) = true).
    { clear - G Hf. induction fs as [|[k x] fs IH]; [discriminate|].
      cbn [obj_get forallb] in G, Hf. apply andb_true_iff in Hf. destruct Hf as [Hx Hf].
      destruct (String.eqb "consent" k); [now injection G as -> | now apply IH]. }
    cbn [json_wf] in *. apply andb_true_iff in Hcs. destruct Hcs as [Hd' Hf'].
    rewrite obj_set_distinct by exact Hd'. now apply obj_set_forallb.
Qed.

(* ================================================================== *)
(** ** Well-formed text *)

Lemma utf8_induction (P : string -> Prop) :
  P "" ->
  (forall c r, is_ascii c = true -> valid_utf8 r = true -> P r -> P (String c r)) ->
  (forall c0 c1 r,
      is_ascii c0 = false -> URI.sequence_length (nat_of_ascii c0) = Some 2 ->
      URI.is_continuation (nat_of_ascii c1) = true ->
      URI.valid_octets [nat_of_ascii c0; nat_of_ascii c1] = true ->
      valid_utf8 r = true -> P r -> P (String c0 (String c1 r))) ->
  (forall c0 c1 c2 r,
      is_ascii c0 = false -> URI.sequence_length (nat_of_ascii c0) = Some 3 ->
      URI.is_continuation (nat_of_ascii c1) = true ->
      URI.is_continuation (nat_of_ascii c2) = true ->
      URI.valid_octets [nat_of_ascii c0; nat_of_ascii c1; nat_of_ascii c2] = true ->
      valid_utf8 r = true -> P r -> P (String c0 (String c1 (String c2 r)))) ->
  (forall c0 c1 c2 c3 r,
      is_ascii c0 = false -> URI.sequence_length (nat_of_ascii c0) = Some 4 ->
      URI.is_continuation (nat_of_ascii c1) = true ->
      URI.is_continuation (nat_of_ascii c2) = true ->
      URI.is_continuation (nat_of_ascii c3) = true ->
      URI.valid_octets [nat_of_ascii c0; nat_of_ascii c1; nat_of_ascii c2; nat_of_ascii c3]
      = true ->
      valid_utf8 r = true -> P r -> P (String c0 (String c1 (String c2 (String c3 r))))) ->
  forall s, valid_utf8 s = true -> P s.
Proof.
  intros H0 H1 H2 H3 H4 s.
  assert (G : forall n s, length s <= n -> valid_utf8 s = true -> P s);
    [|now apply (G (length s))].
  clear s. induction n as [|n IH]; intros s Hlen Hv.
  { destruct s; [exact H0 | simpl in Hlen; lia]. }
  destruct s as [|c0 r0]; [exact H0|].
  cbn [valid_utf8] in Hv. cbv zeta in Hv. fold (is_ascii c0) in Hv.
  destruct (is_ascii c0) eqn:E0.
  { apply H1; auto. apply IH; [simpl in Hlen; lia | exact Hv]. }
  destruct (URI.sequence_length (nat_of_ascii c0)) as [[|[|[|[|[|m]]]]]|] eqn:L;
    try discriminate Hv.
  - destruct r0 as [|c1 r1]; [discriminate Hv|].
    apply andb_true_iff in Hv. destruct Hv as [Hv V1].
    apply andb_true_iff in Hv. destruct Hv as [C1 O].
    apply H2; auto. apply IH; [simpl in Hlen; lia | exact V1].
  - destruct r0 as [|c1 [|c2 r2]]; try discriminate Hv.
    apply andb_true_iff in Hv. destruct Hv as [Hv V2].
    apply andb_true_iff in Hv. destruct Hv as [Hv O].
    apply andb_true_iff in Hv. destruct Hv as [C1 C2].
    apply H3; auto. apply IH; [simpl in Hlen; lia | exact V2].
  - destruct r0 as [|c1 [|c2 [|c3 r3]]]; try discriminate Hv.
    apply andb_true_iff in Hv. destruct Hv as [Hv V3].
    apply andb_true_iff in Hv. destruct Hv as [Hv O].
    apply andb_true_iff in Hv. destruct Hv as [Hv C3].
    apply andb_true_iff in Hv. destruct Hv as [C1 C2].
    apply H4; auto. apply IH; [simpl in Hlen; lia | exact V3].
Qed.

Lemma valid_utf8_ascii_app (a b : string) :
  ascii_text a = true -> valid_utf8 (a ++ b) = valid_utf8 b.
Proof.
  induction a as [|c a IH]; [reflexivity|]. cbn [ascii_text Str.forallb_char].
  intros H. apply andb_true_iff in H. destruct H as [Hc Ha].
  cbn [append valid_utf8]. cbv zeta. fold (is_ascii c). rewrite Hc. now apply IH.
Qed.

Lemma valid_utf8_ascii (a : string) : ascii_text a = true -> valid_utf8 a = true.
Proof.
  intros H. rewrite <- (string_app_nil a). now rewrite valid_utf8_ascii_app.
Qed.

Lemma valid_utf8_app (a b : string) :
  valid_utf8 a = true -> valid_utf8 b = true -> valid_utf8 (a ++ b) = true.
Proof.
  intros Ha Hb. revert a Ha.
  apply (utf8_induction (fun a => valid_utf8 (a ++ b) = true)).
  - exact Hb.
  - intros c r Hc _ IH. cbn [append valid_utf8]. cbv zeta. fold (is_ascii c).
    now rewrite Hc.
  - intros c0 c1 r E0 L C1 O _ IH. cbn [append valid_utf8]. cbv zeta.
    fold (is_ascii c0). now rewrite E0, L, C1, O, IH.
  - intros c0 c1 c2 r E0 L C1 C2 O _ IH. cbn [append valid_utf8]. cbv zeta.
    fold (is_ascii c0). now rewrite E0, L, C1, C2, O, IH.
  - intros c0 c1 c2 c3 r E0 L C1 C2 C3 O _ IH. cbn [append valid_utf8]. cbv zeta.
    fold (is_ascii c0). now rewrite E0, L, C1, C2, C3, O, IH.
Qed.

Lemma escape_char_ascii (c : ascii) :
  is_ascii c = true -> ascii_text (escape_char c) = true.
Proof. each_char c; intros H; try discriminate H; reflexivity. Qed.

Lemma escape_char_high (c : ascii) :
  is_ascii c = false -> escape_char c = String c "".
Proof. each_char c; intros H; try discriminate H; reflexivity. Qed.

Lemma continuation_high (c : ascii) :
  URI.is_continuation (nat_of_ascii c) = true -> is_ascii c = false.
Proof. apply continuation_not_ascii. Qed.

Lemma valid_utf8_escape (s : string) :
  valid_utf8 s = true -> valid_utf8 (escape s) = true.
Proof.
  apply (utf8_induction (fun s => valid_utf8 (escape s) = true)).
  - reflexivity.
  - intros c r Hc _ IH. cbn [escape].
    now rewrite valid_utf8_ascii_app by (now apply escape_char_ascii).
  - intros c0 c1 r E0 L C1 O _ IH. cbn [escape].
    rewrite (escape_char_high c0 E0), (escape_char_high c1 (continuation_high c1 C1)).
    cbn [append valid_utf8]. cbv zeta. fold (is_ascii c0). now rewrite E0, L, C1, O, IH.
  - intros c0 c1 c2 r E0 L C1 C2 O _ IH. cbn [escape].
    rewrite (escape_char_high c0 E0), (escape_char_high c1 (continuation_high c1 C1)),
      (escape_char_high c2 (continuation_high c2 C2)).
    cbn [append valid_utf8]. cbv zeta. fold (is_ascii c0).
    now rewrite E0, L, C1, C2, O, IH.
  - intros c0 c1 c2 c3 r E0 L C1 C2 C3 O _ IH. cbn [escape].
    rewrite (escape_char_high c0 E0), (escape_char_high c1 (continuation_high c1 C1)),
      (escape_char_high c2 (continuation_high c2 C2)),
      (escape_char_high c3 (continuation_high c3 C3)).
    cbn [append valid_utf8]. cbv zeta. fold (is_ascii c0).
    now rewrite E0, L, C1, C2, C3, O, IH.
Qed.

Lemma digit_ascii (c : ascii) : URI.is_digit c = true -> is_ascii c = true.
Proof. each_char c; intros H; try discriminate H; reflexivity. Qed.

Lemma print_digits_forall (p : ascii -> bool) (f : nat) (n : N) (acc : string) :
  (forall c, URI.is_digit c = true -> p c = true) ->
  Str.forallb_char p acc = true -> Str.forallb_char p (print_digits f n acc) = true.
Proof.
  intros Hp. revert n acc. induction f as [|f IH]; intros n acc H; [exact H|].
  cbn [print_digits]. cbv zeta.
  assert (Hmod : (n mod 10 < 10)%N) by (apply N.mod_lt; discriminate).
  destruct (digit_char_spec (n mod 10) Hmod) as (Hd & _ & _).
  assert (H' : Str.forallb_char p (String (digit_char (n mod 10)) acc) = true).
  { cbn [Str.forallb_char]. rewrite (Hp _ Hd). exact H. }
  destruct (N.ltb n 10); [exact H' | now apply IH].
Qed.

Lemma print_Z_forall (p : ascii -> bool) (z : Z) :
  (forall c, URI.is_digit c = true -> p c = true) -> p "-"%char = true ->
  Str.forallb_char p (print_Z z) = true.
Proof.
  intros Hp Hm. unfold print_Z, print_N. destruct (Z.ltb z 0).
  - cbn [Str.forallb_char]. rewrite Hm. now apply print_digits_forall.
  - now apply print_digits_forall.
Qed.

Lemma print_Z_ascii (z : Z) : ascii_text (print_Z z) = true.
Proof. apply print_Z_forall; [exact digit_ascii | reflexivity]. Qed.

Lemma valid_quote (s : string) : valid_utf8 s = true -> valid_utf8 (quote s) = true.
Proof.
  intros H. unfold quote.
  change (String Str.dquote (escape s ++ String Str.dquote ""))
    with (String Str.dquote "" ++ (escape s ++ String Str.dquote "")).
  rewrite valid_utf8_ascii_app by reflexivity.
  apply valid_utf8_app; [now apply valid_utf8_escape | reflexivity].
Qed.

Lemma valid_join (texts : list string) :
  Forall (fun t => valid_utf8 t = true) texts -> valid_utf8 (Str.join "," texts) = true.
Proof.
  induction texts as [|t texts IH]; intros H; [reflexivity|].
  inversion H as [|? ? Ht Hts]; subst. destruct texts as [|u texts]; [exact Ht|].
  change (Str.join "," (t :: u :: texts)) with (t ++ "," ++ Str.join "," (u :: texts)).
  apply valid_utf8_app; [exact Ht|].
  rewrite valid_utf8_ascii_app by reflexivity. now apply IH.
Qed.

(** The text of a value whose strings are well formed is well formed. *)
Lemma stringify_valid (v : json) :
  json_text v = true -> valid_utf8 (stringify v) = true.
Proof.
  induction v as [| b | z | s | l IH | fs IH] using json_induction; intros H.
  - reflexivity.
  - destruct b; reflexivity.
  - apply valid_utf8_ascii, print_Z_ascii.
  - now apply valid_quote.
  - cbn [stringify json_text] in *.
    rewrite valid_utf8_ascii_app by reflexivity.
    apply valid_utf8_app; [|reflexivity]. apply valid_join.
    induction IH as [|x l Hx _ IHl]; [constructor|].
    cbn [forallb] in H. apply andb_true_iff in H. destruct H as [H1 H2].
    constructor; auto.
  - rewrite stringify_object. cbn [json_text] in H.
    rewrite valid_utf8_ascii_app by reflexivity.
    apply valid_utf8_app; [|reflexivity]. apply valid_join.
    induction IH as [|[k x] fs Hx _ IHfs]; [constructor|].
    cbn [forallb] in H. apply andb_true_iff in H. destruct H as [H1 H2].
    apply andb_true_iff in H1. destruct H1 as [Hk Hv].
    constructor; [|auto]. cbn [member_text snd] in *.
    apply valid_utf8_app; [now apply valid_quote|].
    rewrite valid_utf8_ascii_app by reflexivity. auto.
Qed.

Lemma obj_set_text (k : string) (v : json) (fs : list (string * json)) :
  valid_utf8 k = true -> json_text v = true ->
  json_text (JObj fs) = true -> json_text (JObj (obj_set k v fs)) = true.
Proof.
  intros Hk Hv. cbn [json_text].
  induction fs as [|[k' v'] fs IH]; simpl; [now rewrite Hk, Hv|]. intros H.
  apply andb_true_iff in H. destruct H as [H1 H2].
  destruct (String.eqb k k') eqn:E; simpl.
  - apply String.eqb_eq in E. subst k'. now rewrite Hk, Hv, H2.
  - now rewrite H1, IH.
Qed.

Lemma obj_get_text (k : string) (fs : list (string * json)) (v : json) :
  json_text (JObj fs) = true -> obj_get k fs = Some v -> json_text v = true.
Proof.
  cbn [json_text]. induction fs as [|[k' v'] fs IH]; [discriminate|].
  cbn [obj_get forallb]. intros H. apply andb_true_iff in H. destruct H as [H1 H2].
  apply andb_true_iff in H1. destruct H1 as [_ Hv'].
  destruct (String.eqb k k'); [now intros [= <-] | now apply IH].
Qed.

Lemma assign_consent_text (value : bool) (r r' : json) :
  json_text r = true -> assign_consent value r = Ok r' -> json_text r' = true.
Proof.
  intros Ht. unfold assign_consent.
  destruct r as [| | | | |fs]; try discriminate.
  destruct (obj_get "consent" fs) as [[| | | |l|cs]|] eqn:G; try discriminate.
  - now intros [= <-].
  - intros [= <-]. apply obj_set_text; [reflexivity | | exact Ht].
    apply obj_set_text; [reflexivity | reflexivity |].
    exact (obj_get_text "consent" fs (JObj cs) Ht G).
Qed.

(* ================================================================== *)
(** ** The consent record in its cookie *)

Lemma plain_app (s t : string) : plain (s ++ t) = plain s && plain t.
Proof. apply forallb_char_app. Qed.

Lemma plain_spec (s : string) :
  plain s = true ->
  cookie_safe s = true /\ Str.contains_char "%" s = false
  /\ Str.contains_char "=" s = false /\ Str.contains_char ";" s = false.
Proof.
  intros H.
  assert (G : cookie_safe s = true /\ Str.contains_char "%" s = false
              /\ Str.contains_char "=" s = false).
  { induction s as [|c s IH]; [repeat split|].
    cbn [plain Str.forallb_char] in H. apply andb_true_iff in H. destruct H as [Hc Hs].
    destruct (IH Hs) as (I1 & I2 & I3).
    unfold plain_char in Hc. apply andb_true_iff in Hc. destruct Hc as [Hc C3].
    apply andb_true_iff in Hc. destruct Hc as [C1 C2].
    apply negb_true_iff in C2, C3.
    cbn [cookie_safe Str.forallb_char Str.contains_char].
    fold (cookie_safe s). now rewrite C1, C2, C3, I1, I2, I3. }
  destruct G as (G1 & G2 & G3). repeat split; auto.
  now apply cookie_safe_no_semicolon.
Qed.

Lemma word_spec (s : string) : word s = true -> plain s = true /\ escape s = s.
Proof.
  induction s as [|c s IH]; [split; reflexivity|].
  cbn [word Str.forallb_char]. intros H. apply andb_true_iff in H. destruct H as [Hc Hs].
  destruct (IH Hs) as [P E]. unfold word_char in Hc.
  apply andb_true_iff in Hc. destruct Hc as [Hp He]. apply String.eqb_eq in He.
  cbn [plain Str.forallb_char escape]. fold (plain s). now rewrite Hp, P, He, E.
Qed.

Lemma token_char_word (c : ascii) : token_char c = true -> word_char c = true.
Proof. each_char c; intros H; try discriminate H; reflexivity. Qed.

Lemma token_word (s : string) : Str.forallb_char token_char s = true -> word s = true.
Proof.
  induction s as [|c s IH]; [reflexivity|].
  cbn [word Str.forallb_char]. intros H. apply andb_true_iff in H. destruct H as [Hc Hs].
  fold (word s). now rewrite (token_char_word c Hc), IH.
Qed.

Lemma digit_plain (c : ascii) : URI.is_digit c = true -> plain_char c = true.
Proof. each_char c; intros H; try discriminate H; reflexivity. Qed.

Lemma plain_cons (c : ascii) (s : string) : plain (String c s) = plain_char c && plain s.
Proof. reflexivity. Qed.

Lemma plain_quote (s : string) : word s = true -> plain (quote s) = true.
Proof.
  intros H. destruct (word_spec s H) as [P E]. unfold quote.
  now rewrite E, plain_cons, plain_app, P.
Qed.

Lemma plain_join (texts : list string) :
  Forall (fun t => plain t = true) texts -> plain (Str.join "," texts) = true.
Proof.
  induction texts as [|t texts IH]; intros H; [reflexivity|].
  inversion H as [|? ? Ht Hts]; subst. destruct texts as [|u texts]; [exact Ht|].
  change (Str.join "," (t :: u :: texts)) with (t ++ "," ++ Str.join "," (u :: texts)).
  rewrite !plain_app, Ht, IH by exact Hts. reflexivity.
Qed.

(** The text of a value made of words has no character that a cookie
    or percent-decoding would treat specially. *)
Lemma plain_stringify (v : json) : json_plain v = true -> plain (JSON.stringify v) = true.
Proof.
  induction v as [| b | z | s | l IH | fs IH] using json_induction; intros H.
  - reflexivity.
  - destruct b; reflexivity.
  - apply print_Z_forall; [exact digit_plain | reflexivity].
  - now apply plain_quote.
  - cbn [stringify json_plain] in *. rewrite !plain_app.
    rewrite plain_join; [reflexivity|].
    induction IH as [|x l Hx _ IHl]; [constructor|].
    cbn [forallb] in H. apply andb_true_iff in H. destruct H as [H1 H2].
    constructor; auto.
  - rewrite stringify_object. cbn [json_plain] in H. rewrite !plain_app.
    rewrite plain_join; [reflexivity|].
    induction IH as [|[k x] fs Hx _ IHfs]; [constructor|].
    cbn [forallb] in H. apply andb_true_iff in H. destruct H as [H1 H2].
    apply andb_true_iff in H1. destruct H1 as [Hk Hv].
    constructor; [|auto]. cbn [member_text snd] in *.
    rewrite !plain_app, plain_quote, Hx by auto. reflexivity.
Qed.

(** The text written for a new record. *)
Lemma consentObject_text (c : clock) :
  clock_ok c ->
  plain (JSON.stringify (consentObject c)) = true
  /\ json_wf (consentObject c) = true.
Proof.
  intros (Hu & Hc & Hm). split; [|reflexivity].
  apply plain_stringify. unfold consentObject. cbn [json_plain forallb].
  rewrite (token_word _ Hu), (token_word _ Hc), (token_word _ Hm). reflexivity.
Qed.

Lemma token_char_ascii (c : ascii) : token_char c = true -> is_ascii c = true.
Proof. each_char c; intros H; try discriminate H; reflexivity. Qed.

Lemma token_valid (s : string) : Str.forallb_char token_char s = true -> valid_utf8 s = true.
Proof.
  intros H. apply valid_utf8_ascii. unfold ascii_text.
  induction s as [|c s IH]; [reflexivity|].
  cbn [Str.forallb_char] in *. apply andb_true_iff in H. destruct H as [Hc Hs].
  now rewrite (token_char_ascii c Hc), IH.
Qed.

Lemma consentObject_json_text (c : clock) : clock_ok c -> json_text (consentObject c) = true.
Proof.
  intros (Hu & Hc & Hm). unfold consentObject. cbn [json_text forallb].
  rewrite (token_valid _ Hu), (token_valid _ Hc), (token_valid _ Hm). reflexivity.
Qed.

Lemma stringify_nonempty (v : json) : if_truthy (Some (JSON.stringify v)) = Some (JSON.stringify v).
Proof. destruct (stringify_head v) as (c & r & -> & _). reflexivity. Qed.

Lemma cookieName_ok (text : string) :
  Str.contains_char ";" text = false -> cookie_ok (cookieName, text).
Proof. intros H. repeat split; [discriminate | exact H]. Qed.

(** Reading back what [setOrCheckFidesConsentCookie] or
    [updateConsentCookie] wrote. *)
Lemma load_put (j : Cookie.jar) (text : string) (v : json) :
  jar_ok j -> Str.contains_char ";" text = false ->
  URI.decodeURIComponent text = Ok (JSON.stringify v) -> json_wf v = true ->
  load (Cookie.put cookieName text j) = Ok (Some v).
Proof.
  intros Hj Hsemi Hdec Hwf. unfold load.
  rewrite (getCookie_lookup cookieName eq_refl)
    by (apply put_ok; [exact Hj | now apply cookieName_ok]).
  rewrite lookup_put_same, Hdec. cbn [bind].
  rewrite stringify_nonempty, parse_stringify by exact Hwf. reflexivity.
Qed.

Lemma load_put_counted (j : Cookie.jar) (text : string) (v : json) :
  Forall cookie_ok j -> named cookieName j <= 1 ->
  Str.contains_char ";" text = false ->
  URI.decodeURIComponent text = Ok (JSON.stringify v) -> json_wf v = true ->
  load (Cookie.put cookieName text j) = Ok (Some v).
Proof.
  intros Hok Hone Hsemi Hdec Hwf. unfold load.
  rewrite (getCookie_lookup_counted cookieName eq_refl)
    by (try (apply put_cookies_ok; [exact Hok | now apply cookieName_ok]);
        rewrite named_put by exact Hone; lia).
  rewrite lookup_put_same, Hdec. cbn [bind].
  rewrite stringify_nonempty, parse_stringify by exact Hwf. reflexivity.
Qed.

(** Creation of the record when the jar has none. *)
Lemma setOrCheck_creates (c : clock) (j : Cookie.jar) :
  jar_ok j -> clock_ok c -> load j = Ok None ->
  Inline.setOrCheckFidesConsentCookie c j
  = (Ok (consentObject c), Cookie.put cookieName (JSON.stringify (consentObject c)) j)
  /\ load (Cookie.put cookieName (JSON.stringify (consentObject c)) j)
     = Ok (Some (consentObject c)).
Proof.
  intros Hj Hc Hload.
  destruct (consentObject_text c Hc) as [Hplain Hwf].
  destruct (plain_spec _ Hplain) as (Hsafe & Hpct & Heq & Hsemi).
  split.
  - unfold Inline.setOrCheckFidesConsentCookie. unfold load in Hload.
    destruct (Inline.getCookie cookieName j) as [text|e]; [|discriminate].
    cbn [bind] in Hload.
    destruct (if_truthy text) as [t|].
    + destruct (JSON.parse t); discriminate.
    + now rewrite set_document_cookie_put by (auto; discriminate).
  - apply load_put; auto. now apply decode_plain.
Qed.

(** A record that loads is returned as it is by every call. *)
Lemma setOrCheck_loaded (c : clock) (j : Cookie.jar) (v : json) :
  load j = Ok (Some v) -> Inline.setOrCheckFidesConsentCookie c j = (Ok v, j).
Proof.
  unfold load, Inline.setOrCheckFidesConsentCookie.
  destruct (Inline.getCookie cookieName j) as [text|e]; [|discriminate].
  cbn [bind]. destruct (if_truthy text) as [t|]; [|discriminate].
  destruct (JSON.parse t) as [v'|e]; [|discriminate]. now intros [= ->].
Qed.

Lemma ensure_calls_loaded (cs : list clock) (j : Cookie.jar) (v : json) :
  load j = Ok (Some v) -> ensure_calls cs j = (repeat (Ok v) (List.length cs), j).
Proof.
  intros H. induction cs as [|c cs IH]; [reflexivity|].
  cbn [ensure_calls]. rewrite (setOrCheck_loaded c j v H), IH. reflexivity.
Qed.

(* ================================================================== *)
(** ** Identity, round trip and update of the record *)

(** Calls on a jar that every call leaves as it is, with the same
    result. *)
Lemma ensure_calls_fixed (cs : list clock) (j : Cookie.jar) (res : result json) :
  (forall c, Inline.setOrCheckFidesConsentCookie c j = (res, j)) ->
  ensure_calls cs j = (repeat res (List.length cs), j).
Proof.
  intros H. induction cs as [|c cs IH]; [reflexivity|].
  cbn [ensure_calls]. rewrite (H c), IH. reflexivity.
Qed.

Lemma Basic_ensure_calls_fixed (cs : list clock) (j : Cookie.jar) (res : result json) :
  (forall c, Basic.setOrCheckFidesConsentCookie c j = (res, j)) ->
  Basic_ensure_calls cs j = (repeat res (List.length cs), j).
Proof.
  intros H. induction cs as [|c cs IH]; [reflexivity|].
  cbn [Basic_ensure_calls]. rewrite (H c), IH. reflexivity.
Qed.

(** The cookie written for a new record, in a jar that showed the
    consent cookie at most once: both readers find the record in it. *)
Lemma created_cookie_read (c : clock) (j : Cookie.jar) :
  Forall cookie_ok j -> named cookieName j <= 1 -> clock_ok c ->
  let j1 := Cookie.put cookieName (JSON.stringify (consentObject c)) j in
  Cookie.set_document_cookie
    (cookieName ++ "=" ++ JSON.stringify (consentObject c) ++ cookie_attributes) j = j1
  /\ (forall c', Inline.setOrCheckFidesConsentCookie c' j1 = (Ok (consentObject c), j1))
  /\ (forall c', Basic.setOrCheckFidesConsentCookie c' j1 = (Ok (consentObject c), j1))
  /\ load j1 = Ok (Some (consentObject c)).
Proof.
  intros Hok Hone Hc. cbv zeta.
  destruct (consentObject_text c Hc) as [Hplain Hwf].
  destruct (plain_spec _ Hplain) as (Hsafe & Hpct & Heq & Hsemi).
  set (text := JSON.stringify (consentObject c)) in *.
  assert (Hok1 : Forall cookie_ok (Cookie.put cookieName text j))
    by (apply put_cookies_ok; [exact Hok | now apply cookieName_ok]).
  assert (Hone1 : named cookieName (Cookie.put cookieName text j) <= 1)
    by (rewrite named_put by exact Hone; lia).
  assert (Hget : Inline.getCookie cookieName (Cookie.put cookieName text j) = Ok (Some text)).
  { rewrite (getCookie_lookup_counted cookieName eq_refl _ Hok1 Hone1).
    rewrite lookup_put_same, (decode_plain text Hpct). reflexivity. }
  assert (Hp : JSON.parse text = Ok (consentObject c)) by now apply parse_stringify.
  split; [now apply set_document_cookie_put; auto; discriminate|].
  split; [|split].
  - intros c'. unfold Inline.setOrCheckFidesConsentCookie.
    rewrite Hget. unfold text at 1. rewrite stringify_nonempty. fold text. now rewrite Hp.
  - intros c'. unfold Basic.setOrCheckFidesConsentCookie.
    rewrite (Basic_getCookie_lookup_counted cookieName eq_refl _ Hok1 Hone1).
    rewrite lookup_put_same. unfold text at 1. rewrite stringify_nonempty. fold text.
    now rewrite Hp.
  - unfold load. rewrite Hget. cbn [bind]. unfold text at 1. rewrite stringify_nonempty.
    fold text. now rewrite Hp.
Qed.

(** C1, the claim at a jar that shows the consent cookie twice (set for
    two paths), each with a record: [getCookie] finds none, and each
    call returns a newly made record with a device id of its own. *)
Lemma doubled_cookie_new_identity :
  fst (ensure_calls [sample_clock; later_clock] doubled_cookies)
  = [Ok (consentObject sample_clock); Ok (consentObject later_clock)]
  /\ fst (Basic_ensure_calls [sample_clock; later_clock] doubled_cookies)
     = [Ok (consentObject sample_clock); Ok (consentObject later_clock)]
  /\ device_id_of (consentObject sample_clock) = Ok (Some (JStr (fresh_uuid sample_clock)))
  /\ device_id_of (consentObject later_clock) = Ok (Some (JStr (fresh_uuid later_clock)))
  /\ fresh_uuid sample_clock <> fresh_uuid later_clock.
Proof.
  split; [vm_compute; reflexivity|]. split; [vm_compute; reflexivity|].
  split; [reflexivity|]. split; [reflexivity|]. discriminate.
Qed.

(** C1, amended.  For every sequence of calls of
    [setOrCheckFidesConsentCookie] on a cookie jar that shows the
    consent cookie at most once, in both shapes of the component:
    every call returns what the first call returned, hence the same
    device id.  A record is created once, by the first call, exactly
    when no text is stored; a stored record is returned as it is, and
    unless a record is created no call writes the cookie. *)
Theorem ensure_same_identity (c0 : clock) (cs : list clock) (j : Cookie.jar)
    (Hjar : Forall cookie_ok j) (Hone : named cookieName j <= 1)
    (Hclock : clock_ok c0) :
  (exists res j1,
      ensure_calls (c0 :: cs) j = (repeat res (S (List.length cs)), j1)
      /\ (forall v, load j = Ok (Some v) -> res = Ok v /\ j1 = j)
      /\ (load j = Ok None ->
          res = Ok (consentObject c0)
          /\ j1 = Cookie.put cookieName (JSON.stringify (consentObject c0)) j)
      /\ (load j <> Ok None -> j1 = j)
      /\ (forall v, res = Ok v -> load j1 = Ok (Some v)))
  /\ (exists res j1,
      Basic_ensure_calls (c0 :: cs) j = (repeat res (S (List.length cs)), j1)
      /\ (forall text,
            if_truthy (Basic.getCookie cookieName j) = Some text ->
            res = JSON.parse text /\ j1 = j)
      /\ (if_truthy (Basic.getCookie cookieName j) = None ->
          res = Ok (consentObject c0)
          /\ j1 = Cookie.put cookieName (JSON.stringify (consentObject c0)) j)).
Proof.
  destruct (created_cookie_read c0 j Hjar Hone Hclock) as (Hset & HI & HB & Hload1).
  split.
  - cbn [ensure_calls]. unfold Inline.setOrCheckFidesConsentCookie at 1.
    destruct (Inline.getCookie cookieName j) as [text|e] eqn:G.
    + destruct (if_truthy text) as [t|] eqn:T.
      * assert (Hfix : forall c, Inline.setOrCheckFidesConsentCookie c j = (JSON.parse t, j)).
        { intros c. unfold Inline.setOrCheckFidesConsentCookie. now rewrite G, T. }
        assert (Hl : load j = let* v := JSON.parse t in Ok (Some v)).
        { unfold load. rewrite G. cbn [bind]. now rewrite T. }
        rewrite (ensure_calls_fixed cs j _ Hfix), Hl.
        exists (JSON.parse t), j. split; [reflexivity|].
        destruct (JSON.parse t) as [v|e]; cbn [bind].
        -- split; [intros v' [= <-]; auto|]. split; [discriminate|].
           split; [reflexivity|]. intros v' [= <-]. now rewrite Hl.
        -- split; [discriminate|]. split; [discriminate|].
           split; [reflexivity | discriminate].
      * assert (Hl : load j = Ok None).
        { unfold load. rewrite G. cbn [bind]. now rewrite T. }
        rewrite Hset, (ensure_calls_fixed cs _ _ HI), Hl.
        exists (Ok (consentObject c0)),
               (Cookie.put cookieName (JSON.stringify (consentObject c0)) j).
        split; [reflexivity|]. split; [discriminate|]. split; [auto|].
        split; [congruence|]. intros v [= <-]. exact Hload1.
    + assert (Hfix : forall c, Inline.setOrCheckFidesConsentCookie c j = (Throw e, j)).
      { intros c. unfold Inline.setOrCheckFidesConsentCookie. now rewrite G. }
      assert (Hl : load j = Throw e) by (unfold load; now rewrite G).
      rewrite (ensure_calls_fixed cs j _ Hfix), Hl.
      exists (Throw e), j. split; [reflexivity|]. split; [discriminate|].
      split; [discriminate|]. split; [reflexivity | discriminate].
  - cbn [Basic_ensure_calls]. unfold Basic.setOrCheckFidesConsentCookie at 1.
    destruct (if_truthy (Basic.getCookie cookieName j)) as [t|] eqn:T.
    + assert (Hfix : forall c, Basic.setOrCheckFidesConsentCookie c j = (JSON.parse t, j)).
      { intros c. unfold Basic.setOrCheckFidesConsentCookie. now rewrite T. }
      rewrite (Basic_ensure_calls_fixed cs j _ Hfix).
      exists (JSON.parse t), j. split; [reflexivity|].
      split; [intros text [= <-]; auto | discriminate].
    + rewrite Hset, (Basic_ensure_calls_fixed cs _ _ HB).
      exists (Ok (consentObject c0)),
             (Cookie.put cookieName (JSON.stringify (consentObject c0)) j).
      split; [reflexivity|]. split; [discriminate | auto].
Qed.

(** C7.  A record created by [setOrCheckFidesConsentCookie] is read
    back equal to the one created, and its text has no [;] and no [=].
    But the text stored is the JSON text of the record as it is, which
    is not percent-encoded: it holds characters that
    [encodeURIComponent] would have encoded, and it differs from what
    [encodeCookie] gives for it.  The update of that same cookie by
    [updateConsentCookie] does store the encoded text. *)
Theorem created_record_not_encoded (c : clock) (j : Cookie.jar)
    (Hjar : Forall cookie_ok j) (Hone : named cookieName j <= 1)
    (Hclock : clock_ok c) (Habsent : load j = Ok None) :
  exists j1 text,
    Inline.setOrCheckFidesConsentCookie c j = (Ok (consentObject c), j1)
    /\ Cookie.lookup cookieName j1 = Some text
    /\ text = JSON.stringify (consentObject c)
    /\ load j1 = Ok (Some (consentObject c))
    /\ Str.contains_char ";" text = false
    /\ Str.contains_char "=" text = false
    /\ uri_safe text = false
    /\ text <> Inline.encodeCookie text
    /\ (forall value, exists j2 r2,
          Inline.updateConsentCookie value j1 = Ok j2
          /\ Cookie.lookup cookieName j2 = Some (Inline.encodeCookie (JSON.stringify r2))
          /\ uri_safe (Inline.encodeCookie (JSON.stringify r2)) = true
          /\ load j2 = Ok (Some r2)).
Proof.
  destruct (created_cookie_read c j Hjar Hone Hclock) as (Hset & _ & _ & H2).
  assert (H1 : Inline.setOrCheckFidesConsentCookie c j
               = (Ok (consentObject c),
                  Cookie.put cookieName (JSON.stringify (consentObject c)) j)).
  { unfold Inline.setOrCheckFidesConsentCookie. unfold load in Habsent.
    destruct (Inline.getCookie cookieName j) as [text|e]; [|discriminate].
    cbn [bind] in Habsent.
    destruct (if_truthy text) as [t|].
    - destruct (JSON.parse t); discriminate.
    - now rewrite Hset. }
  destruct (consentObject_text c Hclock) as [Hplain Hwf].
  destruct (plain_spec _ Hplain) as (Hsafe & Hpct & Heq & Hsemi).
  set (text := JSON.stringify (consentObject c)) in *.
  set (j1 := Cookie.put cookieName text j) in *.
  assert (Hraw : uri_safe text = false) by reflexivity.
  assert (Hok1 : Forall cookie_ok j1)
    by (apply put_cookies_ok; [exact Hjar | now apply cookieName_ok]).
  assert (Hone1 : named cookieName j1 <= 1)
    by (unfold j1; rewrite named_put by exact Hone; lia).
  exists j1, text.
  split; [exact H1|]. split; [apply lookup_put_same|]. split; [reflexivity|].
  split; [exact H2|]. split; [exact Hsemi|]. split; [exact Heq|]. split; [exact Hraw|].
  split.
  - intros E. unfold Inline.encodeCookie in E.
    pose proof (encode_uri_safe text) as H. rewrite <- E in H. congruence.
  - intros value.
    assert (Hget : Inline.getCookie "fides_consent" j1 = Ok (Some text)).
    { change "fides_consent" with cookieName.
      rewrite (getCookie_lookup_counted cookieName eq_refl j1 Hok1 Hone1). unfold j1.
      rewrite lookup_put_same, (decode_plain text Hpct). reflexivity. }
    assert (Htruthy : if_truthy (Some text) = Some text) by apply stringify_nonempty.
    assert (Hp : JSON.parse text = Ok (consentObject c)) by now apply parse_stringify.
    destruct (assign_consent value (consentObject c)) as [r2|e] eqn:Ha; [|discriminate].
    assert (Hwf2 : json_wf r2 = true)
      by exact (assign_consent_wf value (consentObject c) r2 Hwf Ha).
    assert (Htext2 : json_text r2 = true).
    { apply (assign_consent_text value (consentObject c) r2); [|exact Ha].
      now apply consentObject_json_text. }
    destruct (encode_safe (JSON.stringify r2)) as [Hsafe2 Heq2].
    exists (Cookie.put cookieName (Inline.encodeCookie (JSON.stringify r2)) j1), r2.
    split.
    { unfold Inline.updateConsentCookie. rewrite Hget. cbn [bind]. rewrite Htruthy, Hp.
      cbn [bind]. rewrite Ha. cbn [bind].
      change ("fides_consent=" ++ Inline.encodeCookie (JSON.stringify r2)
                ++ cookie_attributes)
        with (cookieName ++ "=" ++ Inline.encodeCookie (JSON.stringify r2)
                ++ cookie_attributes).
      now rewrite set_document_cookie_put by (auto; discriminate). }
    split; [apply lookup_put_same|]. split; [apply encode_uri_safe|].
    apply load_put_counted; auto.
    + now apply cookie_safe_no_semicolon.
    + apply decode_encode. now apply stringify_valid.
Qed.

Lemma obj_get_set (k k' : string) (v : json) (fs : list (string * json)) :
  obj_get k (obj_set k' v fs)
  = if String.eqb k k' then Some v else obj_get k fs.
Proof.
  induction fs as [|[n x] fs IH]; cbn [obj_set obj_get]; [reflexivity|].
  destruct (String.eqb k' n) eqn:E; cbn [obj_get].
  - apply String.eqb_eq in E. subst n. destruct (String.eqb k k'); reflexivity.
  - rewrite IH. destruct (String.eqb k k') eqn:E'; [|reflexivity].
    apply String.eqb_eq in E'. subst k'. now rewrite E.
Qed.

(** *** The statements at the sample data *)

Lemma other_cookies_ok : jar_ok other_cookies.
Proof.
  split.
  - repeat constructor; discriminate.
  - repeat constructor. intros [].
Qed.

Lemma sample_clock_ok : clock_ok sample_clock.
Proof. repeat split. Qed.

Lemma later_clock_ok : clock_ok later_clock.
Proof. repeat split. Qed.

Lemma other_cookies_empty_slot : load other_cookies = Ok None.
Proof. reflexivity. Qed.

Lemma visited_cookies_loaded :
  jar_ok visited_cookies /\ load visited_cookies = Ok (Some (consentObject sample_clock)).
Proof.
  destruct (setOrCheck_creates sample_clock other_cookies other_cookies_ok
              sample_clock_ok other_cookies_empty_slot) as [H1 H2].
  unfold visited_cookies. rewrite H1. cbn [snd]. split; [|exact H2].
  apply put_ok; [exact other_cookies_ok|]. apply cookieName_ok.
  destruct (consentObject_text sample_clock sample_clock_ok) as [Hplain _].
  now destruct (plain_spec _ Hplain) as (_ & _ & _ & Hsemi).
Qed.

Lemma ensure_same_identity_witness :
  fst (ensure_calls [sample_clock; later_clock; later_clock] other_cookies)
  = repeat (Ok (consentObject sample_clock)) 3
  /\ fst (Basic_ensure_calls [sample_clock; later_clock; later_clock] other_cookies)
     = repeat (Ok (consentObject sample_clock)) 3.
Proof.
  destruct (ensure_same_identity sample_clock [later_clock; later_clock] other_cookies
              (proj1 other_cookies_ok) (le_0_n 1) sample_clock_ok)
    as ((r & j1 & H1 & _ & H3 & _) & (r' & j1' & H1' & _ & H3')).
  rewrite H1, H1'. cbn [fst].
  rewrite (proj1 (H3 other_cookies_empty_slot)), (proj1 (H3' eq_refl)). split; reflexivity.
Defined.

Lemma created_record_not_encoded_witness :
  load visited_cookies = Ok (Some (consentObject sample_clock))
  /\ exists text, Cookie.lookup cookieName visited_cookies = Some text
                  /\ uri_safe text = false
                  /\ text <> Inline.encodeCookie text.
Proof.
  destruct (created_record_not_encoded sample_clock other_cookies (proj1 other_cookies_ok)
              (le_0_n 1) sample_clock_ok other_cookies_empty_slot)
    as (j1 & text & H1 & H2 & _ & H4 & _ & _ & H7 & H8 & _).
  unfold visited_cookies. rewrite H1. cbn [snd]. split; [exact H4|].
  exists text. auto.
Defined.

(* ================================================================== *)
(** ** The same properties for [src/App.tsx] *)

Lemma Basic_setOrCheck_lookup (c : clock) (j : Cookie.jar) :
  jar_ok j ->
  Basic.setOrCheckFidesConsentCookie c j
  = match if_truthy (Cookie.lookup cookieName j) with
    | Some text => (JSON.parse text, j)
    | None =>
        (Ok (consentObject c),
         Cookie.set_document_cookie
           (cookieName ++ "=" ++ JSON.stringify (consentObject c) ++ cookie_attributes) j)
    end.
Proof.
  intros Hj. unfold Basic.setOrCheckFidesConsentCookie.
  now rewrite (Basic_getCookie_lookup cookieName eq_refl j Hj).
Qed.

(** The record created by the first call is what every later call
    returns. *)
Lemma Basic_ensure_stable (c : clock) (j : Cookie.jar) :
  jar_ok j -> clock_ok c -> if_truthy (Cookie.lookup cookieName j) = None ->
  let j1 := Cookie.put cookieName (JSON.stringify (consentObject c)) j in
  Basic.setOrCheckFidesConsentCookie c j = (Ok (consentObject c), j1)
  /\ forall c', Basic.setOrCheckFidesConsentCookie c' j1 = (Ok (consentObject c), j1).
Proof.
  intros Hj Hc Hnone. cbv zeta.
  destruct (consentObject_text c Hc) as [Hplain Hwf].
  destruct (plain_spec _ Hplain) as (Hsafe & _ & _ & Hsemi).
  split.
  - rewrite Basic_setOrCheck_lookup, Hnone by exact Hj.
    now rewrite set_document_cookie_put by (auto; discriminate).
  - intros c'. rewrite Basic_setOrCheck_lookup
      by (apply put_ok; [exact Hj | now apply cookieName_ok]).
    rewrite lookup_put_same, stringify_nonempty, parse_stringify by exact Hwf.
    reflexivity.
Qed.







(** When no notice is selected, [processNotices] stops with a TypeError
    before any request, and the page is left as it was. *)
Lemma processNotices_without_notice (srv : server) (nd : PrivacyExperience)
    (rest : list PrivacyExperience) (id : jsval) (geo : option string) (w : world) :
  Inline.signUpNotice (Some nd) = None ->
  Inline.processNotices srv {| items := Some (nd :: rest) |} id geo w = (Throw TypeError, w).
Proof.
  intros H. unfold Inline.processNotices. cbn [items nth_error]. now rewrite H.
Qed.

(* ================================================================== *)
(** * Further properties of the component *)

(** ** Encoding of the cookie text *)

(** X1.  [decodeCookie] undoes [encodeCookie]: every well-formed text,
    whatever characters it holds, is returned as it was. *)
Theorem decodeCookie_encodeCookie (s : string) (Hs : valid_utf8 s = true) :
  Inline.decodeCookie (Inline.encodeCookie s) = Ok s.
Proof. exact (decode_encode s Hs). Qed.

(** A text with a semicolon, an equals sign, a blank and a two-byte
    character. *)
Lemma decodeCookie_encodeCookie_witness :
  Inline.encodeCookie ("a;b=c d" ++ String "195" (String "169" ""))
  = "a%3Bb%3Dc%20d%C3%A9"
  /\ Inline.decodeCookie "a%3Bb%3Dc%20d%C3%A9"
     = Ok ("a;b=c d" ++ String "195" (String "169" "")).
Proof.
  split; [reflexivity|].
  exact (decodeCookie_encodeCookie ("a;b=c d" ++ String "195" (String "169" "")) eq_refl).
Defined.

Lemma encode_char_alphabet (c : ascii) :
  Str.forallb_char (fun x => URI.unreserved x || Ascii.eqb x "%") (URI.encode_char c) = true.
Proof. each_char c; reflexivity. Qed.

Lemma encode_alphabet (s : string) :
  Str.forallb_char (fun x => URI.unreserved x || Ascii.eqb x "%") (URI.encodeURIComponent s)
  = true.
Proof.
  induction s as [|c s IH]; [reflexivity|].
  cbn [URI.encodeURIComponent]. now rewrite forallb_char_app, encode_char_alphabet, IH.
Qed.

(** X2.  The text [encodeCookie] returns is made of unreserved
    characters and [%] only; it has no [;], no [=] and no blank, and
    the cookie setter stores it whole under the name it is written
    with. *)
Theorem encodeCookie_cookie_safe (s : string) :
  Str.forallb_char (fun x => URI.unreserved x || Ascii.eqb x "%") (Inline.encodeCookie s) = true
  /\ Str.contains_char ";" (Inline.encodeCookie s) = false
  /\ Str.contains_char "=" (Inline.encodeCookie s) = false
  /\ cookie_safe (Inline.encodeCookie s) = true
  /\ forall j,
       Cookie.set_document_cookie
         ("fides_consent=" ++ Inline.encodeCookie s ++ cookie_attributes) j
       = Cookie.put "fides_consent" (Inline.encodeCookie s) j.
Proof.
  unfold Inline.encodeCookie. destruct (encode_safe s) as [Hsafe Heq].
  split; [apply encode_alphabet|].
  split; [now apply cookie_safe_no_semicolon|].
  split; [exact Heq|]. split; [exact Hsafe|].
  intros j.
  change ("fides_consent=" ++ URI.encodeURIComponent s ++ cookie_attributes)
    with ("fides_consent" ++ "=" ++ URI.encodeURIComponent s ++ cookie_attributes).
  now rewrite set_document_cookie_put by (auto; discriminate).
Qed.

(** ** Reading and writing cookies *)

(** X3.  Whatever text is written the way [updateConsentCookie] writes
    it is what [getCookie] reads back, and the other cookies read as
    before. *)
Theorem encoded_cookie_reads_back (text : string) (j : Cookie.jar)
    (Hjar : jar_ok j) (Htext : valid_utf8 text = true) :
  let j' := Cookie.set_document_cookie
              ("fides_consent=" ++ Inline.encodeCookie text ++ cookie_attributes) j in
  Inline.getCookie "fides_consent" j' = Ok (Some text)
  /\ jar_ok j'
  /\ (forall m, Str.contains_char "=" m = false -> m <> "fides_consent" ->
                Inline.getCookie m j' = Inline.getCookie m j).
Proof.
  cbv zeta. unfold Inline.encodeCookie. destruct (encode_safe text) as [Hsafe Heq].
  change ("fides_consent=" ++ URI.encodeURIComponent text ++ cookie_attributes)
    with (cookieName ++ "=" ++ URI.encodeURIComponent text ++ cookie_attributes).
  rewrite set_document_cookie_put by (auto; discriminate).
  assert (Hj' : jar_ok (Cookie.put cookieName (URI.encodeURIComponent text) j)).
  { apply put_ok; [exact Hjar|]. apply cookieName_ok. now apply cookie_safe_no_semicolon. }
  split; [|split; [exact Hj'|]].
  - change "fides_consent" with cookieName.
    rewrite (getCookie_lookup cookieName eq_refl _ Hj'), lookup_put_same.
    rewrite (decode_encode text Htext). reflexivity.
  - intros m Hm Hne.
    rewrite (getCookie_lookup m Hm _ Hj'), (getCookie_lookup m Hm _ Hjar).
    now rewrite lookup_put_other.
Qed.

Lemma encoded_cookie_reads_back_witness :
  Inline.getCookie "fides_consent"
    (Cookie.set_document_cookie
       ("fides_consent=" ++ Inline.encodeCookie "a;b=c d" ++ cookie_attributes) other_cookies)
  = Ok (Some "a;b=c d").
Proof.
  exact (proj1 (encoded_cookie_reads_back "a;b=c d" other_cookies other_cookies_ok eq_refl)).
Defined.

(** X4.  [getCookie] of the component with cookie encoding returns
    [undefined] when the jar has no cookie of that name and the decoded
    value of the cookie of that name otherwise; a cookie whose name
    only ends with, or starts with, the name asked for is not taken for
    it. *)
Theorem getCookie_reads_named_cookie (name : string) (j : Cookie.jar)
    (Hname : Str.contains_char "=" name = false) (Hjar : jar_ok j) :
  Inline.getCookie name j
  = match Cookie.lookup name j with
    | None => Ok None
    | Some v => let* d := Inline.decodeCookie v in Ok (Some d)
    end.
Proof. exact (getCookie_lookup name Hname j Hjar). Qed.

Lemma neighbour_cookies_ok : jar_ok neighbour_cookies.
Proof.
  split.
  - repeat constructor; discriminate.
  - repeat constructor; simpl; intuition discriminate.
Qed.

Lemma getCookie_reads_named_cookie_witness :
  Inline.getCookie "fides_consent" neighbour_cookies = Ok (Some "a b")
  /\ Inline.getCookie "consent" neighbour_cookies = Ok None.
Proof.
  split.
  - exact (getCookie_reads_named_cookie "fides_consent" neighbour_cookies eq_refl
             neighbour_cookies_ok).
  - exact (getCookie_reads_named_cookie "consent" neighbour_cookies eq_refl
             neighbour_cookies_ok).
Defined.

(** X5.  [getCookie] of [src/App.tsx] returns [undefined] when the jar
    has no cookie of that name; otherwise it returns the value of that
    cookie as stored, except that an empty value may come back as
    [undefined]: as far as its callers look (they test the result for
    truthiness), it returns the stored value. *)
Theorem Basic_getCookie_reads_named_cookie (name : string) (j : Cookie.jar)
    (Hname : Str.contains_char "=" name = false) (Hjar : jar_ok j) :
  if_truthy (Basic.getCookie name j) = if_truthy (Cookie.lookup name j)
  /\ (Cookie.lookup name j = None -> Basic.getCookie name j = None)
  /\ (forall v, Cookie.lookup name j = Some v -> v <> "" -> Basic.getCookie name j = Some v).
Proof.
  pose proof (Basic_getCookie_lookup name Hname j Hjar) as H.
  split; [exact H|]. split.
  - intros Hnone. unfold Basic.getCookie.
    pose proof (split_document_cookie name Hname j Hjar) as S. rewrite Hnone in S.
    cbn [append] in *. now rewrite S.
  - intros v Hv Hne. rewrite Hv, (if_truthy_nonempty Hne) in H.
    destruct (Basic.getCookie name j) as [[|a s]|]; simpl in H; congruence.
Qed.

Lemma Basic_getCookie_reads_named_cookie_witness :
  Basic.getCookie "fides_consent" neighbour_cookies = Some "a%20b"
  /\ Basic.getCookie "consent" neighbour_cookies = None.
Proof.
  destruct (Basic_getCookie_reads_named_cookie "fides_consent" neighbour_cookies eq_refl
              neighbour_cookies_ok) as (_ & _ & H).
  destruct (Basic_getCookie_reads_named_cookie "consent" neighbour_cookies eq_refl
              neighbour_cookies_ok) as (_ & H0 & _).
  split; [apply H; [reflexivity | discriminate] | apply H0; reflexivity].
Defined.

(** ** Cookies the component does not own *)

(** Whatever follows [fides_consent=] in the text given to the cookie
    setter, the setter writes the consent cookie and no other. *)
Lemma set_consent_cookie_put (body : string) (j : Cookie.jar) :
  exists v, Cookie.set_document_cookie ("fides_consent=" ++ body) j
            = Cookie.put "fides_consent" v j.
Proof.
  unfold Cookie.set_document_cookie.
  change ("fides_consent=" ++ body) with (("fides_consent" ++ "=") ++ body).
  rewrite (split_through ";" "" ("fides_consent" ++ "=") body eq_refl).
  pose proof (split_not_nil ";" body) as Hn.
  destruct (Str.split body ";") as [|h tl]; [congruence|].
  cbn [prepend hd]. rewrite string_app_assoc.
  rewrite (name_value_split "fides_consent" h eq_refl).
  exists (Str.trim h). reflexivity.
Qed.

Lemma other_than_consent_put (v : string) (j : Cookie.jar) :
  other_than_consent (Cookie.put "fides_consent" v j) = other_than_consent j.
Proof.
  unfold other_than_consent. induction j as [|[n x] j IH]; [reflexivity|].
  cbn [Cookie.put]. destruct (String.eqb "fides_consent" n) eqn:E.
  - apply String.eqb_eq in E. subst n. reflexivity.
  - cbn [filter fst]. now rewrite IH.
Qed.

Lemma other_than_consent_set (body : string) (j : Cookie.jar) :
  other_than_consent (Cookie.set_document_cookie ("fides_consent=" ++ body) j)
  = other_than_consent j.
Proof.
  destruct (set_consent_cookie_put body j) as [v ->]. apply other_than_consent_put.
Qed.

Lemma Inline_update_other (b : bool) (j j' : Cookie.jar) :
  Inline.updateConsentCookie b j = Ok j' -> other_than_consent j' = other_than_consent j.
Proof.
  unfold Inline.updateConsentCookie.
  destruct (Inline.getCookie "fides_consent" j) as [text|e]; [|discriminate]. cbn [bind].
  destruct (if_truthy text) as [t|]; [|now intros [= <-]].
  destruct (JSON.parse t) as [r|e]; [|discriminate]. cbn [bind].
  destruct (assign_consent b r) as [r'|e]; [|discriminate]. cbn [bind].
  intros [= <-]. apply other_than_consent_set.
Qed.

Lemma Basic_update_other (j j' : Cookie.jar) :
  Basic.update_cookie j = Ok j' -> other_than_consent j' = other_than_consent j.
Proof.
  unfold Basic.update_cookie.
  destruct (if_truthy (Basic.getCookie "fides_consent" j)) as [t|]; [|now intros [= <-]].
  destruct (JSON.parse t) as [r|e]; [|discriminate]. cbn [bind].
  destruct (assign_consent true r) as [r'|e]; [|discriminate]. cbn [bind].
  intros [= <-]. apply other_than_consent_set.
Qed.

Lemma Inline_setOrCheck_other (c : clock) (j : Cookie.jar) :
  other_than_consent (snd (Inline.setOrCheckFidesConsentCookie c j)) = other_than_consent j.
Proof.
  unfold Inline.setOrCheckFidesConsentCookie.
  destruct (Inline.getCookie cookieName j) as [text|e]; [|reflexivity].
  destruct (if_truthy text); [reflexivity|]. cbn [snd].
  exact (other_than_consent_set _ j).
Qed.

Lemma Basic_setOrCheck_other (c : clock) (j : Cookie.jar) :
  other_than_consent (snd (Basic.setOrCheckFidesConsentCookie c j)) = other_than_consent j.
Proof.
  unfold Basic.setOrCheckFidesConsentCookie.
  destruct (if_truthy (Basic.getCookie cookieName j)); [reflexivity|]. cbn [snd].
  exact (other_than_consent_set _ j).
Qed.

(** The page after [handleSubmit]: the jar is the one the cookie update
    left, or the one before when the update threw. *)
Lemma Inline_handleSubmit_cookies (srv : server) (w : world) :
  cookies (snd (Inline.handleSubmit srv w)) = cookies w
  \/ Inline.updateConsentCookie (consent (formData (st w))) (cookies w)
     = Ok (cookies (snd (Inline.handleSubmit srv w))).
Proof.
  unfold Inline.handleSubmit, Inline.recordConsentOnServer.
  destruct (Inline.updateConsentCookie _ _) as [j|e]; [right | now left].
  cbn [set_cookies st].
  destruct (preferences_body (st w)) as [b|e]; [|reflexivity].
  destruct (preference_service srv b); reflexivity.
Qed.

Lemma Basic_handleSubmit_cookies (srv : server) (w : world) :
  cookies (snd (Basic.handleSubmit srv w)) = cookies w
  \/ Basic.update_cookie (cookies w) = Ok (cookies (snd (Basic.handleSubmit srv w))).
Proof.
  unfold Basic.handleSubmit.
  destruct (consent (formData (st w))); [|now left].
  destruct (Basic.update_cookie (cookies w)) as [j|e]; [right | now left].
  cbn [set_cookies st].
  destruct (preferences_body (st w)) as [b|e]; [|reflexivity].
  destruct (preference_service srv b); reflexivity.
Qed.

Lemma Inline_act_other (a : action) (w : world) :
  other_than_consent (cookies (Inline.act a w)) = other_than_consent (cookies w).
Proof.
  destruct a as [f v|b|srv]; cbn [Inline.act].
  - reflexivity.
  - destruct (truthy _); reflexivity.
  - destruct (_ || _); [reflexivity|].
    rewrite cookies_detach.
    destruct (Inline_handleSubmit_cookies srv w) as [->|H]; [reflexivity|].
    exact (Inline_update_other _ _ _ H).
Qed.

Lemma Basic_act_other (a : action) (w : world) :
  other_than_consent (cookies (Basic.act a w)) = other_than_consent (cookies w).
Proof.
  destruct a as [f v|b|srv]; cbn [Basic.act].
  - reflexivity.
  - destruct (truthy _); reflexivity.
  - destruct (fields_filled _); [|reflexivity].
    rewrite cookies_detach.
    destruct (Basic_handleSubmit_cookies srv w) as [->|H]; [reflexivity|].
    exact (Basic_update_other _ _ H).
Qed.

Lemma Inline_acts_other (l : list action) (w : world) :
  other_than_consent (cookies (Inline.acts l w)) = other_than_consent (cookies w).
Proof.
  revert w. induction l as [|a l IH]; intros w; [reflexivity|].
  unfold Inline.acts in *. cbn [fold_left]. now rewrite IH, Inline_act_other.
Qed.

Lemma Basic_acts_other (l : list action) (w : world) :
  other_than_consent (cookies (Basic.acts l w)) = other_than_consent (cookies w).
Proof.
  revert w. induction l as [|a l IH]; intros w; [reflexivity|].
  unfold Basic.acts in *. cbn [fold_left]. now rewrite IH, Basic_act_other.
Qed.

Lemma Inline_processNotices_cookies srv page id geo (w : world) :
  cookies (snd (Inline.processNotices srv page id geo w)) = cookies w.
Proof.
  unfold Inline.processNotices.
  destruct (items page) as [its|]; [|reflexivity].
  destruct (nth_error its 0) as [nd|]; [|reflexivity].
  destruct (Inline.signUpNotice (Some nd)) as [n|]; [|reflexivity].
  destruct (served_service srv _); reflexivity.
Qed.

Lemma Inline_after_location_cookies (srv : server) (id : jsval) (w : world) :
  cookies (Inline.after_location srv id w) = cookies w.
Proof.
  unfold Inline.after_location.
  destruct (location_service srv) as [ld|e]; [|reflexivity].
  destruct (geography ld) as [geo|e]; [|reflexivity].
  destruct (if_truthy (region_of ld)) as [region|]; [|reflexivity].
  destruct (Inline.fetchPrivacyExperiences srv _) as [[page|]|e]; try reflexivity.
  pose proof (Inline_processNotices_cookies srv page id geo
                (send (GetExperience (Str.toLowerCase region)) w)) as H.
  destruct (Inline.processNotices srv page id geo _) as [p w3].
  now rewrite cookies_detach.
Qed.

Lemma Inline_fetch_cookies (srv : server) (id : jsval) (w : world) :
  cookies (Inline.fetchRegionAndNotices srv id w) = cookies w.
Proof.
  unfold Inline.fetchRegionAndNotices. now rewrite Inline_after_location_cookies.
Qed.

Lemma Basic_chain_cookies (srv : server) (id : jsval) (w : world) :
  cookies (snd (Basic.chain_after_location srv id w)) = cookies w.
Proof.
  unfold Basic.chain_after_location.
  destruct (location_service srv) as [ld|e]; [|reflexivity].
  destruct (geography ld) as [geo|e]; [|reflexivity].
  destruct ld as [d|]; [|reflexivity].
  destruct (if_truthy (region_of (Some d))) as [region|]; [|reflexivity].
  destruct (experience_service srv _) as [[page|]|e]; try reflexivity.
  destruct (items page) as [its|]; [|reflexivity].
  destruct (Basic.signUpNotice (nth_error its 0)) as [[n|]|e];
    destruct (nth_error its 0) as [nd|]; try reflexivity.
  destruct (served_service srv _); reflexivity.
Qed.

Lemma Basic_fetch_cookies (srv : server) (id : jsval) (w : world) :
  cookies (Basic.fetchRegionAndNotices srv id w) = cookies w.
Proof.
  unfold Basic.fetchRegionAndNotices, Basic.fetch_chain.
  now rewrite Basic_chain_cookies.
Qed.

(** X6.  In every session of either shape of the component, whatever
    the services answer and whatever the user does, the cookies other
    than [fides_consent] are the ones the page started with: none is
    written, removed or moved. *)
Theorem sessions_keep_other_cookies (c : clock) (srv : server)
    (early late : list action) (j : Cookie.jar) :
  other_than_consent (cookies (Inline.session c srv early late j)) = other_than_consent j
  /\ other_than_consent (cookies (Basic.session c srv early late j)) = other_than_consent j.
Proof.
  split.
  - unfold Inline.session, Inline.useEffect_begin.
    pose proof (Inline_setOrCheck_other c j) as H. cbn [fresh_world cookies].
    destruct (Inline.setOrCheckFidesConsentCookie c j) as [[r|e] j']; cbn [snd] in H.
    + destruct (device_id_of r) as [id|e]; [|exact H].
      now rewrite Inline_acts_other, Inline_after_location_cookies, Inline_acts_other.
    + exact H.
  - unfold Basic.session, Basic.useEffect_begin.
    pose proof (Basic_setOrCheck_other c j) as H. cbn [fresh_world cookies].
    destruct (Basic.setOrCheckFidesConsentCookie c j) as [[r|e] j']; cbn [snd] in H.
    + destruct (device_id_of r) as [id|e]; [|exact H].
      now rewrite Basic_acts_other, Basic_chain_cookies, Basic_acts_other.
    + exact H.
Qed.

(** ** The start-up chain *)

Lemma if_truthy_spec (s : option string) (t : string) :
  if_truthy s = Some t <-> s = Some t /\ t <> "".
Proof.
  destruct s as [[|c r]|]; simpl; split; try discriminate.
  - intros [[= <-] H]. congruence.
  - intros [= <-]. split; [reflexivity | discriminate].
  - intros [[= <-] _]. reflexivity.
  - intros [H _]. discriminate.
Qed.

(** What [processNotices] leaves behind when it shows a notice. *)
Lemma Inline_processNotices_shows srv page id geo (w : world) (n : PrivacyNotice) :
  privacyNotice (st w) = Blank ->
  privacyNotice (st (snd (Inline.processNotices srv page id geo w))) = Val n ->
  exists nd rest ns served,
    items page = Some (nd :: rest)
    /\ privacy_notices nd = Some ns
    /\ find is_signup ns = Some n
    /\ served_service srv (notices_served_body nd n id geo) = Ok served.
Proof.
  intros Hb. unfold Inline.processNotices.
  destruct (items page) as [[|nd rest]|]; cbn [nth_error snd]; try congruence.
  unfold Inline.signUpNotice.
  destruct (privacy_notices nd) as [ns|] eqn:N; cbn [snd]; try congruence.
  destruct (find is_signup ns) as [n'|] eqn:F; cbn [snd]; try congruence.
  destruct (served_service srv _) as [served|e] eqn:E; cbn [snd send st set_state]; try congruence.
  cbn [store_notice privacyNotice]. intros [= ->]. exists nd, rest, ns, served. auto.
Qed.

(** X7.  With a location service that answers in ASCII text, and
    starting from a page that shows no notice,
    [fetchRegionAndNotices] ends with the notice [n] on the page
    exactly when every step of the chain succeeded: the location
    service answered with a location and a non-empty country, the
    catalogue answered for the lower-cased country with a page whose
    first experience lists [n] as its first notice with a key ending in
    [signup], and the served-event recorder answered the request made
    for that notice.  In every other case the page still shows no
    notice. *)
Theorem startup_shows_notice_iff (srv : server) (id : jsval) (w : world)
    (n : PrivacyNotice) (Hascii : ascii_location srv)
    (Hblank : privacyNotice (st w) = Blank) :
  privacyNotice (st (Inline.fetchRegionAndNotices srv id w)) = Val n
  <-> exists l c page nd rest ns served,
        location_service srv = Ok (Some {| location := Some l; country := Some c |})
        /\ c <> ""
        /\ experience_service srv (Str.toLowerCase c) = Ok (Some page)
        /\ items page = Some (nd :: rest)
        /\ privacy_notices nd = Some ns
        /\ find is_signup ns = Some n
        /\ served_service srv
             (notices_served_body nd n id
                (Some (Str.replace "-" "_" (Str.toLowerCase l)))) = Ok served.
Proof.
  split.
  - unfold Inline.fetchRegionAndNotices, Inline.after_location, Inline.fetchPrivacyExperiences.
    destruct (location_service srv) as [ld|e]; [|cbn [send st]; congruence].
    destruct ld as [[[l|] co]|]; cbn [geography location]; try (cbn [send st]; congruence).
    + cbn [region_of country].
      destruct (if_truthy co) as [c|] eqn:T; [|cbn [send st]; congruence].
      apply if_truthy_spec in T. destruct T as [-> Hc].
      destruct (experience_service srv (Str.toLowerCase c)) as [[page|]|e] eqn:E;
        try (cbn [send st]; congruence).
      pose proof (Inline_processNotices_shows srv page id
                    (Some (Str.replace "-" "_" (Str.toLowerCase l)))
                    (send (GetExperience (Str.toLowerCase c)) (send GetLocation w)) n Hblank)
        as H.
      destruct (Inline.processNotices srv page id _ _) as [p w3]. cbn [snd] in H.
      rewrite st_detach. intros Hn.
      destruct (H Hn) as (nd & rest & ns & served & H1 & H2 & H3 & H4).
      exists l, c, page, nd, rest, ns, served. auto 8.
    + cbn [region_of]. cbn [if_truthy send st]. congruence.
  - intros (l & c & page & nd & rest & ns & served & H1 & Hc & H2 & H3 & H4 & H5 & H6).
    unfold Inline.fetchRegionAndNotices, Inline.after_location, Inline.fetchPrivacyExperiences.
    rewrite H1. cbn [geography location region_of country].
    rewrite (if_truthy_nonempty Hc), H2.
    unfold Inline.processNotices, Inline.signUpNotice. rewrite H3. cbn [nth_error].
    rewrite H4, H5, H6. reflexivity.
Qed.

Lemma sample_server_ascii : ascii_location sample_server.
Proof. intros d H. injection H as <-. split; intros x [= <-]; reflexivity. Qed.

Lemma startup_shows_notice_iff_witness :
  privacyNotice (st (Inline.fetchRegionAndNotices sample_server None (fresh_world [])))
  = Val email_signup_notice.
Proof.
  apply (proj2 (startup_shows_notice_iff sample_server None (fresh_world [])
                  email_signup_notice sample_server_ascii eq_refl)).
  exists "en-US", "US", {| items := Some [sample_experience] |}, sample_experience, [],
    [marketing_notice; email_signup_notice; other_signup_notice], [sample_served].
  repeat split. discriminate.
Defined.

(** The chain of [src/App.tsx] leaves the same page as the chain of the
    other shape, except for the rejections nobody handles: it awaits
    every step inside its [try]. *)
Lemma fetch_chains_agree (srv : server) (id : jsval) (w : world) :
  cookies (Basic.fetchRegionAndNotices srv id w)
  = cookies (Inline.fetchRegionAndNotices srv id w)
  /\ st (Basic.fetchRegionAndNotices srv id w) = st (Inline.fetchRegionAndNotices srv id w)
  /\ sent (Basic.fetchRegionAndNotices srv id w)
     = sent (Inline.fetchRegionAndNotices srv id w)
  /\ unhandled (Basic.fetchRegionAndNotices srv id w) = unhandled w.
Proof.
  unfold Basic.fetchRegionAndNotices, Basic.fetch_chain, Basic.chain_after_location,
    Inline.fetchRegionAndNotices, Inline.after_location, Inline.fetchPrivacyExperiences.
  destruct (location_service srv) as [ld|e]; [|auto].
  destruct (geography ld) as [geo|e]; [|auto].
  destruct ld as [d|]; [|auto].
  destruct (if_truthy (region_of (Some d))) as [region|]; [|auto].
  destruct (experience_service srv _) as [[page|]|e]; auto.
  unfold Inline.processNotices.
  destruct (items page) as [its|]; [|cbn [snd detach]; auto].
  unfold Basic.signUpNotice, Inline.signUpNotice.
  destruct (nth_error its 0) as [nd|]; [|cbn [snd detach]; auto].
  destruct (privacy_notices nd) as [ns|]; [|cbn [snd detach]; auto].
  rewrite <- filter_head_find.
  destruct (nth_error (filter is_signup ns) 0) as [n|]; [|cbn [snd detach]; auto].
  destruct (served_service srv _); cbn [snd detach]; auto.
Qed.

(** X8.  For the same services, device id and page, the start-up chain
    of [src/App.tsx] and the one of the component with
    [processNotices] issue the same requests and leave the same state
    and cookies.  They differ in what becomes of an exception after the
    catalogue has answered: [src/App.tsx] catches it, the other shape
    leaves it as the unhandled rejection of [processNotices]. *)
Theorem startup_chains_agree (srv : server) (id : jsval) (w : world) :
  let B := Basic.fetchRegionAndNotices srv id w in
  let I := Inline.fetchRegionAndNotices srv id w in
  cookies B = cookies I /\ st B = st I /\ sent B = sent I
  /\ unhandled B = unhandled w
  /\ (unhandled I = unhandled w \/ exists e, unhandled I = (unhandled w ++ [e])%list).
Proof.
  cbv zeta. destruct (fetch_chains_agree srv id w) as (H1 & H2 & H3 & H4).
  repeat (split; [assumption|]).
  unfold Inline.fetchRegionAndNotices, Inline.after_location.
  destruct (location_service srv) as [ld|e]; [|now left].
  destruct (geography ld) as [geo|e]; [|now left].
  destruct (if_truthy (region_of ld)) as [region|]; [|now left].
  destruct (Inline.fetchPrivacyExperiences srv _) as [[page|]|e]; try now left.
  assert (H : forall x, unhandled (snd (Inline.processNotices srv page id geo x))
                        = unhandled x).
  { intros x. unfold Inline.processNotices.
    destruct (items page) as [its|]; [|reflexivity].
    destruct (nth_error its 0) as [nd|]; [|reflexivity].
    destruct (Inline.signUpNotice (Some nd)) as [n|]; [|reflexivity].
    destruct (served_service srv _); reflexivity. }
  specialize (H (send (GetExperience (Str.toLowerCase region)) (send GetLocation w))).
  destruct (Inline.processNotices srv page id geo _) as [[[]|e] w3]; cbn [snd] in H.
  - left. exact H.
  - right. exists e. cbn [detach unhandled]. now rewrite H.
Qed.

(** ** The region code in the chain *)

Lemma toLowerCase_app (a b : string) :
  Str.toLowerCase (a ++ b) = Str.toLowerCase a ++ Str.toLowerCase b.
Proof. induction a as [|c a IH]; simpl; [reflexivity | now rewrite IH]. Qed.

Lemma replace_dash_absent (s : string) :
  Str.count_char "-" s = 0 -> Str.replace "-" "_" s = s.
Proof.
  induction s as [|c s IH]; [reflexivity|].
  cbn [Str.count_char Str.replace Str.strip_prefix]. rewrite (Ascii.eqb_sym "-" c).
  destruct (Ascii.eqb c "-"); [discriminate|]. intros H. now rewrite IH.
Qed.

(** [replace] touches the first separator and nothing after it. *)
Lemma replace_first_dash (a b : string) :
  Str.count_char "-" a = 0 ->
  Str.replace "-" "_" (a ++ String "-" b) = a ++ String "_" b.
Proof.
  induction a as [|c a IH]; [reflexivity|].
  cbn [Str.count_char append Str.replace Str.strip_prefix]. rewrite (Ascii.eqb_sym "-" c).
  destruct (Ascii.eqb c "-"); [discriminate|]. intros H. now rewrite IH.
Qed.

(** The served event that [processNotices] sends carries the region
    code it was given. *)
Lemma processNotices_sent_geo srv page id geo w :
  sent (snd (Inline.processNotices srv page id geo w)) = sent w \/
  exists b, served_geography b = geo
            /\ sent (snd (Inline.processNotices srv page id geo w))
               = (sent w ++ [PatchNoticesServed b])%list.
Proof.
  unfold Inline.processNotices.
  destruct (items page) as [its|]; [|now left].
  destruct (nth_error its 0) as [nd|]; [|now left].
  destruct (Inline.signUpNotice (Some nd)) as [n|]; [|now left].
  right. exists (notices_served_body nd n id geo). split; [reflexivity|].
  destruct (served_service srv _); reflexivity.
Qed.

(** C8, amended.  For every geolocation response made of ASCII text,
    in both shapes of the component: the region code is the location
    lowercased with its first "-" replaced by "_" (what follows the
    first "-" is only lowercased), which is the fully normalised form
    when the location has at most one "-"; after the location request
    the catalogue is queried with the lowercased country code, and the
    served event, when one is sent, carries the region code.  For
    location "en-US" and country "US" the region code is "en_us" and
    the query uses region "us". *)
Theorem geography_first_separator (srv : server) (id : jsval) (w : world)
    (l c : string)
    (Hloc : location_service srv = Ok (Some {| location := Some l; country := Some c |}))
    (Hc : c <> "")
    (Hl : ascii_text l = true) (Hca : ascii_text c = true) :
  exists geo,
    geography (Some {| location := Some l; country := Some c |}) = Ok (Some geo)
    /\ (Str.count_char "-" l = 0 -> geo = Str.toLowerCase l)
    /\ (forall a b, l = a ++ "-" ++ b -> Str.count_char "-" a = 0 ->
                    geo = Str.toLowerCase a ++ "_" ++ Str.toLowerCase b)
    /\ (Str.count_char "-" l <= 1 -> geo = separator_normalized l)
    /\ (exists rest,
          sent (Inline.fetchRegionAndNotices srv id w)
          = (sent w ++ GetLocation :: GetExperience (Str.toLowerCase c) :: rest)%list
          /\ sent (Basic.fetchRegionAndNotices srv id w)
             = (sent w ++ GetLocation :: GetExperience (Str.toLowerCase c) :: rest)%list
          /\ forall nb, In (PatchNoticesServed nb) rest -> served_geography nb = Some geo)
    /\ (l = "en-US" -> c = "US" -> geo = "en_us" /\ Str.toLowerCase c = "us").
Proof.
  exists (Str.replace "-" "_" (Str.toLowerCase l)).
  split; [reflexivity|]. split; [|split; [|split; [|split]]].
  - intros H. apply replace_dash_absent. now rewrite count_char_toLowerCase.
  - intros a b -> Ha. rewrite !toLowerCase_app.
    change (Str.toLowerCase "-") with "-".
    apply (replace_first_dash (Str.toLowerCase a) (Str.toLowerCase b)).
    now rewrite count_char_toLowerCase.
  - intros H. apply replace_single_dash. now rewrite count_char_toLowerCase.
  - destruct (fetch_chains_agree srv id w) as (_ & _ & -> & _).
    unfold Inline.fetchRegionAndNotices, Inline.after_location, Inline.fetchPrivacyExperiences.
    rewrite Hloc. cbn [geography location region_of country].
    destruct c as [|c0 c']; [congruence|]. cbn [if_truthy].
    destruct (experience_service srv _) as [[page|]|e].
    + destruct (Inline.processNotices srv page id _ _) as [p w3] eqn:E.
      rewrite sent_detach.
      destruct (processNotices_sent_geo srv page id
                  (Some (Str.replace "-" "_" (Str.toLowerCase l)))
                  (send (GetExperience (Str.toLowerCase (String c0 c'))) (send GetLocation w)))
        as [H|(b & Hb & H)]; rewrite E in H; simpl in H; rewrite H.
      * exists []. rewrite <- !app_assoc. repeat split. intros nb [].
      * exists [PatchNoticesServed b]. rewrite <- !app_assoc. repeat split.
        intros nb [[= <-]|[]]. exact Hb.
    + exists []. simpl. rewrite <- !app_assoc. repeat split. intros nb [].
    + exists []. simpl. rewrite <- !app_assoc. repeat split. intros nb [].
  - intros -> ->. split; reflexivity.
Qed.

Lemma geography_first_separator_witness :
  exists geo,
    geography (Some sample_location) = Ok (Some geo)
    /\ geo = "en_us"
    /\ exists rest,
         sent (Basic.fetchRegionAndNotices sample_server None (fresh_world []))
         = GetLocation :: GetExperience "us" :: rest.
Proof.
  destruct (geography_first_separator sample_server None (fresh_world [])
              "en-US" "US" eq_refl ltac:(discriminate) eq_refl eq_refl)
    as (geo & H1 & _ & _ & _ & (rest & _ & H5 & _) & H6).
  exists geo. split; [exact H1|]. split; [exact (proj1 (H6 eq_refl eq_refl))|].
  exists rest. exact H5.
Defined.

(** ** Order and content of the requests of a session *)

Lemma lower_char_idem (c : ascii) : Str.lower_char (Str.lower_char c) = Str.lower_char c.
Proof. each_char c; reflexivity. Qed.

Lemma toLowerCase_idem (s : string) :
  Str.toLowerCase (Str.toLowerCase s) = Str.toLowerCase s.
Proof. induction s as [|c s IH]; simpl; [reflexivity|]. now rewrite lower_char_idem, IH. Qed.

Lemma same_cells_refl (s : state) : same_cells s s.
Proof. repeat split. Qed.

Lemma protocol_ext (srv : server) (id : jsval) (w w' : world) :
  sent w' = sent w -> st w' = st w -> protocol srv id w -> protocol srv id w'.
Proof. unfold protocol. intros -> ->. auto. Qed.

(** The body of a preference request built while a notice is shown. *)
Lemma preferences_body_shown (s : state) (b : PreferencesBody) (n : PrivacyNotice)
    (nd : PrivacyExperience) :
  preferences_body s = Ok b ->
  privacyNotice s = Val n -> privacyExperience s = Val nd ->
  noticeServed s <> Blank ->
  exists x,
    noticeServed s = Val x
    /\ pref_device_id b = deviceId s
    /\ pref_notice_history_id b = Some (privacy_notice_history_id n)
    /\ pref_served_notice_history_id b = Some (served_notice_history_id x)
    /\ pref_experience_id b = Some (experience_id nd)
    /\ pref_geography b = userGeo s
    /\ preference b = (if consent (formData s) then "opt_in" else "opt_out")
    /\ method b = "button".
Proof.
  unfold preferences_body. intros H Hn Hx Hs. rewrite Hn, Hx in H.
  destruct (noticeServed s) as [| |x]; [congruence | discriminate |].
  cbn [field bind] in H. injection H as <-. exists x. cbn. repeat split.
Qed.

(** One step of a session: the start-up cells stay, and the requests
    grow by at most one preference request, built from the state while
    a notice is shown. *)
Lemma protocol_step (srv : server) (id : jsval) (w w' : world) :
  protocol srv id w ->
  same_cells (st w) (st w') ->
  (sent w' = sent w
   \/ exists b, preferences_body (st w) = Ok b
                /\ privacyNotice (st w) <> Blank
                /\ sent w' = (sent w ++ [PatchPreferences b])%list) ->
  protocol srv id w'.
Proof.
  intros (startup & prefs & Hsent & Hstart & Hcells) (C1 & C2 & C3 & C4 & C5) Hstep.
  unfold protocol. rewrite C1, C2, C3, C4, C5.
  destruct Hstep as [->|(b & Hb & Hshown & ->)].
  - exists startup, prefs. auto.
  - exists startup, (prefs ++ [b])%list.
    split; [rewrite Hsent, map_app, app_assoc; reflexivity|]. split; [exact Hstart|].
    destruct (privacyNotice (st w)) as [| |n] eqn:Hn; [congruence | exact Hcells |].
    destruct Hcells as (r & nd & geo & resp & H1 & H2 & H3 & H4 & H5 & H6 & H7).
    exists r, nd, geo, resp. repeat (split; [assumption|]).
    apply Forall_app. split; [exact H7|]. constructor; [|constructor].
    destruct (preferences_body_shown (st w) b n nd Hb Hn H3) as (x & Hx & F1 & F2 & F3 & F4 & F5 & F6 & F7).
    { rewrite H4. destruct (nth_error resp 0); discriminate. }
    rewrite Hx in H4. destruct resp as [|x' rest]; [discriminate|].
    cbn [nth_error] in H4. injection H4 as <-.
    exists x, rest. split; [reflexivity|].
    unfold preference_matches, notices_served_body.
    cbn [served_device_id served_experience_id served_geography privacy_notice_history_ids].
    rewrite F1, F2, F3, F4, F5, F6, F7, H5, H6.
    repeat split; [eexists; split; reflexivity | destruct (consent _); auto].
Qed.

Lemma Inline_act_same_cells (a : action) (w : world) : same_cells (st w) (st (Inline.act a w)).
Proof.
  destruct a as [f v|b|srv]; cbn [Inline.act].
  - destruct f; repeat split.
  - destruct (truthy _); repeat split.
  - destruct (_ || _); [apply same_cells_refl|].
    rewrite st_detach.
    destruct (handleSubmit_cases srv w) as [-> _]. apply same_cells_refl.
Qed.

Lemma Inline_act_protocol (srv : server) (id : jsval) (a : action) (w : world) :
  protocol srv id w -> protocol srv id (Inline.act a w).
Proof.
  intros H. apply (protocol_step srv id w _ H (Inline_act_same_cells a w)).
  destruct (act_sent a w) as [->|(b & Hs & Hb & Hd)]; [now left|].
  right. exists b. split; [exact Hb|]. split; [|exact Hs].
  unfold Inline.submit_disabled, truthy, notice_description in Hd.
  destruct (privacyNotice (st w)); discriminate.
Qed.

Lemma Inline_acts_protocol (srv : server) (id : jsval) (l : list action) (w : world) :
  protocol srv id w -> protocol srv id (Inline.acts l w).
Proof.
  revert w. induction l as [|a l IH]; intros w H; [exact H|].
  unfold Inline.acts in *. cbn [fold_left]. apply IH. now apply Inline_act_protocol.
Qed.

(** The start-up chain, run on a page that has sent nothing and shows
    no notice. *)
Lemma Inline_fetch_protocol (srv : server) (id : jsval) (w : world) :
  sent w = [] -> privacyNotice (st w) = Blank ->
  protocol srv id (Inline.fetchRegionAndNotices srv id w).
Proof.
  intros Hs Hb.
  assert (Hstop : forall l x, startup_requests id l ->
                    protocol srv id {| cookies := cookies w; st := st w; sent := l;
                                       unhandled := x |}).
  { intros l x Hl. exists l, []. cbn [sent st map]. rewrite app_nil_r, Hb. auto. }
  unfold Inline.fetchRegionAndNotices, Inline.after_location, Inline.fetchPrivacyExperiences, send.
  rewrite Hs. cbn [app sent st cookies unhandled].
  assert (H1 : startup_requests id [GetLocation]) by (right; now left).
  destruct (location_service srv) as [ld|e]; [|now apply Hstop].
  destruct (geography ld) as [geo|e]; [|now apply Hstop].
  destruct (if_truthy (region_of ld)) as [region|]; [|now apply Hstop].
  assert (H2 : startup_requests id [GetLocation; GetExperience (Str.toLowerCase region)]).
  { right; right; left. exists (Str.toLowerCase region). split; [apply toLowerCase_idem|].
    reflexivity. }
  destruct (experience_service srv _) as [[page|]|e]; try now apply Hstop.
  unfold Inline.processNotices. cbn [st sent cookies unhandled].
  assert (Hthrow : forall e0 : error,
             protocol srv id
               (detach (Throw e0)
                  {| cookies := cookies w; st := st w;
                     sent := [GetLocation; GetExperience (Str.toLowerCase region)];
                     unhandled := unhandled w |})).
  { intros e0. cbn [detach sent st cookies unhandled]. now apply Hstop. }
  destruct (items page) as [its|]; [|apply Hthrow].
  destruct (nth_error its 0) as [nd|]; [|apply Hthrow].
  destruct (Inline.signUpNotice (Some nd)) as [n|]; [|apply Hthrow].
  unfold send. cbn [sent st cookies unhandled app].
  assert (H3 : startup_requests id
                 [GetLocation; GetExperience (Str.toLowerCase region);
                  PatchNoticesServed (notices_served_body nd n id geo)]).
  { right; right; right. exists (Str.toLowerCase region), (notices_served_body nd n id geo).
    split; [apply toLowerCase_idem|]. split; reflexivity. }
  destruct (served_service srv _) as [resp|e] eqn:E.
  - cbn [detach set_state st sent].
    exists [GetLocation; GetExperience (Str.toLowerCase region);
            PatchNoticesServed (notices_served_body nd n id geo)], [].
    cbn [map]. split; [reflexivity|]. split; [exact H3|].
    cbn [store_notice privacyNotice privacyExperience noticeServed deviceId userGeo].
    exists (Str.toLowerCase region), nd, geo, resp. repeat split; auto.
  - cbn [detach sent st cookies unhandled]. now apply Hstop.
Qed.

Lemma Inline_session_protocol (c : clock) (srv : server) (early late : list action)
    (j : Cookie.jar) (r : json) (id : jsval) :
  fst (Inline.setOrCheckFidesConsentCookie c j) = Ok r -> device_id_of r = Ok id ->
  protocol srv id (Inline.session c srv early late j).
Proof.
  intros Hr Hid. rewrite Inline_session_atomic.
  destruct (useEffect_begin_world c j) as (Hst & Hsent & Hun).
  unfold Inline.useEffect_begin in *. cbn [fresh_world cookies] in *.
  destruct (Inline.setOrCheckFidesConsentCookie c j) as [r' j']. cbn [fst] in Hr. subst r'.
  rewrite Hid in *. cbn [snd] in *.
  apply Inline_acts_protocol.
  set (w0 := set_cookies j' (fresh_world j)) in *.
  assert (Hp : privacyNotice (st w0) = Blank) by (rewrite Hst; reflexivity).
  destruct (acts_gated early w0 Hp) as (G1 & _ & _ & G4 & _).
  apply Inline_fetch_protocol; [congruence | exact G4].
Qed.

Lemma Inline_session_protocol_ex (c : clock) (srv : server) (early late : list action)
    (j : Cookie.jar) :
  exists id, protocol srv id (Inline.session c srv early late j).
Proof.
  destruct (Inline.setOrCheckFidesConsentCookie c j) as [[r|e] j'] eqn:E.
  - destruct (device_id_of r) as [id|e] eqn:D.
    + exists id. apply (Inline_session_protocol c srv early late j r id); [|exact D].
      now rewrite E.
    + exists None. unfold Inline.session, Inline.useEffect_begin.
      cbn [fresh_world cookies]. rewrite E, D.
      exists [], []. split; [reflexivity|]. split; [now left | reflexivity].
  - exists None. unfold Inline.session, Inline.useEffect_begin.
    cbn [fresh_world cookies]. rewrite E.
    exists [], []. split; [reflexivity|]. split; [now left | reflexivity].
Qed.

(** X9.  The requests of a session come in a fixed order: first the
    start-up chain (the location, then the catalogue for a lower-cased
    region, then the served event), which may stop after any of its
    requests, and after it nothing but preference requests.  A
    preference request is sent only when the chain went through all
    three requests and a notice is on the page. *)
Theorem session_request_order (c : clock) (srv : server) (early late : list action)
    (j : Cookie.jar) :
  let W := Inline.session c srv early late j in
  exists id startup prefs,
    sent W = (startup ++ map PatchPreferences prefs)%list
    /\ startup_requests id startup
    /\ (prefs <> [] ->
        List.length startup = 3 /\ exists n, privacyNotice (st W) = Val n).
Proof.
  cbv zeta. destruct (Inline_session_protocol_ex c srv early late j) as [id H].
  destruct H as (startup & prefs & Hsent & Hstart & Hcells).
  exists id, startup, prefs. split; [exact Hsent|]. split; [exact Hstart|].
  intros Hne. destruct (privacyNotice (st _)) as [| |n]; [congruence | contradiction |].
  destruct Hcells as (r & nd & geo & resp & -> & _). split; [reflexivity | eauto].
Qed.

(** X10.  Every preference request of a session repeats the served
    event of that session: the same device id, experience, geography
    and notice as the served-event request, the served-history id of
    the first element of the answer to it, the method [button], and
    [opt_in] or [opt_out] for the preference. *)
Theorem preference_repeats_served_event (c : clock) (srv : server)
    (early late : list action) (j : Cookie.jar) (b : PreferencesBody)
    (Hsent : In (PatchPreferences b) (sent (Inline.session c srv early late j))) :
  exists nb x rest,
    In (PatchNoticesServed nb) (sent (Inline.session c srv early late j))
    /\ served_service srv nb = Ok (x :: rest)
    /\ preference_matches nb x b.
Proof.
  destruct (Inline_session_protocol_ex c srv early late j) as [id H].
  destruct H as (startup & prefs & Hs & Hstart & Hcells).
  rewrite Hs in Hsent |- *.
  assert (Hin : In b prefs).
  { apply in_app_or in Hsent. destruct Hsent as [Hin|Hin].
    - destruct Hstart as [->|[->|[(r & _ & ->)|(r & nb & _ & _ & ->)]]];
        cbn [In] in Hin; intuition discriminate.
    - apply in_map_iff in Hin. destruct Hin as (b' & [= ->] & Hin). exact Hin. }
  destruct (privacyNotice (st _)) as [| |n]; [subst prefs; destruct Hin | contradiction |].
  destruct Hcells as (r & nd & geo & resp & -> & Hserved & _ & _ & _ & _ & Hall).
  rewrite Forall_forall in Hall. destruct (Hall b Hin) as (x & rest & -> & Hm).
  exists (notices_served_body nd n id geo), x, rest.
  split; [|split; [exact Hserved | exact Hm]].
  apply in_or_app. left. cbn [In]. auto.
Qed.

Lemma preference_repeats_served_event_witness :
  let W := Inline.session sample_clock sample_server []
             (fill_form ++ [Toggle true; Submit sample_server;
                            Toggle false; Submit sample_server]) [] in
  exists b nb,
    In (PatchPreferences b) (sent W) /\ preference b = "opt_out"
    /\ In (PatchNoticesServed nb) (sent W)
    /\ preference_matches nb sample_served b.
Proof.
  cbv zeta.
  set (b := {| pref_device_id := Some (JStr (fresh_uuid sample_clock));
               pref_notice_history_id := Some "pri_hist_2";
               preference := "opt_out";
               pref_served_notice_history_id := Some "ser_hist_1";
               pref_experience_id := Some "pri_exp_1";
               pref_geography := Some "en_us";
               method := "button" |}).
  assert (Hin : In (PatchPreferences b)
                  (sent (Inline.session sample_clock sample_server []
                           (fill_form ++ [Toggle true; Submit sample_server;
                                          Toggle false; Submit sample_server]) [])))
    by (vm_compute; auto 6).
  destruct (preference_repeats_served_event sample_clock sample_server [] _ [] b Hin)
    as (nb & x & rest & H1 & H2 & H3).
  exists b, nb. split; [exact Hin|]. split; [reflexivity|]. split; [exact H1|].
  injection H2 as <- _. exact H3.
Defined.

(** ** The identity of the device through a session *)

Lemma assign_consent_identity (value : bool) (r r' : json) :
  assign_consent value r = Ok r' -> device_id_of r' = device_id_of r.
Proof.
  unfold assign_consent. destruct r as [| | | | |fs]; try discriminate.
  destruct (obj_get "consent" fs) as [[| | | |l|cs]|]; try discriminate.
  - now intros [= <-].
  - intros [= <-]. unfold device_id_of, get_prop. now rewrite obj_get_set.
Qed.

(** A successful [updateConsentCookie] on a record that loads: the
    record stored is the old one after the assignment, and it loads. *)
Lemma Inline_update_loaded (value : bool) (j j' : Cookie.jar) (r : json) :
  jar_ok j -> load j = Ok (Some r) -> json_text r = true ->
  Inline.updateConsentCookie value j = Ok j' ->
  exists r',
    assign_consent value r = Ok r'
    /\ j' = Cookie.put cookieName (Inline.encodeCookie (JSON.stringify r')) j
    /\ jar_ok j' /\ load j' = Ok (Some r') /\ json_text r' = true.
Proof.
  intros Hjar Hload Htext. unfold load in Hload. unfold Inline.updateConsentCookie.
  change "fides_consent" with cookieName.
  destruct (Inline.getCookie cookieName j) as [text|e]; [|discriminate]. cbn [bind] in *.
  destruct (if_truthy text) as [t|]; [|discriminate].
  destruct (JSON.parse t) as [r1|e] eqn:Hp; [|discriminate]. cbn [bind] in *.
  injection Hload as ->.
  destruct (assign_consent value r) as [r'|e] eqn:Ha; [|discriminate]. cbn [bind].
  intros [= <-]. exists r'. split; [reflexivity|].
  assert (Hwf : json_wf r' = true).
  { apply (assign_consent_wf value r); [exact (parse_wf t _ Hp) | exact Ha]. }
  assert (Htext' : json_text r' = true) by exact (assign_consent_text value _ _ Htext Ha).
  destruct (encode_safe (JSON.stringify r')) as [Hsafe Heq].
  assert (Hsemi : Str.contains_char ";" (Inline.encodeCookie (JSON.stringify r')) = false)
    by now apply cookie_safe_no_semicolon.
  change (String "f" (String "i" (String "d" (String "e" (String "s"
            (String "_" (String "c" (String "o" (String "n" (String "s" (String "e"
            (String "n" (String "t" (String "="
               (Inline.encodeCookie (JSON.stringify r') ++ cookie_attributes)))))))))))))))
    with (cookieName ++ "=" ++ Inline.encodeCookie (JSON.stringify r') ++ cookie_attributes).
  rewrite set_document_cookie_put by (auto; discriminate).
  split; [reflexivity|]. split; [|split; [|exact Htext']].
  - apply put_ok; [exact Hjar | now apply cookieName_ok].
  - apply load_put; auto. apply decode_encode. now apply stringify_valid.
Qed.

Lemma record_kept_update (r0 : json) (value : bool) (j j' : Cookie.jar) :
  record_kept r0 j -> Inline.updateConsentCookie value j = Ok j' -> record_kept r0 j'.
Proof.
  intros (r & Hjar & Hload & Htext & Hid) Hu.
  destruct (Inline_update_loaded value j j' r Hjar Hload Htext Hu)
    as (r' & Ha & _ & Hjar' & Hload' & Htext').
  exists r'. repeat (split; [assumption|]).
  now rewrite (assign_consent_identity value r r' Ha).
Qed.

Lemma record_kept_act (r0 : json) (a : action) (w : world) :
  record_kept r0 (cookies w) -> record_kept r0 (cookies (Inline.act a w)).
Proof.
  intros H. destruct a as [f v|b|srv]; cbn [Inline.act].
  - exact H.
  - destruct (truthy _); exact H.
  - destruct (_ || _); [exact H|].
    rewrite cookies_detach.
    destruct (Inline_handleSubmit_cookies srv w) as [->|Hu]; [exact H|].
    exact (record_kept_update r0 _ _ _ H Hu).
Qed.

Lemma record_kept_acts (r0 : json) (l : list action) (w : world) :
  record_kept r0 (cookies w) -> record_kept r0 (cookies (Inline.acts l w)).
Proof.
  revert w. induction l as [|a l IH]; intros w H; [exact H|].
  unfold Inline.acts in *. cbn [fold_left]. apply IH. now apply record_kept_act.
Qed.

(** The record the session starts with. *)
Lemma record_kept_start (c : clock) (j : Cookie.jar) :
  jar_ok j ->
  (load j = Ok None /\ clock_ok c)
  \/ (exists r1, load j = Ok (Some r1) /\ json_text r1 = true) ->
  exists r0 j0,
    Inline.setOrCheckFidesConsentCookie c j = (Ok r0, j0)
    /\ record_kept r0 j0
    /\ (forall r1, load j = Ok (Some r1) -> r0 = r1).
Proof.
  intros Hjar [[Hnone Hc]|(r1 & Hload & Htext)].
  - destruct (setOrCheck_creates c j Hjar Hc Hnone) as [H1 H2].
    exists (consentObject c), (Cookie.put cookieName (JSON.stringify (consentObject c)) j).
    split; [exact H1|]. split; [|congruence].
    exists (consentObject c). split; [|split; [exact H2|split; [|reflexivity]]].
    + apply put_ok; [exact Hjar|]. apply cookieName_ok.
      destruct (consentObject_text c Hc) as [Hplain _].
      now destruct (plain_spec _ Hplain) as (_ & _ & _ & Hsemi).
    + now apply consentObject_json_text.
  - exists r1, j. split; [now apply setOrCheck_loaded|]. split; [|congruence].
    exists r1. auto.
Qed.

(** X11.  Starting from a jar whose consent cookie is absent, or holds
    a record with well-formed text that loads: at the end of every
    session the cookie still holds a record that loads, with the
    identity the session started with (the stored one, when there was
    one), and that identity is the device id of the served-event
    request and of every preference request of the session. *)
Theorem session_identity_stable (c : clock) (srv : server) (early late : list action)
    (j : Cookie.jar)
    (Hjar : jar_ok j)
    (Hslot : (load j = Ok None /\ clock_ok c)
             \/ (exists r1, load j = Ok (Some r1) /\ json_text r1 = true)) :
  let W := Inline.session c srv early late j in
  exists r0 r,
    fst (Inline.setOrCheckFidesConsentCookie c j) = Ok r0
    /\ (forall r1, load j = Ok (Some r1) -> r0 = r1)
    /\ load (cookies W) = Ok (Some r)
    /\ device_id_of r = device_id_of r0
    /\ (forall nb, In (PatchNoticesServed nb) (sent W) ->
                   device_id_of r = Ok (served_device_id nb))
    /\ (forall b, In (PatchPreferences b) (sent W) ->
                  device_id_of r = Ok (pref_device_id b)).
Proof.
  cbv zeta. destruct (record_kept_start c j Hjar Hslot) as (r0 & j0 & Hset & Hkept & Hsame).
  assert (Hfst : fst (Inline.setOrCheckFidesConsentCookie c j) = Ok r0) by now rewrite Hset.
  destruct (device_id_of r0) as [id|e] eqn:D.
  - pose proof (Inline_session_protocol c srv early late j r0 id Hfst D) as Hp.
    assert (Hk : record_kept r0 (cookies (Inline.session c srv early late j))).
    { rewrite Inline_session_atomic. unfold Inline.useEffect_begin. cbn [fresh_world cookies].
      rewrite Hset, D. apply record_kept_acts. rewrite Inline_fetch_cookies.
      apply record_kept_acts. exact Hkept. }
    destruct Hk as (r & _ & Hload & _ & Hid).
    exists r0, r. split; [exact Hfst|]. split; [exact Hsame|]. split; [exact Hload|].
    rewrite Hid, D. split; [reflexivity|].
    destruct Hp as (startup & prefs & Hs & Hstart & Hcells). rewrite Hs.
    split.
    + intros nb Hin. apply in_app_or in Hin. destruct Hin as [Hin|Hin].
      * destruct Hstart as [->|[->|[(x & _ & ->)|(x & nb' & _ & Hnb & ->)]]];
          cbn [In] in Hin; try intuition discriminate.
        destruct Hin as [|[|[[= ->]|[]]]]; try discriminate. now rewrite Hnb.
      * apply in_map_iff in Hin. destruct Hin as (b' & [=] & _).
    + intros b Hin. apply in_app_or in Hin. destruct Hin as [Hin|Hin].
      * destruct Hstart as [->|[->|[(x & _ & ->)|(x & nb' & _ & Hnb & ->)]]];
          cbn [In] in Hin; intuition discriminate.
      * apply in_map_iff in Hin. destruct Hin as (b' & [= ->] & Hin).
        destruct (privacyNotice (st _)) as [| |n];
          [subst prefs; destruct Hin | contradiction |].
        destruct Hcells as (x & nd & geo & resp & _ & _ & _ & _ & _ & _ & Hall).
        rewrite Forall_forall in Hall. destruct (Hall b Hin) as (y & rest & _ & Hm & _).
        now rewrite Hm.
  - destruct Hkept as (r & _ & Hload & _ & Hid).
    exists r0, r. split; [exact Hfst|]. split; [exact Hsame|].
    rewrite Inline_session_atomic. unfold Inline.useEffect_begin. cbn [fresh_world cookies].
    rewrite Hset, D. cbn [set_cookies cookies sent].
    split; [exact Hload|]. split; [congruence|]. split; intros ? [].
Qed.

Lemma session_identity_stable_witness :
  let W := Inline.session sample_clock sample_server []
             (fill_form ++ [Toggle true; Submit sample_server;
                            Toggle false; Submit sample_server]) other_cookies in
  exists r,
    load (cookies W) = Ok (Some r)
    /\ device_id_of r = Ok (Some (JStr (fresh_uuid sample_clock)))
    /\ List.length (filter is_preferences (sent W)) = 2
    /\ (forall b, In (PatchPreferences b) (sent W) ->
                  pref_device_id b = Some (JStr (fresh_uuid sample_clock))).
Proof.
  cbv zeta.
  destruct (session_identity_stable sample_clock sample_server []
              (fill_form ++ [Toggle true; Submit sample_server;
                             Toggle false; Submit sample_server]) other_cookies
              other_cookies_ok (or_introl (conj other_cookies_empty_slot sample_clock_ok)))
    as (r0 & r & H0 & _ & H2 & H3 & _ & H5).
  destruct (setOrCheck_creates sample_clock other_cookies other_cookies_ok
              sample_clock_ok other_cookies_empty_slot) as [Hc _].
  rewrite Hc in H0. injection H0 as <-.
  exists r. split; [exact H2|]. split; [exact H3|]. split; [vm_compute; reflexivity|].
  intros b Hin. specialize (H5 b Hin). rewrite H3 in H5.
  injection H5 as H5. symmetry. exact H5.
Defined.

(** ** Repeated updates of the consent cookie *)

Lemma obj_set_twice (k : string) (x y : json) (fs : list (string * json)) :
  obj_set k x (obj_set k y fs) = obj_set k x fs.
Proof.
  induction fs as [|[n v] fs IH]; cbn [obj_set].
  - now rewrite String.eqb_refl.
  - destruct (String.eqb k n) eqn:E; cbn [obj_set]; rewrite E; [reflexivity | now rewrite IH].
Qed.

Lemma put_twice (n x y : string) (j : Cookie.jar) :
  Cookie.put n x (Cookie.put n y j) = Cookie.put n x j.
Proof.
  induction j as [|[m v] j IH]; cbn [Cookie.put].
  - now rewrite String.eqb_refl.
  - destruct (String.eqb n m) eqn:E; cbn [Cookie.put]; rewrite E; [reflexivity | now rewrite IH].
Qed.

Lemma assign_consent_twice (v1 v2 : bool) (r r1 : json) :
  assign_consent v1 r = Ok r1 -> assign_consent v2 r1 = assign_consent v2 r.
Proof.
  unfold assign_consent. destruct r as [| | | | |fs]; try discriminate.
  destruct (obj_get "consent" fs) as [[| | | |l|cs]|] eqn:E; try discriminate.
  - intros [= <-]. now rewrite E.
  - intros [= <-]. rewrite obj_get_set. cbn [String.eqb Ascii.eqb Bool.eqb].
    now rewrite !obj_set_twice.
Qed.

(** [updateConsentCookie] on a jar whose record loads. *)
Lemma Inline_update_spec (value : bool) (j : Cookie.jar) (r : json) :
  jar_ok j -> load j = Ok (Some r) ->
  Inline.updateConsentCookie value j
  = let* r' := assign_consent value r in
    Ok (Cookie.put cookieName (Inline.encodeCookie (JSON.stringify r')) j).
Proof.
  intros Hjar Hload. unfold load in Hload. unfold Inline.updateConsentCookie.
  change "fides_consent" with cookieName.
  destruct (Inline.getCookie cookieName j) as [text|e]; [|discriminate]. cbn [bind] in *.
  destruct (if_truthy text) as [t|]; [|discriminate].
  destruct (JSON.parse t) as [r1|e] eqn:Hp; [|discriminate]. cbn [bind] in *.
  injection Hload as ->.
  destruct (assign_consent value r) as [r'|e] eqn:Ha; [|reflexivity]. cbn [bind].
  destruct (encode_safe (JSON.stringify r')) as [Hsafe Heq].
  change ("fides_consent=" ++ Inline.encodeCookie (JSON.stringify r') ++ cookie_attributes)
    with (cookieName ++ "=" ++ Inline.encodeCookie (JSON.stringify r') ++ cookie_attributes).
  now rewrite set_document_cookie_put by (auto; discriminate).
Qed.

(** X12.  Of two updates of the consent cookie in a row, the last one
    decides: after a successful update, a further update has the
    result it would have had on the jar before, and repeating the
    update with the same value changes nothing. *)
Theorem updateConsentCookie_last_wins (v1 : bool) (j j1 : Cookie.jar) (r : json)
    (Hjar : jar_ok j) (Hload : load j = Ok (Some r)) (Htext : json_text r = true)
    (Hfirst : Inline.updateConsentCookie v1 j = Ok j1) :
  (forall v2, Inline.updateConsentCookie v2 j1 = Inline.updateConsentCookie v2 j)
  /\ Inline.updateConsentCookie v1 j1 = Ok j1.
Proof.
  destruct (Inline_update_loaded v1 j j1 r Hjar Hload Htext Hfirst)
    as (r1 & Ha & Hj1 & Hjar1 & Hload1 & _).
  assert (H : forall v2, Inline.updateConsentCookie v2 j1 = Inline.updateConsentCookie v2 j).
  { intros v2.
    rewrite (Inline_update_spec v2 j1 r1 Hjar1 Hload1), (Inline_update_spec v2 j r Hjar Hload).
    rewrite (assign_consent_twice v1 v2 r r1 Ha).
    destruct (assign_consent v2 r) as [r2|e]; [|reflexivity]. cbn [bind].
    now rewrite Hj1, put_twice. }
  split; [exact H|]. now rewrite H.
Qed.

Lemma updateConsentCookie_last_wins_witness :
  exists j1 j2,
    Inline.updateConsentCookie true visited_cookies = Ok j1
    /\ Inline.updateConsentCookie false j1 = Ok j2
    /\ Inline.updateConsentCookie false visited_cookies = Ok j2
    /\ j1 <> j2.
Proof.
  destruct visited_cookies_loaded as [Hjar Hload].
  assert (H1 : Inline.updateConsentCookie true visited_cookies
               = Ok (Cookie.put cookieName
                       (Inline.encodeCookie
                          (JSON.stringify
                             (JObj (obj_set "consent"
                                      (JObj [("advertising_and_email_signup", JBool true)])
                                      [ ("consent",
                                         JObj [("advertising_and_email_signup", JBool false)]);
                                        ("identity",
                                         JObj [("fides_user_device_id",
                                                JStr (fresh_uuid sample_clock))]);
                                        ("fides_meta",
                                         JObj [ ("version", JStr "0.9.0");
                                                ("createdAt", JStr (created_now sample_clock));
                                                ("updatedAt", JStr (updated_now sample_clock)) ])
                                      ]))))
                       visited_cookies)).
  { rewrite (Inline_update_spec true visited_cookies _ Hjar Hload). reflexivity. }
  destruct (updateConsentCookie_last_wins true visited_cookies _ _ Hjar Hload eq_refl H1)
    as [H2 _].
  eexists. exists (Cookie.put cookieName
                     (Inline.encodeCookie (JSON.stringify (consentObject sample_clock)))
                     visited_cookies).
  split; [exact H1|].
  assert (H3 : Inline.updateConsentCookie false visited_cookies
               = Ok (Cookie.put cookieName
                       (Inline.encodeCookie (JSON.stringify (consentObject sample_clock)))
                       visited_cookies)).
  { rewrite (Inline_update_spec false visited_cookies _ Hjar Hload). reflexivity. }
  split; [rewrite H2; exact H3|]. split; [exact H3|].
  vm_compute. discriminate.
Defined.

(** ** Sessions of [src/App.tsx] *)

(** What [handleSubmit] of [src/App.tsx] does to the page. *)
Lemma Basic_handleSubmit_cases (srv : server) (w : world) :
  st (snd (Basic.handleSubmit srv w)) = st w
  /\ (sent (snd (Basic.handleSubmit srv w)) = sent w
      \/ exists b, consent (formData (st w)) = true
                   /\ preferences_body (st w) = Ok b
                   /\ sent (snd (Basic.handleSubmit srv w))
                      = (sent w ++ [PatchPreferences b])%list).
Proof.
  unfold Basic.handleSubmit.
  destruct (consent (formData (st w))) eqn:C; [|auto].
  destruct (Basic.update_cookie (cookies w)) as [j|e]; [|auto].
  cbn [set_cookies st].
  destruct (preferences_body (st w)) as [b|e] eqn:B; [|auto].
  destruct (preference_service srv b); cbn [snd send st sent]; split; auto;
    right; exists b; auto.
Qed.

Lemma Basic_act_same_cells (a : action) (w : world) : same_cells (st w) (st (Basic.act a w)).
Proof.
  destruct a as [f v|b|srv]; cbn [Basic.act].
  - destruct f; repeat split.
  - destruct (truthy _); repeat split.
  - destruct (fields_filled _); [|apply same_cells_refl].
    rewrite st_detach.
    destruct (Basic_handleSubmit_cases srv w) as [-> _]. apply same_cells_refl.
Qed.

Lemma Basic_act_sent (a : action) (w : world) :
  sent (Basic.act a w) = sent w
  \/ exists b, consent (formData (st w)) = true
               /\ preferences_body (st w) = Ok b
               /\ sent (Basic.act a w) = (sent w ++ [PatchPreferences b])%list.
Proof.
  destruct a as [f v|b|srv]; cbn [Basic.act]; auto.
  - destruct (truthy _); auto.
  - destruct (fields_filled _); [|auto].
    rewrite sent_detach.
    destruct (Basic_handleSubmit_cases srv w) as [_ H]. exact H.
Qed.

Lemma Basic_act_consent (a : action) (w : world) :
  consent_needs_notice w -> consent_needs_notice (Basic.act a w).
Proof.
  unfold consent_needs_notice. intros H.
  destruct a as [f v|b|srv]; cbn [Basic.act].
  - destruct f; exact H.
  - destruct (truthy (notice_description (st w))) eqn:T; [|rewrite T; exact H].
    intros _. exact T.
  - destruct (fields_filled _); [|exact H].
    rewrite st_detach.
    destruct (Basic_handleSubmit_cases srv w) as [-> _]. exact H.
Qed.

Lemma Basic_act_invariant (srv : server) (id : jsval) (a : action) (w : world) :
  protocol srv id w /\ consent_needs_notice w /\ only_opt_in (sent w) ->
  protocol srv id (Basic.act a w) /\ consent_needs_notice (Basic.act a w)
  /\ only_opt_in (sent (Basic.act a w)).
Proof.
  intros (Hp & Hc & Ho). split; [|split; [now apply Basic_act_consent|]].
  - apply (protocol_step srv id w _ Hp (Basic_act_same_cells a w)).
    destruct (Basic_act_sent a w) as [->|(b & C & Hb & Hs)]; [now left|].
    right. exists b. split; [exact Hb|]. split; [|exact Hs].
    specialize (Hc C). unfold truthy, notice_description in Hc.
    destruct (privacyNotice (st w)); discriminate.
  - destruct (Basic_act_sent a w) as [->|(b & C & Hb & ->)]; [exact Ho|].
    intros b' Hin. apply in_app_or in Hin. destruct Hin as [Hin|[[= <-]|[]]]; [auto|].
    destruct (preferences_body_fields (st w) Hb) as [-> _]. now rewrite C.
Qed.

Lemma Basic_acts_invariant (srv : server) (id : jsval) (l : list action) (w : world) :
  protocol srv id w /\ consent_needs_notice w /\ only_opt_in (sent w) ->
  protocol srv id (Basic.acts l w) /\ consent_needs_notice (Basic.acts l w)
  /\ only_opt_in (sent (Basic.acts l w)).
Proof.
  revert w. induction l as [|a l IH]; intros w H; [exact H|].
  unfold Basic.acts in *. cbn [fold_left]. apply IH. now apply Basic_act_invariant.
Qed.

(** While no notice is shown the consent flag is not set, and the form
    of [src/App.tsx] does not send or store anything. *)
Lemma Basic_acts_gated (l : list action) (w : world) :
  privacyNotice (st w) = Blank -> consent (formData (st w)) = false ->
  sent (Basic.acts l w) = sent w /\ cookies (Basic.acts l w) = cookies w
  /\ privacyNotice (st (Basic.acts l w)) = Blank
  /\ consent (formData (st (Basic.acts l w))) = false.
Proof.
  revert w. induction l as [|a l IH]; intros w Hp Hc; [auto|].
  unfold Basic.acts in *. cbn [fold_left].
  assert (H : sent (Basic.act a w) = sent w /\ cookies (Basic.act a w) = cookies w
              /\ privacyNotice (st (Basic.act a w)) = Blank
              /\ consent (formData (st (Basic.act a w))) = false).
  { destruct a as [f v|b|srv]; cbn [Basic.act].
    - destruct f; auto.
    - unfold truthy, notice_description. rewrite Hp. auto.
    - destruct (fields_filled _); [|auto].
      unfold Basic.handleSubmit. rewrite Hc. auto. }
  destruct H as (H1 & H2 & H3 & H4).
  destruct (IH (Basic.act a w) H3 H4) as (I1 & I2 & I3 & I4).
  repeat split; congruence.
Qed.

Lemma Basic_act_send (r : request) (a : action) (w : world) :
  privacyNotice (st w) = Blank -> consent (formData (st w)) = false ->
  Basic.act a (send r w) = send r (Basic.act a w)
  /\ privacyNotice (st (Basic.act a w)) = Blank
  /\ consent (formData (st (Basic.act a w))) = false.
Proof.
  intros Hp Hc. destruct a as [f v|b|srv']; cbn [Basic.act send st].
  - destruct f; auto.
  - unfold truthy, notice_description. rewrite Hp. auto.
  - destruct (fields_filled _); [|auto].
    unfold Basic.handleSubmit. cbn [send st]. rewrite Hc. cbn [fst snd detach]. auto.
Qed.

Lemma Basic_acts_send (r : request) (l : list action) (w : world) :
  privacyNotice (st w) = Blank -> consent (formData (st w)) = false ->
  Basic.acts l (send r w) = send r (Basic.acts l w).
Proof.
  revert w. induction l as [|a l IH]; intros w Hp Hc; [reflexivity|].
  unfold Basic.acts in *. cbn [fold_left].
  destruct (Basic_act_send r a w Hp Hc) as (-> & Hp' & Hc'). now apply IH.
Qed.

(** A session of [src/App.tsx], with the actions of the user before
    the chain put in front of the location request. *)
Lemma Basic_session_atomic (c : clock) (srv : server) (early late : list action)
    (j : Cookie.jar) :
  Basic.session c srv early late j
  = match Basic.useEffect_begin c (fresh_world j) with
    | (Throw _, w) => w
    | (Ok fidesDeviceId, w) =>
        Basic.acts late (Basic.fetchRegionAndNotices srv fidesDeviceId (Basic.acts early w))
    end.
Proof.
  unfold Basic.session, Basic.fetchRegionAndNotices, Basic.fetch_chain.
  assert (Hst : st (snd (Basic.useEffect_begin c (fresh_world j))) = initial_state).
  { unfold Basic.useEffect_begin.
    destruct (Basic.setOrCheckFidesConsentCookie c _) as [[r|e] j']; reflexivity. }
  destruct (Basic.useEffect_begin c (fresh_world j)) as [[id|e] w]; [|reflexivity].
  cbn [snd] in Hst. rewrite Basic_acts_send; [reflexivity| |]; now rewrite Hst.
Qed.

Lemma Inline_processNotices_formData srv page id geo (w : world) :
  formData (st (snd (Inline.processNotices srv page id geo w))) = formData (st w).
Proof.
  unfold Inline.processNotices.
  destruct (items page) as [its|]; [|reflexivity].
  destruct (nth_error its 0) as [nd|]; [|reflexivity].
  destruct (Inline.signUpNotice (Some nd)) as [n|]; [|reflexivity].
  destruct (served_service srv _); reflexivity.
Qed.

(** The start-up chain leaves the form as the user filled it. *)
Lemma Inline_fetch_formData (srv : server) (id : jsval) (w : world) :
  formData (st (Inline.fetchRegionAndNotices srv id w)) = formData (st w).
Proof.
  unfold Inline.fetchRegionAndNotices, Inline.after_location.
  destruct (location_service srv) as [ld|e]; [|reflexivity].
  destruct (geography ld) as [geo|e]; [|reflexivity].
  destruct (if_truthy (region_of ld)) as [region|]; [|reflexivity].
  destruct (Inline.fetchPrivacyExperiences srv _) as [[page|]|e]; try reflexivity.
  pose proof (Inline_processNotices_formData srv page id geo
                (send (GetExperience (Str.toLowerCase region)) (send GetLocation w))) as H.
  destruct (Inline.processNotices srv page id geo _) as [p w3].
  now rewrite st_detach.
Qed.

Lemma Basic_useEffect_begin_world (c : clock) (j : Cookie.jar) :
  st (snd (Basic.useEffect_begin c (fresh_world j))) = initial_state
  /\ sent (snd (Basic.useEffect_begin c (fresh_world j))) = [].
Proof.
  unfold Basic.useEffect_begin.
  destruct (Basic.setOrCheckFidesConsentCookie c _) as [[r|e] j']; simpl; auto.
Qed.

Lemma startup_no_preference (id : jsval) (l : list request) (b : PreferencesBody) :
  startup_requests id l -> ~ In (PatchPreferences b) l.
Proof.
  intros [->|[->|[(r & _ & ->)|(r & nb & _ & _ & ->)]]] Hin;
    cbn [In] in Hin; intuition discriminate.
Qed.

(** The requests of the start-up chain, run on a page that has sent
    nothing. *)
Lemma Inline_fetch_startup (srv : server) (id : jsval) (w : world) :
  sent w = [] -> startup_requests id (sent (Inline.fetchRegionAndNotices srv id w)).
Proof.
  intros Hs. unfold Inline.fetchRegionAndNotices, Inline.after_location, Inline.fetchPrivacyExperiences.
  assert (H1 : startup_requests id (sent (send GetLocation w))).
  { cbn [send sent]. rewrite Hs. right. now left. }
  destruct (location_service srv) as [ld|e]; [|exact H1].
  destruct (geography ld) as [geo|e]; [|exact H1].
  destruct (if_truthy (region_of ld)) as [region|]; [|exact H1].
  assert (H2 : startup_requests id
                 (sent (send (GetExperience (Str.toLowerCase region)) (send GetLocation w)))).
  { cbn [send sent]. rewrite Hs. right; right; left.
    exists (Str.toLowerCase region). split; [apply toLowerCase_idem | reflexivity]. }
  destruct (experience_service srv _) as [[page|]|e]; try exact H2.
  unfold Inline.processNotices.
  destruct (items page) as [its|]; [|exact H2].
  destruct (nth_error its 0) as [nd|]; [|exact H2].
  destruct (Inline.signUpNotice (Some nd)) as [n|]; [|exact H2].
  assert (H3 : startup_requests id
                 (sent (send (PatchNoticesServed (notices_served_body nd n id geo))
                          (send (GetExperience (Str.toLowerCase region))
                             (send GetLocation w))))).
  { cbn [send sent]. rewrite Hs. right; right; right.
    exists (Str.toLowerCase region), (notices_served_body nd n id geo).
    split; [apply toLowerCase_idem|]. split; reflexivity. }
  destruct (served_service srv _); exact H3.
Qed.

Lemma Basic_session_invariant (c : clock) (srv : server) (early late : list action)
    (j : Cookie.jar) :
  exists id,
    protocol srv id (Basic.session c srv early late j)
    /\ consent_needs_notice (Basic.session c srv early late j)
    /\ only_opt_in (sent (Basic.session c srv early late j)).
Proof.
  rewrite Basic_session_atomic.
  destruct (Basic_useEffect_begin_world c j) as (Hst & Hsent).
  destruct (Basic.useEffect_begin c (fresh_world j)) as [[id|e] w]; cbn [snd] in *.
  - exists id. apply Basic_acts_invariant.
    assert (Hp : privacyNotice (st w) = Blank) by (rewrite Hst; reflexivity).
    assert (Hc : consent (formData (st w)) = false) by (rewrite Hst; reflexivity).
    destruct (Basic_acts_gated early w Hp Hc) as (G1 & _ & G3 & G4).
    destruct (fetch_chains_agree srv id (Basic.acts early w)) as (_ & F2 & F3 & _).
    assert (G0 : sent (Basic.acts early w) = []) by congruence.
    split; [|split].
    + apply (protocol_ext srv id (Inline.fetchRegionAndNotices srv id (Basic.acts early w)));
        [exact F3 | exact F2 |].
      apply Inline_fetch_protocol; [exact G0 | exact G3].
    + unfold consent_needs_notice. rewrite F2 at 1. rewrite Inline_fetch_formData, G4.
      discriminate.
    + rewrite F3. intros b Hin. exfalso.
      exact (startup_no_preference id _ b (Inline_fetch_startup srv id _ G0) Hin).
  - exists None. split; [|split].
    + exists [], []. rewrite Hsent, Hst. split; [reflexivity|]. split; [now left | reflexivity].
    + unfold consent_needs_notice. rewrite Hst. discriminate.
    + rewrite Hsent. intros b [].
Qed.

(** X13.  In every session of [src/App.tsx]: the requests come in the
    order of the start-up chain followed by preference requests only; a
    preference request is sent only after the whole chain; every
    preference request says [opt_in], repeats the device id,
    experience, geography and notice of the served-event request and
    cites the first element of the answer to it; and the consent flag
    of the form is set only while a notice with a description is
    shown. *)
Theorem Basic_session_requests (c : clock) (srv : server) (early late : list action)
    (j : Cookie.jar) :
  let W := Basic.session c srv early late j in
  (exists id startup prefs,
      sent W = (startup ++ map PatchPreferences prefs)%list
      /\ startup_requests id startup
      /\ (prefs <> [] -> List.length startup = 3))
  /\ (forall b, In (PatchPreferences b) (sent W) ->
         preference b = "opt_in"
         /\ exists nb x rest,
              In (PatchNoticesServed nb) (sent W)
              /\ served_service srv nb = Ok (x :: rest)
              /\ preference_matches nb x b)
  /\ consent_needs_notice W.
Proof.
  cbv zeta. destruct (Basic_session_invariant c srv early late j) as (id & Hp & Hc & Ho).
  destruct Hp as (startup & prefs & Hs & Hstart & Hcells).
  split; [|split; [|exact Hc]].
  - exists id, startup, prefs. split; [exact Hs|]. split; [exact Hstart|].
    intros Hne. destruct (privacyNotice (st _)) as [| |n]; [congruence | contradiction |].
    now destruct Hcells as (r & nd & geo & resp & -> & _).
  - intros b Hsent. split; [now apply Ho|].
    rewrite Hs in Hsent |- *.
    assert (Hin : In b prefs).
    { apply in_app_or in Hsent. destruct Hsent as [Hin|Hin].
      - exfalso. exact (startup_no_preference id startup b Hstart Hin).
      - apply in_map_iff in Hin. destruct Hin as (b' & [= ->] & Hin). exact Hin. }
    destruct (privacyNotice (st _)) as [| |n]; [subst prefs; destruct Hin | contradiction |].
    destruct Hcells as (r & nd & geo & resp & -> & Hserved & _ & _ & _ & _ & Hall).
    rewrite Forall_forall in Hall. destruct (Hall b Hin) as (x & rest & -> & Hm).
    exists (notices_served_body nd n id geo), x, rest.
    split; [|split; [exact Hserved | exact Hm]].
    apply in_or_app. left. cbn [In]. auto.
Qed.

(** ** The cookie text written without encoding *)

Lemma contains_char_split (a : ascii) (s : string) :
  Str.contains_char a s = true ->
  exists p q, s = p ++ String a q /\ Str.contains_char a p = false.
Proof.
  induction s as [|c s IH]; cbn [Str.contains_char]; [discriminate|].
  destruct (Ascii.eqb c a) eqn:E.
  - intros _. apply Ascii.eqb_eq in E. subst c. exists "", s. split; reflexivity.
  - cbn [orb]. intros H. destruct (IH H) as (p & q & -> & Hp).
    exists (String c p), q. split; [reflexivity|]. cbn [Str.contains_char]. now rewrite E, Hp.
Qed.

Lemma trim_left_length (s : string) : length (Str.trim_left s) <= length s.
Proof.
  induction s as [|c s IH]; cbn [Str.trim_left]; [lia|].
  destruct (Str.is_blank c); cbn [length]; lia.
Qed.

Lemma trim_right_length (s : string) : length (Str.trim_right s) <= length s.
Proof.
  induction s as [|c s IH]; cbn [Str.trim_right]; [lia|].
  destruct (Str.trim_right s) as [|d r]; [destruct (Str.is_blank c)|]; cbn [length] in *; lia.
Qed.

Lemma trim_length (s : string) : length (Str.trim s) <= length s.
Proof.
  unfold Str.trim. pose proof (trim_right_length (Str.trim_left s)).
  pose proof (trim_left_length s). lia.
Qed.

Lemma trim_left_contains (a : ascii) (s : string) :
  Str.contains_char a s = false -> Str.contains_char a (Str.trim_left s) = false.
Proof.
  induction s as [|c s IH]; cbn [Str.trim_left Str.contains_char]; [reflexivity|].
  intros H. apply orb_false_iff in H. destruct H as [Hc Hs].
  destruct (Str.is_blank c); [now apply IH|]. cbn [Str.contains_char]. now rewrite Hc, Hs.
Qed.

Lemma trim_right_contains (a : ascii) (s : string) :
  Str.contains_char a s = false -> Str.contains_char a (Str.trim_right s) = false.
Proof.
  induction s as [|c s IH]; cbn [Str.trim_right Str.contains_char]; [reflexivity|].
  intros H. apply orb_false_iff in H. destruct H as [Hc Hs]. specialize (IH Hs).
  destruct (Str.trim_right s) as [|d r].
  - destruct (Str.is_blank c); cbn [Str.contains_char]; [reflexivity | now rewrite Hc].
  - cbn [Str.contains_char] in *. now rewrite Hc, IH.
Qed.

Lemma trim_contains (a : ascii) (s : string) :
  Str.contains_char a s = false -> Str.contains_char a (Str.trim s) = false.
Proof. intros H. unfold Str.trim. now apply trim_right_contains, trim_left_contains. Qed.

(** The cookie setter keeps of [fides_consent=p;q] the text [p]. *)
Lemma set_consent_cookie_cut (p q : string) (j : Cookie.jar) :
  Str.contains_char ";" p = false ->
  Cookie.set_document_cookie ("fides_consent=" ++ p ++ String ";" q) j
  = Cookie.put "fides_consent" (Str.trim p) j.
Proof.
  intros Hp. unfold Cookie.set_document_cookie.
  replace ("fides_consent=" ++ p ++ String ";" q)
    with (("fides_consent" ++ "=" ++ p) ++ String ";" q)
    by (now rewrite !string_app_assoc).
  rewrite split_semicolon_head; [| |right; eauto].
  - now rewrite (name_value_split "fides_consent" p eq_refl).
  - rewrite !contains_char_app, Hp. reflexivity.
Qed.

(** X14.  [src/App.tsx] writes the JSON text of the record into the
    cookie as it is.  When that text holds a semicolon, the cookie
    keeps only what stands before the first one: the stored value is
    shorter than the text of the record, and reading the cookie does
    not give the text back. *)
Theorem Basic_update_cookie_cuts_at_semicolon (j : Cookie.jar) (text : string)
    (r r' : json)
    (Hjar : jar_ok j)
    (Hlook : Cookie.lookup cookieName j = Some text) (Hne : text <> "")
    (Hparse : JSON.parse text = Ok r)
    (Hassign : assign_consent true r = Ok r')
    (Hsemi : Str.contains_char ";" (JSON.stringify r') = true) :
  exists j' p q,
    Basic.update_cookie j = Ok j'
    /\ JSON.stringify r' = p ++ String ";" q
    /\ Str.contains_char ";" p = false
    /\ Cookie.lookup cookieName j' = Some (Str.trim p)
    /\ length (Str.trim p) < length (JSON.stringify r')
    /\ Basic.getCookie cookieName j' <> Some (JSON.stringify r').
Proof.
  destruct (contains_char_split ";" _ Hsemi) as (p & q & Hpq & Hp).
  exists (Cookie.put cookieName (Str.trim p) j), p, q.
  assert (Hlen : length (Str.trim p) < length (JSON.stringify r')).
  { rewrite Hpq, string_length_app. cbn [length]. pose proof (trim_length p). lia. }
  split; [|split; [exact Hpq|split; [exact Hp|split; [apply lookup_put_same|split; [exact Hlen|]]]]].
  - unfold Basic.update_cookie.
    change (Basic.getCookie "fides_consent" j) with (Basic.getCookie cookieName j).
    rewrite (Basic_getCookie_lookup cookieName eq_refl j Hjar), Hlook.
    rewrite (if_truthy_nonempty Hne), Hparse. cbn [bind]. rewrite Hassign. cbn [bind].
    rewrite Hpq, string_app_assoc.
    change (String ";" q ++ cookie_attributes) with (String ";" (q ++ cookie_attributes)).
    now rewrite (set_consent_cookie_cut p (q ++ cookie_attributes) j Hp).
  - intros Hget.
    assert (Hj' : jar_ok (Cookie.put cookieName (Str.trim p) j)).
    { apply put_ok; [exact Hjar|]. apply cookieName_ok. now apply trim_contains. }
    pose proof (Basic_getCookie_lookup cookieName eq_refl _ Hj') as H.
    rewrite Hget, lookup_put_same, stringify_nonempty in H.
    destruct (Str.trim p) as [|c s] eqn:E; cbn [if_truthy] in H; [discriminate|].
    injection H as H. rewrite H in Hlen. lia.
Qed.

Lemma semicolon_cookies_ok : jar_ok semicolon_cookies.
Proof.
  split.
  - repeat constructor; try discriminate; vm_compute; reflexivity.
  - repeat constructor. intros [].
Qed.

Lemma Basic_update_cookie_cuts_at_semicolon_witness :
  exists j' v,
    Basic.update_cookie semicolon_cookies = Ok j'
    /\ Cookie.lookup cookieName j' = Some v
    /\ JSON.parse v = Throw SyntaxError.
Proof.
  destruct (Basic_update_cookie_cuts_at_semicolon semicolon_cookies semicolon_record_text
              (JObj [("consent", JObj []); ("note", JStr "a;b")])
              (JObj [("consent", JObj [("advertising_and_email_signup", JBool true)]);
                     ("note", JStr "a;b")])
              semicolon_cookies_ok eq_refl)
    as (j' & p & q & H1 & H2 & H3 & H4 & _).
  - discriminate.
  - vm_compute. reflexivity.
  - reflexivity.
  - vm_compute. reflexivity.
  - exists j', (Str.trim p). split; [exact H1|]. split; [exact H4|].
    assert (Hj : Basic.update_cookie semicolon_cookies
                 = Ok (Cookie.put cookieName
                         (Str.trim
                            ("{" ++ quote "consent" ++ ":{" ++ quote "advertising_and_email_signup"
                                 ++ ":true}," ++ quote "note" ++ ":" ++ String Str.dquote "a"))
                         semicolon_cookies)) by (vm_compute; reflexivity).
    assert (Ej : j' = Cookie.put cookieName
                        (Str.trim
                           ("{" ++ quote "consent" ++ ":{"
                                ++ quote "advertising_and_email_signup"
                                ++ ":true}," ++ quote "note" ++ ":" ++ String Str.dquote "a"))
                        semicolon_cookies) by congruence.
    rewrite Ej, lookup_put_same in H4.
    assert (Ep : Str.trim p
                 = Str.trim
                     ("{" ++ quote "consent" ++ ":{" ++ quote "advertising_and_email_signup"
                          ++ ":true}," ++ quote "note" ++ ":" ++ String Str.dquote "a"))
      by congruence.
    rewrite Ep. vm_compute. reflexivity.
Defined.

(** ** Records that parse and lack what the component reads *)

(** X15.  When the stored record parses but has no [consent] object
    ([consent] is missing or [null]), [handleSubmit] stops with a
    TypeError in [updateConsentCookie]: the cookie is left as it was
    and no preference request is sent. *)
Theorem handleSubmit_without_consent_object (srv : server) (w : world)
    (fs : list (string * json))
    (Hload : load (cookies w) = Ok (Some (JObj fs)))
    (Hmissing : obj_get "consent" fs = None \/ obj_get "consent" fs = Some JNull) :
  Inline.handleSubmit srv w = (Throw TypeError, w).
Proof.
  unfold Inline.handleSubmit, Inline.updateConsentCookie.
  unfold load in Hload. change cookieName with "fides_consent" in Hload.
  destruct (Inline.getCookie "fides_consent" (cookies w)) as [text|e]; [|discriminate].
  cbn [bind] in *. destruct (if_truthy text) as [t|]; [|discriminate].
  destruct (JSON.parse t) as [r|e]; [|discriminate]. cbn [bind] in *.
  injection Hload as ->. unfold assign_consent.
  destruct Hmissing as [-> | ->]; reflexivity.
Qed.

Lemma handleSubmit_without_consent_object_witness :
  Inline.handleSubmit sample_server (fresh_world empty_record_cookies)
  = (Throw TypeError, fresh_world empty_record_cookies).
Proof.
  exact (handleSubmit_without_consent_object sample_server (fresh_world empty_record_cookies)
           [] eq_refl (or_introl eq_refl)).
Defined.

(** X16.  When the stored record parses but has no [identity] object,
    reading the device id at start-up throws a TypeError: the effect
    stops before the start-up chain, so that no request is sent, the
    cookie is left as it was and the page keeps its initial state,
    whatever the user does afterwards. *)
Theorem session_without_identity (c : clock) (srv : server) (early late : list action)
    (j : Cookie.jar) (fs : list (string * json))
    (Hload : load j = Ok (Some (JObj fs)))
    (Hmissing : obj_get "identity" fs = None \/ obj_get "identity" fs = Some JNull) :
  Inline.useEffect_begin c (fresh_world j) = (Throw TypeError, fresh_world j)
  /\ Inline.session c srv early late j = fresh_world j.
Proof.
  assert (H : Inline.useEffect_begin c (fresh_world j) = (Throw TypeError, fresh_world j)).
  { unfold Inline.useEffect_begin. cbn [fresh_world cookies].
    rewrite (setOrCheck_loaded c j _ Hload). unfold device_id_of, get_prop. cbn [bind].
    destruct Hmissing as [-> | ->]; reflexivity. }
  split; [exact H|]. rewrite Inline_session_atomic. now rewrite H.
Qed.

Lemma session_without_identity_witness :
  Inline.session sample_clock sample_server fill_form [Submit sample_server]
    empty_record_cookies
  = fresh_world empty_record_cookies.
Proof.
  exact (proj2 (session_without_identity sample_clock sample_server fill_form
                  [Submit sample_server] empty_record_cookies [] eq_refl (or_introl eq_refl))).
Defined.

(** ** The form *)

Lemma typed_app (f : input_field) (l1 l2 : list action) (d : string) :
  typed f (l1 ++ l2) d = typed f l2 (typed f l1 d).
Proof.
  revert d. induction l1 as [|a l1 IH]; intros d; [reflexivity|].
  destruct a as [g v|b|srv]; cbn [typed app]; apply IH.
Qed.

(** What one action does to the form. *)
Lemma Inline_act_form (a : action) (w : world) :
  name (formData (st (Inline.act a w))) = typed NameField [a] (name (formData (st w)))
  /\ email (formData (st (Inline.act a w))) = typed EmailField [a] (email (formData (st w))).
Proof.
  destruct a as [f v|b|srv]; cbn [Inline.act typed].
  - destruct f; split; reflexivity.
  - destruct (truthy _); split; reflexivity.
  - destruct (_ || _); [split; reflexivity|].
    rewrite st_detach.
    destruct (handleSubmit_cases srv w) as [-> _]. split; reflexivity.
Qed.

Lemma Inline_acts_form (l : list action) (w : world) :
  name (formData (st (Inline.acts l w))) = typed NameField l (name (formData (st w)))
  /\ email (formData (st (Inline.acts l w))) = typed EmailField l (email (formData (st w))).
Proof.
  revert w. induction l as [|a l IH]; intros w; [split; reflexivity|].
  unfold Inline.acts in *. cbn [fold_left].
  destruct (IH (Inline.act a w)) as [-> ->]. destruct (Inline_act_form a w) as [-> ->].
  change (a :: l) with ([a] ++ l)%list. now rewrite !typed_app.
Qed.

Lemma Inline_act_consent (a : action) (w : world) :
  consent_needs_notice w -> consent_needs_notice (Inline.act a w).
Proof.
  unfold consent_needs_notice. intros H.
  destruct a as [f v|b|srv]; cbn [Inline.act].
  - destruct f; exact H.
  - destruct (truthy (notice_description (st w))) eqn:T; [|rewrite T; exact H].
    intros _. exact T.
  - destruct (_ || _); [exact H|].
    rewrite st_detach.
    destruct (handleSubmit_cases srv w) as [-> _]. exact H.
Qed.

Lemma Inline_acts_consent (l : list action) (w : world) :
  consent_needs_notice w -> consent_needs_notice (Inline.acts l w).
Proof.
  revert w. induction l as [|a l IH]; intros w H; [exact H|].
  unfold Inline.acts in *. cbn [fold_left]. apply IH. now apply Inline_act_consent.
Qed.

(** While no notice is shown, the consent flag stays unset. *)
Lemma Inline_acts_unset (l : list action) (w : world) :
  privacyNotice (st w) = Blank -> consent (formData (st w)) = false ->
  consent (formData (st (Inline.acts l w))) = false.
Proof.
  revert w. induction l as [|a l IH]; intros w Hp Hc; [exact Hc|].
  unfold Inline.acts in *. cbn [fold_left]. apply IH.
  - destruct (act_cells a w) as [-> _]. exact Hp.
  - destruct a as [f v|b|srv]; cbn [Inline.act].
    + destruct f; exact Hc.
    + unfold truthy, notice_description. now rewrite Hp.
    + unfold Inline.submit_disabled, truthy, notice_description. now rewrite Hp.
Qed.

(** X17.  In a session whose start-up read a device id, the form holds
    in each text field what the user typed into it last (the empty
    text when nothing was typed), whatever the services answered and
    however often the form was submitted; and its consent flag is set
    only while a notice with a description is shown. *)
Theorem form_holds_last_input (c : clock) (srv : server) (early late : list action)
    (j : Cookie.jar) (id : jsval)
    (Hstart : fst (Inline.useEffect_begin c (fresh_world j)) = Ok id) :
  let W := Inline.session c srv early late j in
  name (formData (st W)) = typed NameField (early ++ late) ""
  /\ email (formData (st W)) = typed EmailField (early ++ late) ""
  /\ consent_needs_notice W.
Proof.
  cbv zeta. rewrite Inline_session_atomic.
  destruct (useEffect_begin_world c j) as (Hst & _ & _).
  destruct (Inline.useEffect_begin c (fresh_world j)) as [r w]. cbn [fst snd] in *.
  subst r.
  destruct (Inline_acts_form late (Inline.fetchRegionAndNotices srv id (Inline.acts early w)))
    as [-> ->].
  rewrite Inline_fetch_formData. destruct (Inline_acts_form early w) as [-> ->].
  rewrite Hst, !typed_app. split; [reflexivity|]. split; [reflexivity|].
  apply Inline_acts_consent. unfold consent_needs_notice.
  rewrite Inline_fetch_formData, Inline_acts_unset; [discriminate | |]; now rewrite Hst.
Qed.

Lemma form_holds_last_input_witness :
  let W := Inline.session sample_clock offline_server
             [Input NameField "Ad"; Input EmailField "ada@example.org"]
             [Input NameField "Ada"; Toggle true; Submit offline_server] other_cookies in
  name (formData (st W)) = "Ada"
  /\ email (formData (st W)) = "ada@example.org".
Proof.
  cbv zeta.
  destruct (form_holds_last_input sample_clock offline_server
              [Input NameField "Ad"; Input EmailField "ada@example.org"]
              [Input NameField "Ada"; Toggle true; Submit offline_server] other_cookies
              (Some (JStr (fresh_uuid sample_clock))) eq_refl) as (H1 & H2 & _).
  split; [exact H1 | exact H2].
Defined.

(** ** More than one cookie of the same name *)

(** X18.  [getCookie] returns a value only when exactly one cookie of
    the jar has the name asked for.  When the consent cookie is visible
    more than once, [getCookie] returns [undefined] although records
    are stored, and [setOrCheckFidesConsentCookie] returns a newly
    made record with a new device id instead of a stored one. *)
Theorem getCookie_needs_single_cookie (name : string) (j : Cookie.jar) (c : clock)
    (Hname : Str.contains_char "=" name = false) (Hok : Forall cookie_ok j)
    (Hmany : named name j <> 1) :
  Inline.getCookie name j = Ok None
  /\ Basic.getCookie name j = None
  /\ (name = cookieName ->
      fst (Inline.setOrCheckFidesConsentCookie c j) = Ok (consentObject c)
      /\ fst (Basic.setOrCheckFidesConsentCookie c j) = Ok (consentObject c)).
Proof.
  assert (Hlen : Nat.eqb (List.length
                   (Str.split ("; " ++ Cookie.document_cookie j) ("; " ++ name ++ "="))) 2
                 = false).
  { apply Nat.eqb_neq. destruct j as [|x j].
    - cbn [Cookie.document_cookie map Str.join append].
      rewrite split_no_match by (cbn [Str.strip_prefix Ascii.eqb Bool.eqb];
                                 destruct name; reflexivity).
      change (String " " "") with (" " ++ "").
      rewrite split_through by reflexivity. discriminate.
    - rewrite document_cookie_segs by discriminate. cbn [append].
      rewrite (split_segs_length name (x :: j) Hname Hok). lia. }
  assert (H1 : Inline.getCookie name j = Ok None)
    by (unfold Inline.getCookie; now rewrite Hlen).
  assert (H2 : Basic.getCookie name j = None)
    by (unfold Basic.getCookie; now rewrite Hlen).
  split; [exact H1|]. split; [exact H2|]. intros ->. split.
  - unfold Inline.setOrCheckFidesConsentCookie. now rewrite H1.
  - unfold Basic.setOrCheckFidesConsentCookie. now rewrite H2.
Qed.

Lemma getCookie_needs_single_cookie_witness :
  Inline.getCookie "fides_consent" doubled_cookies = Ok None
  /\ fst (Inline.setOrCheckFidesConsentCookie sample_clock doubled_cookies)
     = Ok (consentObject sample_clock).
Proof.
  destruct (getCookie_needs_single_cookie "fides_consent" doubled_cookies sample_clock
              eq_refl) as (H1 & _ & H3).
  - repeat constructor; discriminate.
  - discriminate.
  - split; [exact H1 | exact (proj1 (H3 eq_refl))].
Defined.

(** ** The cookie and the preference sent *)

(** Everything [handleSubmit] does to the page. *)
Lemma Inline_handleSubmit_outcome (srv : server) (w : world) :
  (exists e, Inline.updateConsentCookie (consent (formData (st w))) (cookies w) = Throw e
             /\ snd (Inline.handleSubmit srv w) = w)
  \/ (exists j',
        Inline.updateConsentCookie (consent (formData (st w))) (cookies w) = Ok j'
        /\ cookies (snd (Inline.handleSubmit srv w)) = j'
        /\ st (snd (Inline.handleSubmit srv w)) = st w
        /\ ((exists e, preferences_body (st w) = Throw e
                       /\ sent (snd (Inline.handleSubmit srv w)) = sent w)
            \/ (exists b, preferences_body (st w) = Ok b
                          /\ sent (snd (Inline.handleSubmit srv w))
                             = (sent w ++ [PatchPreferences b])%list))).
Proof.
  unfold Inline.handleSubmit, Inline.recordConsentOnServer.
  destruct (Inline.updateConsentCookie _ _) as [j'|e]; [right | left; eauto].
  exists j'. split; [reflexivity|]. cbn [set_cookies st].
  destruct (preferences_body (st w)) as [b|e].
  - destruct (preference_service srv b); cbn [snd detach]; repeat split; right; eauto.
  - cbn [snd detach]. repeat split. left. eauto.
Qed.

Lemma app_last_eq {A} (l1 l2 : list A) (x y : A) :
  (l1 ++ [x] = l2 ++ [y])%list -> x = y.
Proof. intros H. apply app_inj_tail in H. now destruct H. Qed.

Lemma last_not_startup (id : jsval) (startup l : list request) (b : PreferencesBody) :
  startup_requests id startup -> startup <> (l ++ [PatchPreferences b])%list.
Proof.
  intros Hs E. apply (startup_no_preference id startup b Hs).
  rewrite E. apply in_or_app. right. now left.
Qed.

Lemma synced_detach (r : result unit) (w : world) : synced w -> synced (detach r w).
Proof. unfold synced. now rewrite cookies_detach, sent_detach. Qed.

Lemma Inline_act_synced (srv : server) (id : jsval) (a : action) (w : world) :
  protocol srv id w -> synced w -> synced (Inline.act a w).
Proof.
  intros Hp Hs. destruct a as [f v|b|srv']; cbn [Inline.act].
  - exact Hs.
  - destruct (truthy _); exact Hs.
  - destruct (_ || _); [exact Hs|]. apply synced_detach.
    destruct (Inline_handleSubmit_outcome srv' w)
      as [(e & _ & ->)|(j' & Hu & Hc & Hst & Hsent)]; [exact Hs|].
    destruct Hs as (fs & cs & Hjar & Hload & Htext & Hcons & Hlast).
    destruct (Inline_update_loaded _ _ _ _ Hjar Hload Htext Hu)
      as (r' & Ha & _ & Hjar' & Hload' & Htext').
    unfold assign_consent in Ha. rewrite Hcons in Ha. injection Ha as <-.
    exists (obj_set "consent"
              (JObj (obj_set "advertising_and_email_signup"
                       (JBool (consent (formData (st w)))) cs)) fs),
           (obj_set "advertising_and_email_signup" (JBool (consent (formData (st w)))) cs).
    rewrite Hc. split; [exact Hjar'|]. split; [exact Hload'|]. split; [exact Htext'|].
    split; [now rewrite obj_get_set|].
    intros l b0 Hl. rewrite obj_get_set. cbn [String.eqb Ascii.eqb Bool.eqb].
    destruct Hsent as [(e & Hb & Hsame)|(b & Hb & Happ)].
    + (* the request was not built: no preference request was sent before *)
      exfalso. rewrite Hsame in Hl.
      destruct Hp as (startup & prefs & Hsw & Hstart & Hcells).
      destruct (privacyNotice (st w)) as [| |n] eqn:Hn; [| contradiction |].
      * subst prefs. cbn [map] in Hsw. rewrite app_nil_r in Hsw.
        rewrite Hsw in Hl. exact (last_not_startup id startup l b0 Hstart Hl).
      * destruct Hcells as (r & nd & geo & resp & Hst' & _ & Hx & Hns & _ & _ & Hall).
        destruct prefs as [|p prefs].
        -- cbn [map] in Hsw. rewrite app_nil_r in Hsw.
           rewrite Hsw in Hl. exact (last_not_startup id startup l b0 Hstart Hl).
        -- inversion Hall as [|? ? (x & rest & -> & _) _]; subst.
           cbn [nth_error] in Hns.
           unfold preferences_body in Hb. rewrite Hn, Hx, Hns in Hb. discriminate.
    + rewrite Happ in Hl. apply app_last_eq in Hl. injection Hl as <-.
      destruct (preferences_body_fields (st w) Hb) as [-> _].
      destruct (consent (formData (st w))); reflexivity.
Qed.

Lemma Inline_acts_synced (srv : server) (id : jsval) (l : list action) (w : world) :
  protocol srv id w -> synced w -> synced (Inline.acts l w).
Proof.
  revert w. induction l as [|a l IH]; intros w Hp Hs; [exact Hs|].
  unfold Inline.acts in *. cbn [fold_left].
  apply IH; [now apply Inline_act_protocol | now apply (Inline_act_synced srv id)].
Qed.

(** X19.  Starting from a well-formed jar whose consent cookie is
    absent, or holds a record with a consent object that loads: when
    the last request of a session is a preference request, the consent
    flag stored in the cookie at the end of the session is the choice
    that request carried ([true] for [opt_in], [false] for
    [opt_out]). *)
Theorem cookie_agrees_with_last_preference (c : clock) (srv : server)
    (early late : list action) (j : Cookie.jar) (l : list request) (b : PreferencesBody)
    (Hjar : jar_ok j)
    (Hslot : (load j = Ok None /\ clock_ok c)
             \/ (exists fs cs, load j = Ok (Some (JObj fs))
                               /\ json_text (JObj fs) = true
                               /\ obj_get "consent" fs = Some (JObj cs)))
    (Hlast : sent (Inline.session c srv early late j) = (l ++ [PatchPreferences b])%list) :
  exists fs cs,
    load (cookies (Inline.session c srv early late j)) = Ok (Some (JObj fs))
    /\ obj_get "consent" fs = Some (JObj cs)
    /\ obj_get "advertising_and_email_signup" cs
       = Some (JBool (String.eqb (preference b) "opt_in"))
    /\ (preference b = "opt_in" \/ preference b = "opt_out").
Proof.
  assert (Hstart : exists r0 j0 fs cs,
             Inline.setOrCheckFidesConsentCookie c j = (Ok r0, j0)
             /\ jar_ok j0 /\ load j0 = Ok (Some (JObj fs))
             /\ json_text (JObj fs) = true /\ obj_get "consent" fs = Some (JObj cs)).
  { destruct Hslot as [[Hnone Hc]|(fs & cs & Hload & Htext & Hcons)].
    - destruct (setOrCheck_creates c j Hjar Hc Hnone) as [H1 H2].
      eexists _, _, _, _. split; [exact H1|]. split; [|split; [exact H2|split]].
      + apply put_ok; [exact Hjar|]. apply cookieName_ok.
        destruct (consentObject_text c Hc) as [Hplain _].
        now destruct (plain_spec _ Hplain) as (_ & _ & _ & Hsemi).
      + now apply consentObject_json_text.
      + reflexivity.
    - exists (JObj fs), j, fs, cs. split; [now apply setOrCheck_loaded|]. auto. }
  destruct Hstart as (r0 & j0 & fs & cs & Hset & Hjar0 & Hload0 & Htext0 & Hcons0).
  revert Hlast. rewrite Inline_session_atomic. unfold Inline.useEffect_begin.
  cbn [fresh_world cookies]. rewrite Hset.
  destruct (device_id_of r0) as [id|e] eqn:D.
  - set (w0 := set_cookies j0 (fresh_world j)).
    assert (Hp0 : privacyNotice (st w0) = Blank) by reflexivity.
    assert (Hsent : sent w0 = []) by reflexivity.
    destruct (acts_gated early w0 Hp0) as (G1 & G2 & _ & G4 & _).
    assert (Hp : protocol srv id (Inline.fetchRegionAndNotices srv id (Inline.acts early w0)))
      by (apply Inline_fetch_protocol; [congruence | exact G4]).
    assert (Hs : synced (Inline.fetchRegionAndNotices srv id (Inline.acts early w0))).
    { exists fs, cs. rewrite Inline_fetch_cookies, G2. cbn [w0 set_cookies cookies].
      repeat (split; [assumption|]).
      intros l0 b0 Hl. exfalso.
      apply (last_not_startup id _ l0 b0
               (Inline_fetch_startup srv id (Inline.acts early w0) ltac:(congruence)) Hl). }
    pose proof (Inline_acts_synced srv id late _ Hp Hs) as (fs' & cs' & _ & H2 & _ & H4 & H5).
    pose proof (Inline_acts_protocol srv id late _ Hp) as Hp'.
    intros Hlast. exists fs', cs'. split; [exact H2|]. split; [exact H4|].
    split; [exact (H5 l b Hlast)|].
    destruct Hp' as (startup & prefs & Hsw & Hstart & Hcells).
    assert (Hin : In b prefs).
    { assert (Hin : In (PatchPreferences b) (startup ++ map PatchPreferences prefs)).
      { rewrite <- Hsw, Hlast. apply in_or_app. right. now left. }
      apply in_app_or in Hin. destruct Hin as [Hin|Hin].
      - exfalso. exact (startup_no_preference id startup b Hstart Hin).
      - apply in_map_iff in Hin. destruct Hin as (b' & [= ->] & Hin). exact Hin. }
    destruct (privacyNotice
                (st (Inline.acts late
                       (Inline.fetchRegionAndNotices srv id (Inline.acts early w0)))))
      as [| |n]; [subst prefs; destruct Hin | contradiction |].
    destruct Hcells as (r & nd & geo & resp & _ & _ & _ & _ & _ & _ & Hall).
    rewrite Forall_forall in Hall.
    destruct (Hall b Hin) as (x & rest & _ & _ & _ & _ & _ & _ & Hpref & _). exact Hpref.
  - cbn [set_cookies sent]. intros Hlast. destruct l; discriminate.
Qed.

Lemma cookie_agrees_with_last_preference_witness :
  let W := Inline.session sample_clock sample_server []
             (fill_form ++ [Toggle true; Submit sample_server;
                            Toggle false; Submit sample_server]) other_cookies in
  exists fs,
    load (cookies W) = Ok (Some (JObj fs))
    /\ obj_get "consent" fs = Some (JObj [("advertising_and_email_signup", JBool false)]).
Proof.
  cbv zeta.
  set (b := {| pref_device_id := Some (JStr (fresh_uuid sample_clock));
               pref_notice_history_id := Some "pri_hist_2";
               preference := "opt_out";
               pref_served_notice_history_id := Some "ser_hist_1";
               pref_experience_id := Some "pri_exp_1";
               pref_geography := Some "en_us";
               method := "button" |}).
  destruct (cookie_agrees_with_last_preference sample_clock sample_server []
              (fill_form ++ [Toggle true; Submit sample_server;
                             Toggle false; Submit sample_server]) other_cookies
              [GetLocation; GetExperience "us";
               PatchNoticesServed
                 (notices_served_body sample_experience email_signup_notice
                    (Some (JStr (fresh_uuid sample_clock))) (Some "en_us"));
               PatchPreferences
                 {| pref_device_id := Some (JStr (fresh_uuid sample_clock));
                    pref_notice_history_id := Some "pri_hist_2";
                    preference := "opt_in";
                    pref_served_notice_history_id := Some "ser_hist_1";
                    pref_experience_id := Some "pri_exp_1";
                    pref_geography := Some "en_us";
                    method := "button" |}]
              b other_cookies_ok (or_introl (conj other_cookies_empty_slot sample_clock_ok)))
    as (fs & cs & H1 & H2 & H3 & _).
  - vm_compute. reflexivity.
  - exists fs. split; [exact H1|].
    assert (Hload : load (cookies
                      (Inline.session sample_clock sample_server []
                         (fill_form ++ [Toggle true; Submit sample_server;
                                        Toggle false; Submit sample_server]) other_cookies))
                    = Ok (Some (consentObject sample_clock)))
      by (vm_compute; reflexivity).
    rewrite Hload in H1. injection H1 as <-. reflexivity.
Defined.

(** ** The component without the gate *)

(** [getCookie] without decoding returns the stored value. *)
Lemma Plain_getCookie_lookup (name : string) (j : Cookie.jar) :
  Str.contains_char "=" name = false -> jar_ok j ->
  Plain.getCookie name j = Cookie.lookup name j.
Proof.
  intros Hname Hj. unfold Plain.getCookie.
  pose proof (split_document_cookie name Hname j Hj) as H. cbn [append] in *.
  destruct (Cookie.lookup name j) as [v|] eqn:L.
  - destruct H as (a & b & -> & Hb). cbn [List.length Nat.eqb last].
    rewrite split_semicolon_head; [reflexivity | | exact Hb].
    destruct Hj as [Hok _]. exact (lookup_plain j name v Hok L).
  - rewrite H. reflexivity.
Qed.

Lemma hd_error_app {A} (l l' : list A) (x : A) :
  hd_error l = Some x -> hd_error (l ++ l') = Some x.
Proof. destruct l; [discriminate | exact (fun H => H)]. Qed.

Lemma Inline_after_location_grows (srv : server) (id : jsval) (w : world) :
  exists l, sent (Inline.after_location srv id w) = (sent w ++ l)%list.
Proof.
  unfold Inline.after_location.
  assert (H1 : exists l, sent w = (sent w ++ l)%list)
    by (exists []; now rewrite app_nil_r).
  destruct (location_service srv) as [ld|e]; [|exact H1].
  destruct (geography ld) as [geo|e]; [|exact H1].
  destruct (if_truthy (region_of ld)) as [region|]; [|exact H1].
  assert (H2 : forall x, exists l, sent (send (GetExperience x) w) = (sent w ++ l)%list).
  { intros x. cbn [send sent]. eauto. }
  destruct (Inline.fetchPrivacyExperiences srv _) as [[page|]|e]; try apply H2.
  pose proof (processNotices_sent srv page id geo
                (send (GetExperience (Str.toLowerCase region)) w)) as H.
  destruct (Inline.processNotices srv page id geo _) as [p w3]. cbn [snd] in H.
  rewrite sent_detach.
  destruct (H2 (Str.toLowerCase region)) as [l Hl].
  destruct H as [->|[b ->]]; rewrite Hl; [eauto|]. rewrite <- app_assoc. eauto.
Qed.

Lemma Inline_fetch_grows (srv : server) (id : jsval) (w : world) :
  exists l, sent (Inline.fetchRegionAndNotices srv id w) = (sent w ++ l)%list.
Proof.
  unfold Inline.fetchRegionAndNotices.
  destruct (Inline_after_location_grows srv id (send GetLocation w)) as [l ->].
  cbn [send sent]. rewrite <- app_assoc. eauto.
Qed.

Lemma Plain_handleSubmit_grows (srv : server) (w : world) :
  exists l, sent (snd (Plain.handleSubmit srv w)) = (sent w ++ l)%list.
Proof.
  unfold Plain.handleSubmit.
  destruct (Plain.updateConsentCookie _ _) as [j|e];
    [|exists []; cbn [snd]; now rewrite app_nil_r].
  pose proof (recordConsentOnServer_cases srv (set_cookies j w)) as H.
  destruct (Inline.recordConsentOnServer srv (set_cookies j w)) as [r w'].
  destruct H as (_ & _ & _ & H). cbn [snd]. rewrite sent_detach.
  destruct H as [(e & _ & _ & ->)|(b & _ & -> & _)]; cbn [set_cookies sent]; [|eauto].
  exists []. now rewrite app_nil_r.
Qed.

Lemma Plain_acts_grow (l : list action) (w : world) :
  exists l', sent (Plain.acts l w) = (sent w ++ l')%list.
Proof.
  revert w. induction l as [|a l IH]; intros w; [exists []; now rewrite app_nil_r|].
  unfold Plain.acts in *. cbn [fold_left].
  destruct (IH (Plain.act a w)) as [l2 ->].
  assert (H : exists l1, sent (Plain.act a w) = (sent w ++ l1)%list).
  { destruct a as [f v|b|srv]; cbn [Plain.act].
    - exists []. cbn [set_state sent]. now rewrite app_nil_r.
    - destruct (truthy _); exists []; cbn [set_state sent]; now rewrite app_nil_r.
    - destruct (fields_filled _); [rewrite sent_detach; apply Plain_handleSubmit_grows|].
      exists []. now rewrite app_nil_r. }
  destruct H as [l1 ->]. rewrite <- app_assoc. eauto.
Qed.

Lemma Plain_acts_cons (a : action) (l : list action) (w : world) :
  Plain.acts (a :: l) w = Plain.acts l (Plain.act a w).
Proof. reflexivity. Qed.

(** The record of a first visit is written and read back as text. *)
Lemma Plain_first_visit (c : clock) (j : Cookie.jar) :
  jar_ok j -> clock_ok c -> if_truthy (Cookie.lookup cookieName j) = None ->
  let j1 := Cookie.put cookieName (JSON.stringify (consentObject c)) j in
  Plain.setOrCheckFidesConsentCookie c j = (Ok (consentObject c), j1)
  /\ exists j2, Plain.updateConsentCookie false j1 = Ok j2.
Proof.
  intros Hj Hc Hnone. cbv zeta.
  destruct (consentObject_text c Hc) as [Hplain Hwf].
  destruct (plain_spec _ Hplain) as (Hsafe & _ & _ & Hsemi).
  split.
  - unfold Plain.setOrCheckFidesConsentCookie.
    rewrite (Plain_getCookie_lookup cookieName j eq_refl Hj), Hnone.
    now rewrite set_document_cookie_put by (auto; discriminate).
  - unfold Plain.updateConsentCookie.
    change (Plain.getCookie "fides_consent") with (Plain.getCookie cookieName).
    assert (Hj1 : jar_ok (Cookie.put cookieName (JSON.stringify (consentObject c)) j))
      by (apply put_ok; [exact Hj | now apply cookieName_ok]).
    rewrite (Plain_getCookie_lookup cookieName _ eq_refl Hj1).
    rewrite lookup_put_same, stringify_nonempty, parse_stringify by exact Hwf.
    cbn [bind]. unfold consentObject at 1. cbn [assign_consent obj_get String.eqb Ascii.eqb
                                                 Bool.eqb bind].
    eauto.
Qed.

Lemma fields_filled_inputs (n e : string) (s : state) :
  n <> "" -> e <> "" ->
  fields_filled (handleInputChange EmailField e (handleInputChange NameField n s)) = true.
Proof.
  intros Hn He. unfold fields_filled. cbn.
  apply String.eqb_neq in Hn, He. now rewrite Hn, He.
Qed.

(** The first two requests of a session with the gate, or of
    [src/App.tsx]: the location request comes first, and the request
    after it is not a preference request. *)
Lemma protocol_first_requests (srv : server) (id : jsval) (w : world) :
  protocol srv id w ->
  (hd_error (sent w) = None \/ hd_error (sent w) = Some GetLocation)
  /\ forall b, nth_error (sent w) 1 <> Some (PatchPreferences b).
Proof.
  intros (startup & prefs & -> & Hstart & Hcells).
  destruct Hstart as [->|[->|[(r & _ & ->)|(r & nb & _ & _ & ->)]]];
    try (split; [right; reflexivity | intros b; discriminate]).
  - destruct (privacyNotice (st w)) as [| |n]; [subst prefs | contradiction |].
    + split; [now left | intros b; discriminate].
    + destruct Hcells as (r & nd & geo & resp & [=] & _).
  - destruct (privacyNotice (st w)) as [| |n]; [subst prefs | contradiction |].
    + split; [now right | intros b; discriminate].
    + destruct Hcells as (r & nd & geo & resp & [=] & _).
Qed.

(** X20.  In the shape of the component whose button is never
    disabled, a first-time visitor who fills in both fields and
    submits while the location request issued at mount is still
    pending makes the page send a preference request right after the
    location request, before the catalogue is asked: an [opt_out] with
    an empty device id and without notice, served reference or
    experience.  In the shape with the disabled button and in
    [src/App.tsx], the first request of every session is the location
    request and the request after it is never a preference request. *)
Theorem Plain_submission_before_notice (c : clock) (srv srv' : server) (j : Cookie.jar)
    (n e : string) (rest late : list action)
    (Hjar : jar_ok j) (Hclock : clock_ok c)
    (Hfirst : if_truthy (Cookie.lookup cookieName j) = None)
    (Hn : n <> "") (He : e <> "") :
  let early := Input NameField n :: Input EmailField e :: Submit srv' :: rest in
  (exists l, sent (Plain.session c srv early late j)
             = GetLocation :: PatchPreferences unserved_preference :: l)
  /\ ((hd_error (sent (Inline.session c srv early late j)) = None
       \/ hd_error (sent (Inline.session c srv early late j)) = Some GetLocation)
      /\ forall b, nth_error (sent (Inline.session c srv early late j)) 1
                   <> Some (PatchPreferences b))
  /\ ((hd_error (sent (Basic.session c srv early late j)) = None
       \/ hd_error (sent (Basic.session c srv early late j)) = Some GetLocation)
      /\ forall b, nth_error (sent (Basic.session c srv early late j)) 1
                   <> Some (PatchPreferences b)).
Proof.
  cbv zeta. split; [|split].
  - destruct (Plain_first_visit c j Hjar Hclock Hfirst) as [Hset [j2 Hupd]].
    unfold Plain.session, Plain.useEffect_begin. cbn [fresh_world cookies].
    rewrite Hset. cbn [device_id_of consentObject get_prop obj_get String.eqb Ascii.eqb
                         Bool.eqb bind].
    set (w0 := send GetLocation (set_cookies _ (fresh_world j))).
    set (id := Some (JStr (fresh_uuid c))).
    rewrite !Plain_acts_cons.
    set (w1 := Plain.act (Submit srv')
                 (Plain.act (Input EmailField e) (Plain.act (Input NameField n) w0))).
    assert (H1 : sent w1 = [GetLocation; PatchPreferences unserved_preference]).
    { unfold w1. cbn [Plain.act].
      assert (Hf : fields_filled
                     (st (set_state
                            (handleInputChange EmailField e
                               (st (set_state (handleInputChange NameField n (st w0)) w0)))
                            (set_state (handleInputChange NameField n (st w0)) w0))) = true)
        by (apply fields_filled_inputs; assumption).
      rewrite Hf, sent_detach. unfold Plain.handleSubmit.
      assert (Hc : consent (formData
                     (st (set_state
                            (handleInputChange EmailField e
                               (st (set_state (handleInputChange NameField n (st w0)) w0)))
                            (set_state (handleInputChange NameField n (st w0)) w0)))) = false)
        by reflexivity.
      rewrite Hc. cbn [set_state cookies]. unfold w0 at 1. cbn [send set_cookies cookies].
      rewrite Hupd. unfold Inline.recordConsentOnServer.
      assert (Hb : preferences_body
                     (st (set_cookies j2
                            (set_state
                               (handleInputChange EmailField e
                                  (st (set_state (handleInputChange NameField n (st w0)) w0)))
                               (set_state (handleInputChange NameField n (st w0)) w0))))
                   = Ok unserved_preference) by reflexivity.
      rewrite Hb. destruct (preference_service srv' unserved_preference); reflexivity. }
    destruct (Plain_acts_grow rest w1) as [l1 E1].
    destruct (Inline_after_location_grows srv id (Plain.acts rest w1)) as [l2 E2].
    destruct (Plain_acts_grow late (Inline.after_location srv id (Plain.acts rest w1)))
      as [l3 E3].
    rewrite E3, E2, E1, H1. cbn [app]. eauto.
  - destruct (Inline_session_protocol_ex c srv
                (Input NameField n :: Input EmailField e :: Submit srv' :: rest) late j)
      as [id H].
    exact (protocol_first_requests srv id _ H).
  - destruct (Basic_session_invariant c srv
                (Input NameField n :: Input EmailField e :: Submit srv' :: rest) late j)
      as (id & H & _).
    exact (protocol_first_requests srv id _ H).
Qed.

Lemma Plain_submission_before_notice_witness :
  (exists l, sent (Plain.session sample_clock sample_server
                     (fill_form ++ [Submit refusing_server]) [] other_cookies)
             = GetLocation :: PatchPreferences unserved_preference :: l)
  /\ List.length (sent (Plain.session sample_clock sample_server
                          (fill_form ++ [Submit refusing_server]) [] other_cookies)) = 4.
Proof.
  split; [|vm_compute; reflexivity].
  exact (proj1 (Plain_submission_before_notice sample_clock sample_server refusing_server
                  other_cookies "Ada" "ada@example.org" [] [] other_cookies_ok sample_clock_ok
                  eq_refl ltac:(discriminate) ltac:(discriminate))).
Defined.

